(** * CaptiveNut: placement engine of the FreeCAD captive-nut workbench

    A shallow embedding of [CaptiveNut.py].  Python floats are read as
    real numbers ([R]); the host CAD kernel ([Part], the document, the
    GUI) is not implemented here: its solids are kept as construction
    terms and its calls are recorded as events of an explicit world
    state, with the host's answers (exceptions, placements, replies of
    the user) taken from an arbitrary oracle.  Strings are byte strings:
    the texts of the source are kept byte for byte, in its encoding. *)

From Stdlib Require Import Reals Lra List ZArith Lia String Ascii Bool.
From Stdlib Require Import DecimalString DecimalNat PeanoNat Sorted.
Import ListNotations.

Open Scope R_scope.

(** ** Vectors ([App.Vector]) *)

Record Vector : Type := mkVector { vx : R; vy : R; vz : R }.

Definition vadd (a b : Vector) : Vector :=
  mkVector (vx a + vx b) (vy a + vy b) (vz a + vz b).

Definition vsub (a b : Vector) : Vector :=
  mkVector (vx a - vx b) (vy a - vy b) (vz a - vz b).

Definition vscale (a : Vector) (k : R) : Vector :=
  mkVector (vx a * k) (vy a * k) (vz a * k).

Definition vdot (a b : Vector) : R :=
  vx a * vx b + vy a * vy b + vz a * vz b.

(** [math.radians] *)
Definition radians (deg : R) : R := deg * (PI / 180).

(** Python's [range(n)] for an integer [n]: empty when [n <= 0]. *)
Definition range (n : Z) : list Z := map Z.of_nat (seq 0 (Z.to_nat n)).

(** ** Pattern generator (the "Pattern Generator" branch of [Activated]) *)

Module Pattern.

(** [centers = [base + App.Vector(i * spacing, 0, 0) for i in range(count)]] *)
Definition linear_centers (base : Vector) (spacing : R) (count : Z) : list Vector :=
  map (fun i => vadd base (mkVector (IZR i * spacing) 0 0)) (range count).

(** The body of the polar loop for one index [i]. *)
Definition polar_point (base : Vector) (radius angle_step : R) (i : Z) : Vector :=
  let ang := radians (IZR i * angle_step) in
  let x := vx base + radius * cos ang in
  let y := vy base + radius * sin ang in
  mkVector x y (vz base).

(** [for i in range(count): ...; centers.append(App.Vector(x, y, base.z))] *)
Definition polar_centers (base : Vector) (radius angle_step : R) (count : Z)
  : list Vector :=
  map (polar_point base radius angle_step) (range count).

(** [base_str = text.replace(',', ' ').split()] followed by
    [float(base_str[0..2])]: every token is either a number or not
    ([None], where [float] raises [ValueError]); fewer than three tokens
    raise [IndexError].  Further tokens are ignored. *)
Definition parse_base (tokens : list (option R)) : option Vector :=
  match tokens with
  | Some x :: Some y :: Some z :: _ => Some (mkVector x y z)
  | _ => None
  end.

End Pattern.

(** ** Placements and matrices ([App.Rotation], [App.Placement], [App.Matrix]) *)

(** A rotation, by the rows of its matrix. *)
Record Rotation : Type := mkRotation { row1 : Vector; row2 : Vector; row3 : Vector }.

Record Placement : Type := mkPlacement { Base : Vector; Rot : Rotation }.

(** The three upper rows of the homogeneous 4x4 matrix; the last row of a
    placement matrix is [0 0 0 1]. *)
Record Matrix : Type := mkMatrix {
  A11 : R; A12 : R; A13 : R; A14 : R;
  A21 : R; A22 : R; A23 : R; A24 : R;
  A31 : R; A32 : R; A33 : R; A34 : R }.

Definition rot_apply (r : Rotation) (v : Vector) : Vector :=
  mkVector (vdot (row1 r) v) (vdot (row2 r) v) (vdot (row3 r) v).

Definition rot_inverse (r : Rotation) : Rotation :=
  mkRotation (mkVector (vx (row1 r)) (vx (row2 r)) (vx (row3 r)))
             (mkVector (vy (row1 r)) (vy (row2 r)) (vy (row3 r)))
             (mkVector (vz (row1 r)) (vz (row2 r)) (vz (row3 r))).

(** [Placement.toMatrix()] *)
Definition toMatrix (p : Placement) : Matrix :=
  let r := Rot p in let b := Base p in
  mkMatrix (vx (row1 r)) (vy (row1 r)) (vz (row1 r)) (vx b)
           (vx (row2 r)) (vy (row2 r)) (vz (row2 r)) (vy b)
           (vx (row3 r)) (vy (row3 r)) (vz (row3 r)) (vz b).

(** [Matrix.multiply(vector)] *)
Definition multiply (m : Matrix) (v : Vector) : Vector :=
  mkVector (A11 m * vx v + A12 m * vy v + A13 m * vz v + A14 m)
           (A21 m * vx v + A22 m * vy v + A23 m * vz v + A24 m)
           (A31 m * vx v + A32 m * vy v + A33 m * vz v + A34 m).

(** [Placement.multVec(vector)] and [Placement.inverse()] *)
Definition multVec (p : Placement) (v : Vector) : Vector :=
  vadd (rot_apply (Rot p) v) (Base p).

Definition inverse (p : Placement) : Placement :=
  let ri := rot_inverse (Rot p) in
  mkPlacement (vscale (rot_apply ri (Base p)) (-1)) ri.

(** ** Geometric primitives ([Part] curves, as a sketch or an edge holds them) *)

Inductive Geometry : Type :=
| GeomPoint (p : Vector)
| LineSegment (StartPoint EndPoint : Vector)
| Circle (Center Axis : Vector) (Radius : R)
| ArcOfCircle (Center : Vector) (Radius FirstParameter LastParameter : R)
| Ellipse (Center : Vector) (MajorRadius MinorRadius : R)
| BSplineCurve (poles : list Vector).

(** The attribute [Radius], where the primitive has one. *)
Definition attr_Radius (g : Geometry) : option R :=
  match g with
  | Circle _ _ r => Some r
  | ArcOfCircle _ r _ _ => Some r
  | _ => None
  end.

(** The attribute [Center], where the primitive has one. *)
Definition attr_Center (g : Geometry) : option Vector :=
  match g with
  | Circle c _ _ => Some c
  | ArcOfCircle c _ _ _ => Some c
  | Ellipse c _ _ => Some c
  | _ => None
  end.

Definition hasattr {A : Type} (a : option A) : bool :=
  match a with Some _ => true | None => false end.

(** ** Point extraction *)

Module SketchPoints.

Record Sketch : Type := mkSketch {
  sk_Geometry : list Geometry;
  sk_Placement : Placement }.

(** The first loop of [extract_centers_from_sketch]. *)
Fixpoint local_centers (geos : list Geometry) : list Vector :=
  match geos with
  | [] => []
  | geo :: rest =>
      if hasattr (attr_Radius geo) && hasattr (attr_Center geo) then
        match attr_Center geo with
        | Some c => mkVector (vx c) (vy c) 0 :: local_centers rest
        | None => local_centers rest
        end
      else local_centers rest
  end.

Definition extract_centers_from_sketch (sketch : Sketch) : list Vector :=
  let centers := local_centers (sk_Geometry sketch) in
  match centers with
  | [] => []
  | _ =>
      let mat := toMatrix (sk_Placement sketch) in
      map (fun c => multiply mat c) centers
  end.

End SketchPoints.

Module Dxf.

(** An edge of a shape; [Curve] is its underlying curve. *)
Record Edge : Type := mkEdge { Curve : Geometry }.

(** A node of the imported drawing.  [Proxy] is [None] when the object has
    no [Proxy] attribute, [Some None] when its proxy has no [layer]
    attribute and [Some (Some l)] when the proxy's layer is [l]; [Shape] is
    [None] when the object has no [Shape], else the edges of the shape. *)
#[local] Set Warnings "-register-all".
Inductive DocObject : Type :=
  mkDocObject (Proxy : option (option string))
              (Shape : option (list Edge))
              (OutList : list DocObject).

Definition Proxy (o : DocObject) := let (p, _, _) := o in p.
Definition Shape (o : DocObject) := let (_, s, _) := o in s.
Definition OutList (o : DocObject) := let (_, _, l) := o in l.

(** [getattr(obj.Proxy, 'layer', None) != layer_filter] *)
Definition layer_differs (layer : option string) (layer_filter : string) : bool :=
  match layer with
  | Some l => negb (String.eqb l layer_filter)
  | None => true
  end.

(** The loop over [obj.Shape.Edges]. *)
Fixpoint edge_centers (edges : list Edge) : list Vector :=
  match edges with
  | [] => []
  | edge :: rest =>
      if hasattr (attr_Radius (Curve edge)) then
        match attr_Center (Curve edge) with
        | Some c => c :: edge_centers rest
        | None => edge_centers rest
        end
      else edge_centers rest
  end.

Definition shape_centers (shape : option (list Edge)) : list Vector :=
  match shape with
  | Some edges => edge_centers edges
  | None => []
  end.

(** The inner function [traverse] of [extract_centers_from_dxf]. *)
Fixpoint traverse (layer_filter : string) (obj : DocObject) : list Vector :=
  match obj with
  | mkDocObject proxy shape outlist =>
      let filtered :=
        match proxy with
        | Some layer =>
            negb (String.eqb layer_filter "All") && layer_differs layer layer_filter
        | None => false
        end in
      if filtered then []
      else
        shape_centers shape ++
        (fix children (l : list DocObject) : list Vector :=
           match l with
           | [] => []
           | child :: rest => traverse layer_filter child ++ children rest
           end) outlist
  end.

(** What [importDXF.open(dxf_path)] does: it raises, returns nothing, or
    returns the root object of the drawing. *)
Inductive ImportResult : Type :=
| ImportRaises (msg : string)
| ImportNothing
| ImportRoot (Name : string) (root : DocObject).

End Dxf.

(** ** Insert database *)

(** Exceptions are kept by their message, what [str(e)] gives. *)
Definition Exn : Type := string.

(** One entry of [INSERT_TYPES]; the optional keys are options. *)
Record InsertSpec : Type := mkInsert {
  nut : R * R;
  bolt_clearance : R;
  pocket_style : string;
  pocket_diameter : option R;
  thickness : option R }.

Definition INSERT_TYPES : list (string * InsertSpec) :=
  [ ("M3 Captive Nut", mkInsert (55/10, 24/10) (35/10) "hex" None None);
    ("M4 Captive Nut", mkInsert (7, 32/10) (45/10) "hex" None None);
    ("M5 Captive Nut", mkInsert (8, 4) (55/10) "hex" None None);
    ("M6 Captive Nut", mkInsert (10, 5) (66/10) "hex" None None);
    ("M3 Heat-Set", mkInsert (4, 4) 3 "round" (Some (42/10)) None);
    ("M4 Heat-Set", mkInsert (5, 5) (42/10) "round" (Some (52/10)) None);
    ("M5 Heat-Set", mkInsert (6, 6) (52/10) "round" (Some (62/10)) None);
    ("M3 Square Nut", mkInsert (55/10, 55/10) (35/10) "rect" None (Some (24/10)));
    ("M4 Square Nut", mkInsert (7, 7) (45/10) "rect" None (Some (32/10)));
    ("M5 Square Nut", mkInsert (8, 8) (55/10) "rect" None (Some 4)) ]%string.

(** [INSERT_TYPES[name]]; a missing key raises [KeyError], whose message
    is the [repr] of the key: the key between single quotes, for a key
    that holds no quote and nothing to escape. *)
Fixpoint dict_get {A : Type} (d : list (string * A)) (key : string) : Exn + A :=
  match d with
  | [] => inl ("'" ++ key ++ "'")%string
  | (k, v) :: rest => if String.eqb k key then inr v else dict_get rest key
  end.

(** The dialog's values, as [Activated] collects them in [dialog_data].
    [base_point] is the text split into tokens, each a number or not. *)
Record DialogData : Type := mkDialogData {
  mode : string;
  insert_type : string;
  pocket_depth : R;
  hole_type : string;
  hole_depth : R;
  countersink_angle : R;
  auto_boolean : bool;
  pattern_type : string;
  base_point : list (option R);
  count : Z;
  linear_spacing : R;
  polar_radius : R;
  polar_angle : R;
  dxf_file : string;
  dxf_layer : string }.

(** ** Solid synthesis ([make_pocket], [make_bolt_hole],
       [make_countersunk_hole], [make_preview]) *)

Module Synthesis.

(** Solids, as the calls of [Part] that build them. *)
Inductive Solid : Type :=
| makeCylinder (radius height : R) (pnt dir : Vector)
| makeCone (radius1 radius2 height : R) (pnt dir : Vector)
| extrudePolygonFace (pts : list Vector) (dir : Vector)
| fuse (a b : Solid)
| withPlacement (s : Solid) (p : Placement).

Inductive Compound : Type := makeCompound (shapes : list Solid).

(** The six corners of the hexagon, [i = 0..5]. *)
Definition hex_point (outer : R) (i : Z) : Vector :=
  mkVector ((outer / 2) * cos (radians (60 * IZR i + 30)))
           ((outer / 2) * sin (radians (60 * IZR i + 30))) 0.

Definition make_pocket (data : InsertSpec) (depth : R) : Solid :=
  let style := pocket_style data in
  if String.eqb style "hex" then
    let w := fst (nut data) in
    let outer := w + 1 in
    let pts := map (hex_point outer) (range 6) in
    let pts := pts ++ [hd (mkVector 0 0 0) pts] in
    extrudePolygonFace pts (mkVector 0 0 (- depth))
  else if String.eqb style "rect" then
    let (w, h) := nut data in
    let clearance := 5 / 10 in
    let pts :=
      [ mkVector (- w / 2 - clearance) (- h / 2 - clearance) 0;
        mkVector (w / 2 + clearance) (- h / 2 - clearance) 0;
        mkVector (w / 2 + clearance) (h / 2 + clearance) 0;
        mkVector (- w / 2 - clearance) (h / 2 + clearance) 0;
        mkVector (- w / 2 - clearance) (- h / 2 - clearance) 0 ] in
    extrudePolygonFace pts (mkVector 0 0 (- depth))
  else
    let d := match pocket_diameter data with
             | Some d => d
             | None => fst (nut data) + 2 / 10
             end in
    makeCylinder (d / 2) depth (mkVector 0 0 0) (mkVector 0 0 (-1)).

Definition make_bolt_hole (data : InsertSpec) (depth : R) : Solid :=
  makeCylinder (bolt_clearance data / 2) depth (mkVector 0 0 0) (mkVector 0 0 (-1)).

(** Python's float division: a zero divisor raises [ZeroDivisionError].
    Read over the reals, the divisor [2 * tan] of [make_countersunk_hole]
    vanishes at the included angle 0, as in the code, and also at 180 and
    360, where the float tangent is only huge or tiny: the definitions
    below are the code for included angles from 0 up to, not including,
    180 (the dialog offers 60 to 120). *)
Definition fdiv (a b : R) : Exn + R :=
  if Req_dec_T b 0 then inl "float division by zero"%string else inr (a / b).

Definition make_countersunk_hole (data : InsertSpec) (depth angle : R) : Exn + Solid :=
  let d_clear := bolt_clearance data in
  let d_head := d_clear * 2 in
  let angle_rad := radians (angle / 2) in
  match fdiv (d_head - d_clear) (2 * tan angle_rad) with
  | inl e => inl e
  | inr head_depth =>
      let bottom := makeCylinder (d_clear / 2) depth (mkVector 0 0 0) (mkVector 0 0 (-1)) in
      let cone := makeCone (d_head / 2) (d_clear / 2) head_depth
                           (mkVector 0 0 0) (mkVector 0 0 (-1)) in
      inr (fuse bottom cone)
  end.

(** What [make_preview] reads of the selected face and of the base object. *)
Record Face : Type := mkFace {
  face_id : nat;
  normalAt00 : Vector;          (* face.normalAt(0, 0) *)
  face_CenterOfMass : Vector }.

Record BaseShape : Type := mkBaseShape {
  shape_CenterOfMass : Vector;
  shape_Faces : list nat }.

(** The normal that [make_preview] hands to the rotation:
    [if normal.dot(face_center - com) > 0: normal = normal * -1]. *)
Definition preview_normal (normal com face_center : Vector) : Vector :=
  if Rlt_dec 0 (vdot normal (vsub face_center com)) then vscale normal (-1)
  else normal.

Section Kernel.

(** [App.Rotation(v1, v2)], the kernel's rotation that takes [v1] to [v2]. *)
Variable Rotation_from_to : Vector -> Vector -> Rotation.

(** The body of the loop of [make_preview] for one center. *)
Definition preview_shapes_at (insert : InsertSpec) (pocket_depth : R)
    (hole_type : string) (hole_depth countersink_angle : R)
    (normal center : Vector) : Exn + list Solid :=
  let placement := mkPlacement center (Rotation_from_to (mkVector 0 0 1) normal) in
  let pocket := withPlacement (make_pocket insert pocket_depth) placement in
  let hole :=
    if String.eqb hole_type "Through All" then inr (make_bolt_hole insert 1000)
    else if String.eqb hole_type "Countersunk" then
      make_countersunk_hole insert hole_depth countersink_angle
    else inr (make_bolt_hole insert hole_depth) in
  match hole with
  | inl e => inl e
  | inr hole => inr [pocket; withPlacement hole placement]
  end.

Fixpoint preview_loop (insert : InsertSpec) (pocket_depth : R)
    (hole_type : string) (hole_depth countersink_angle : R)
    (normal : Vector) (centers : list Vector) : Exn + list Solid :=
  match centers with
  | [] => inr []
  | center :: rest =>
      match preview_shapes_at insert pocket_depth hole_type hole_depth
                              countersink_angle normal center with
      | inl e => inl e
      | inr two =>
          match preview_loop insert pocket_depth hole_type hole_depth
                             countersink_angle normal rest with
          | inl e => inl e
          | inr shapes => inr (two ++ shapes)
          end
      end
  end.

Definition make_preview (centers : list Vector) (base_obj : BaseShape)
    (face : Face) (dialog_data : DialogData) : Exn + Compound :=
  match dict_get INSERT_TYPES (insert_type dialog_data) with
  | inl e => inl e
  | inr insert =>
      let normal := normalAt00 face in
      let com := shape_CenterOfMass base_obj in
      let face_center := face_CenterOfMass face in
      let normal := preview_normal normal com face_center in
      match preview_loop insert (pocket_depth dialog_data) (hole_type dialog_data)
                         (hole_depth dialog_data) (countersink_angle dialog_data)
                         normal centers with
      | inl e => inl e
      | inr shapes => inr (makeCompound shapes)
      end
  end.

End Kernel.

End Synthesis.

(** ** The host: document, GUI and console

    Every call into the host is recorded as an event of the world's
    trace.  Calls on the document may raise, as the host decides; message
    boxes and console prints do not. *)

Module Host.

Definition ObjId : Type := nat.

Inductive Value : Type :=
| VInt (z : Z)
| VFloat (r : R)
| VStr (s : string)
| VObj (o : ObjId)
| VSupport (o : ObjId) (subname : string)   (* [(obj, face_name)] *)
| VPropOf (o : ObjId) (prop : string)       (* the value another object holds *)
| VPlacement (p : Placement)
| VShape (c : Synthesis.Compound)
| VColor (r g b : R).

Inductive Event : Type :=
| AddObject (type_id name : string) (id : ObjId)   (* doc.addObject(type, name) *)
| RemoveObject (name : string)                      (* doc.removeObject(name) *)
| SetProp (o : ObjId) (prop : string) (v : Value)   (* o.prop = v *)
| AddGeometry (sketch : ObjId) (g : Geometry)       (* sketch.addGeometry(g, False) *)
| BodyAddObject (body o : ObjId)                    (* body.addObject(o) *)
| Recompute                                         (* doc.recompute() *)
| SetEdit (o : ObjId)                               (* Gui.ActiveDocument.setEdit(o.Name) *)
| ImportDXF (path : string)                         (* importDXF.open(path) *)
| MsgWarning (title text : string)
| MsgCritical (title text : string)
| MsgQuestion (title text : string)
| PrintError (s : string)
| PrintMessage (s : string)
| PrintTraceback.

(** A call that creates, changes or removes something of the document. *)
Definition mutates_document (ev : Event) : bool :=
  match ev with
  | AddObject _ _ _ | RemoveObject _ | SetProp _ _ _ | AddGeometry _ _
  | BodyAddObject _ _ | Recompute | ImportDXF _ => true
  | _ => false
  end.

(** What the host answers, given the calls made so far. *)
Record Oracle : Type := mkOracle {
  raises : list Event -> Event -> option Exn;
  reply_yes : list Event -> bool;                     (* a question box answered Yes *)
  placement_of : list Event -> ObjId -> Placement;    (* o.Placement *)
  geometry_of : list Event -> ObjId -> list Geometry; (* sketch.Geometry *)
  shape_of : list Event -> ObjId -> Synthesis.BaseShape; (* o.Shape *)
  import_dxf : list Event -> string -> Dxf.ImportResult;
  is_file : string -> bool;                           (* os.path.isfile *)
  in_edit : list Event -> bool;                       (* getInEdit() is not None *)
  Rotation_from_to : Vector -> Vector -> Rotation     (* App.Rotation(v1, v2) *) }.

(** The slots a timer of the workflow is connected to. *)
Inductive Slot : Type := NoSlot | SlotStartPolling | SlotCheckSketchClosed.

Record QTimer : Type := mkQTimer {
  isActive : bool;
  singleShot : bool;
  interval : Z;
  slot : Slot }.

Record World : Type := mkWorld {
  trace : list Event;
  next_obj : ObjId;
  ACTIVE_WORKFLOWS : list nat;   (* the instances of [_ACTIVE_WORKFLOWS], by identity *)
  next_instance : nat;
  timers : list QTimer }.

Definition M (A : Type) : Type := World -> World * (Exn + A).

Definition ret {A : Type} (a : A) : M A := fun w => (w, inr a).

Definition bind {A B : Type} (m : M A) (k : A -> M B) : M B :=
  fun w => match m w with
           | (w', inr a) => k a w'
           | (w', inl e) => (w', inl e)
           end.

Definition raise {A : Type} (e : Exn) : M A := fun w => (w, inl e).

(** [try: m except Exception as e: handler e] *)
Definition try_except {A : Type} (m : M A) (handler : Exn -> M A) : M A :=
  fun w => match m w with
           | (w', inl e) => handler e w'
           | r => r
           end.

(** [try: m finally: f] *)
Definition try_finally {A : Type} (m : M A) (f : M unit) : M A :=
  fun w => match m w with
           | (w', r) => match f w' with
                        | (w'', inr _) => (w'', r)
                        | (w'', inl e) => (w'', inl e)
                        end
           end.

Definition lift {A : Type} (r : Exn + A) : M A := fun w => (w, r).

Declare Scope host_scope.
Delimit Scope host_scope with host.
Notation "x <- m ;; k" := (bind m (fun x => k))
  (at level 100, m at next level, right associativity) : host_scope.
Notation "m ;; k" := (bind m (fun _ => k))
  (at level 100, right associativity) : host_scope.
Open Scope host_scope.

Definition log (ev : Event) (w : World) : World :=
  mkWorld (trace w ++ [ev]) (next_obj w) (ACTIVE_WORKFLOWS w) (next_instance w) (timers w).

(** [for x in l: f x] *)
Fixpoint for_each {A : Type} (l : list A) (f : A -> M unit) : M unit :=
  match l with
  | [] => ret tt
  | x :: rest => f x ;; for_each rest f
  end.

(** [enumerate(l)], counting from [i]. *)
Fixpoint enumerate_from {A : Type} (i : nat) (l : list A) : list (nat * A) :=
  match l with
  | [] => []
  | x :: rest => (i, x) :: enumerate_from (S i) rest
  end.

Definition str_of_nat (n : nat) : string := NilEmpty.string_of_uint (Nat.to_uint n).

Definition nl : string := String "010"%char EmptyString.

Section WithOracle.

Variable host : Oracle.

(** A call on the document: recorded, then raising if the host says so. *)
Definition call (ev : Event) : M unit :=
  fun w => match raises host (trace w) ev with
           | Some e => (log ev w, inl e)
           | None => (log ev w, inr tt)
           end.

(** A message box or a console print. *)
Definition tell (ev : Event) : M unit := fun w => (log ev w, inr tt).

Definition addObject (type_id name : string) : M ObjId :=
  fun w =>
    let id := next_obj w in
    let w1 := mkWorld (trace w) (S id) (ACTIVE_WORKFLOWS w) (next_instance w) (timers w) in
    match call (AddObject type_id name id) w1 with
    | (w2, inr _) => (w2, inr id)
    | (w2, inl e) => (w2, inl e)
    end.

Definition question (title text : string) : M bool :=
  fun w => let w1 := log (MsgQuestion title text) w in
           (w1, inr (reply_yes host (trace w1))).

Definition get_placement (o : ObjId) : M Placement :=
  fun w => (w, inr (placement_of host (trace w) o)).

Definition get_geometry (o : ObjId) : M (list Geometry) :=
  fun w => (w, inr (geometry_of host (trace w) o)).

Definition get_shape (o : ObjId) : M Synthesis.BaseShape :=
  fun w => (w, inr (shape_of host (trace w) o)).

(** The loop of [get_face_subname] over [enumerate(obj.Shape.Faces)]. *)
Fixpoint find_face (i : nat) (faces : list nat) (face : nat) : Exn + string :=
  match faces with
  | [] => inl "Selected face not found in object"%string
  | f :: rest =>
      if Nat.eqb f face then inr ("Face" ++ str_of_nat (i + 1))%string
      else find_face (S i) rest face
  end.

Definition get_face_subname (obj : ObjId) (face : Synthesis.Face) : M string :=
  shape <- get_shape obj ;;
  lift (find_face 0 (Synthesis.shape_Faces shape) (Synthesis.face_id face)).

End WithOracle.

End Host.

(** ** The command and the sketch workflow *)

Module Workbench.

Import Host.
Open Scope host_scope.
Open Scope string_scope.

Section WithOracle.

Variable host : Oracle.

Local Abbreviation call := (Host.call host).
Local Abbreviation addObject := (Host.addObject host).

(** The attachment of a new sketch, as [create_partdesign_pocket] does it
    for the nut sketch and again for the bolt sketch. *)
Definition attach_sketch (new_sketch body : ObjId) (base_face : Synthesis.Face)
    (sketch : option ObjId) : M unit :=
  match sketch with
  | Some user_sketch =>
      call (SetProp new_sketch "AttachmentSupport" (VPropOf user_sketch "AttachmentSupport")) ;;
      call (SetProp new_sketch "MapMode" (VPropOf user_sketch "MapMode")) ;;
      p <- get_placement host user_sketch ;;
      call (SetProp new_sketch "Placement" (VPlacement p))
  | None =>
      face_name <- get_face_subname host body base_face ;;
      call (SetProp new_sketch "AttachmentSupport" (VSupport body face_name)) ;;
      call (SetProp new_sketch "MapMode" (VStr "FlatFace"))
  end.

(** One edge of the hexagon, [i = 0..5]. *)
Definition hex_edge (local_center : Vector) (r : R) (i : Z) : Geometry :=
  let ang1 := radians (60 * IZR i + 30) in
  let ang2 := radians (60 * (IZR i + 1) + 30) in
  let p1 := mkVector (vx local_center + r * cos ang1) (vy local_center + r * sin ang1) 0 in
  let p2 := mkVector (vx local_center + r * cos ang2) (vy local_center + r * sin ang2) 0 in
  LineSegment (mkVector (vx p1) (vy p1) 0) (mkVector (vx p2) (vy p2) 0).

Definition rect_points (local_center : Vector) (w h clearance : R) : list Vector :=
  [ mkVector (vx local_center - w / 2 - clearance) (vy local_center - h / 2 - clearance) 0;
    mkVector (vx local_center + w / 2 + clearance) (vy local_center - h / 2 - clearance) 0;
    mkVector (vx local_center + w / 2 + clearance) (vy local_center + h / 2 + clearance) 0;
    mkVector (vx local_center - w / 2 - clearance) (vy local_center + h / 2 + clearance) 0;
    mkVector (vx local_center - w / 2 - clearance) (vy local_center - h / 2 - clearance) 0 ].

(** The profile drawn into the nut sketch. *)
Definition nut_profile (insert : InsertSpec) (local_center : Vector) : list Geometry :=
  let style := pocket_style insert in
  if String.eqb style "hex" then
    let w := fst (nut insert) in
    let outer := w + 1 in
    let r := outer / 2 in
    map (hex_edge local_center r) (range 6)
  else if String.eqb style "rect" then
    let (w, h) := nut insert in
    let clearance := 5 / 10 in
    let pts := rect_points local_center w h clearance in
    map (fun i => LineSegment (nth i pts (mkVector 0 0 0))
                              (nth (i + 1) pts (mkVector 0 0 0)))
        (seq 0 4)
  else
    let d := match pocket_diameter insert with
             | Some d => d
             | None => fst (nut insert) + 2 / 10
             end in
    [Circle (mkVector (vx local_center) (vy local_center) 0) (mkVector 0 0 1) (d / 2)].

(** The last branch of [create_partdesign_pocket]: the type and length of
    the bolt hole. *)
Definition set_hole_type (bolt_hole : ObjId) (hole_type : string) (hole_depth : R)
  : M unit :=
  if String.eqb hole_type "Through All" then
    call (SetProp bolt_hole "Type" (VInt 1))
  else if String.eqb hole_type "Countersunk" then
    tell (MsgWarning "Countersink Not Supported"
            ("PartDesign Pockets do not support countersinks." ++ nl ++ "Using blind hole.")) ;;
    call (SetProp bolt_hole "Type" (VInt 0)) ;;
    call (SetProp bolt_hole "Length" (VFloat hole_depth))
  else
    call (SetProp bolt_hole "Type" (VInt 0)) ;;
    call (SetProp bolt_hole "Length" (VFloat hole_depth)).

(** Step 1 of [create_partdesign_pocket]: the nut sketch and its pocket. *)
Definition create_nut_pocket (body : ObjId) (base_face : Synthesis.Face)
    (center : Vector) (insert : InsertSpec) (pocket_depth : R)
    (sketch : option ObjId) : M ObjId :=
  nut_sketch <- addObject "Sketcher::SketchObject" "CaptiveNut_Nut" ;;
  attach_sketch nut_sketch body base_face sketch ;;
  call Recompute ;;
  nut_placement <- get_placement host nut_sketch ;;
  let local_center := multVec (inverse nut_placement) center in
  for_each (nut_profile insert local_center)
           (fun g => call (AddGeometry nut_sketch g)) ;;
  call Recompute ;;
  nut_pocket <- addObject "PartDesign::Pocket" "CaptiveNut_NutPocket" ;;
  call (SetProp nut_pocket "Profile" (VObj nut_sketch)) ;;
  call (SetProp nut_pocket "Midplane" (VInt 0)) ;;
  call (SetProp nut_pocket "Reversed" (VInt 0)) ;;
  call (SetProp nut_pocket "Type" (VInt 0)) ;;
  call (SetProp nut_pocket "Length" (VFloat pocket_depth)) ;;
  call (BodyAddObject body nut_sketch) ;;
  call (BodyAddObject body nut_pocket) ;;
  call Recompute ;;
  ret nut_pocket.

(** The sketch of the bolt hole, with its circle. *)
Definition create_bolt_sketch (body : ObjId) (base_face : Synthesis.Face)
    (center : Vector) (insert : InsertSpec) (sketch : option ObjId) : M ObjId :=
  bolt_sketch <- addObject "Sketcher::SketchObject" "CaptiveNut_Bolt" ;;
  attach_sketch bolt_sketch body base_face sketch ;;
  call Recompute ;;
  bolt_placement <- get_placement host bolt_sketch ;;
  let bolt_center := multVec (inverse bolt_placement) center in
  let bolt_r := bolt_clearance insert / 2 in
  call (AddGeometry bolt_sketch
          (Circle (mkVector (vx bolt_center) (vy bolt_center) 0) (mkVector 0 0 1) bolt_r)) ;;
  call Recompute ;;
  ret bolt_sketch.

(** Step 2 of [create_partdesign_pocket]: the bolt sketch and its hole. *)
Definition create_bolt_hole (body : ObjId) (base_face : Synthesis.Face)
    (center : Vector) (insert : InsertSpec) (hole_type : string) (hole_depth : R)
    (sketch : option ObjId) : M ObjId :=
  bolt_sketch <- create_bolt_sketch body base_face center insert sketch ;;
  bolt_hole <- addObject "PartDesign::Pocket" "CaptiveNut_BoltHole" ;;
  call (SetProp bolt_hole "Profile" (VObj bolt_sketch)) ;;
  call (SetProp bolt_hole "Midplane" (VInt 0)) ;;
  call (SetProp bolt_hole "Reversed" (VInt 0)) ;;
  set_hole_type bolt_hole hole_type hole_depth ;;
  call (BodyAddObject body bolt_sketch) ;;
  call (BodyAddObject body bolt_hole) ;;
  call Recompute ;;
  ret bolt_hole.

Definition create_partdesign_pocket (body : ObjId) (base_face : Synthesis.Face)
    (center : Vector) (insert : InsertSpec) (pocket_depth : R) (hole_type : string)
    (hole_depth countersink_angle : R) (sketch : option ObjId) : M (ObjId * ObjId) :=
  nut_pocket <- create_nut_pocket body base_face center insert pocket_depth sketch ;;
  bolt_hole <- create_bolt_hole body base_face center insert hole_type hole_depth sketch ;;
  ret (nut_pocket, bolt_hole).

Definition failed_pocket (i : nat) (e : Exn) : string :=
  "Failed pocket #" ++ str_of_nat (i + 1) ++ ": " ++ e ++ nl.

(** The [try] block of the commit loop, for one point. *)
Definition pocket_attempt (body : ObjId) (face : Synthesis.Face)
    (dialog_data : DialogData) (sketch : option ObjId) (center : Vector) : M unit :=
  insert <- lift (dict_get INSERT_TYPES (insert_type dialog_data)) ;;
  create_partdesign_pocket body face center insert
    (pocket_depth dialog_data) (hole_type dialog_data) (hole_depth dialog_data)
    (countersink_angle dialog_data) sketch ;;
  ret tt.

(** The body of the commit loop for the point of index [i]: the [try]
    with its [except Exception]. *)
Definition commit_point (body : ObjId) (face : Synthesis.Face)
    (dialog_data : DialogData) (sketch : option ObjId) (i : nat) (center : Vector)
  : M unit :=
  try_except
    (pocket_attempt body face dialog_data sketch center)
    (fun e => tell (PrintError (failed_pocket i e))).

(** The loop over [enumerate(centers)], from the index [i] on. *)
Definition commit_from (body : ObjId) (face : Synthesis.Face)
    (dialog_data : DialogData) (sketch : option ObjId) (i : nat)
    (centers : list Vector) : M unit :=
  for_each (enumerate_from i centers)
           (fun ic => commit_point body face dialog_data sketch (fst ic) (snd ic)).

(** [for i, center in enumerate(centers): try: ... except ...], the loop
    of the body path in [Activated] ([sketch = None]) and in
    [on_sketch_finished] (the user's sketch). *)
Definition commit_points (body : ObjId) (face : Synthesis.Face)
    (dialog_data : DialogData) (sketch : option ObjId) (centers : list Vector)
  : M unit :=
  commit_from body face dialog_data sketch 0 centers.


(** *** Timers ([QtCore.QTimer]) and the registry of active workflows *)

Definition set_timers (ts : list QTimer) (w : World) : World :=
  mkWorld (trace w) (next_obj w) (ACTIVE_WORKFLOWS w) (next_instance w) ts.

Definition set_registry (reg : list nat) (w : World) : World :=
  mkWorld (trace w) (next_obj w) reg (next_instance w) (timers w).

Fixpoint update_nth {A : Type} (n : nat) (f : A -> A) (l : list A) : list A :=
  match l, n with
  | [], _ => []
  | x :: rest, O => f x :: rest
  | x :: rest, S n' => x :: update_nth n' f rest
  end.

(** [QtCore.QTimer()]: a new timer, not running. *)
Definition new_timer : M nat :=
  fun w => (set_timers (timers w ++ [mkQTimer false false 0 NoSlot])%list w,
            inr (List.length (timers w))).

Definition timer_update (t : nat) (f : QTimer -> QTimer) : M unit :=
  fun w => (set_timers (update_nth t f (timers w)) w, inr tt).

Definition setSingleShot (t : nat) (b : bool) : M unit :=
  timer_update t (fun q => mkQTimer (isActive q) b (interval q) (slot q)).

Definition connect (t : nat) (s : Slot) : M unit :=
  timer_update t (fun q => mkQTimer (isActive q) (singleShot q) (interval q) s).

Definition timer_start (t : nat) (msec : Z) : M unit :=
  timer_update t (fun q => mkQTimer true (singleShot q) msec (slot q)).

Definition timer_stop (t : nat) : M unit :=
  timer_update t (fun q => mkQTimer false (singleShot q) (interval q) (slot q)).

Definition timer_isActive (t : nat) : M bool :=
  fun w => (w, inr (match nth_error (timers w) t with
                    | Some q => isActive q
                    | None => false
                    end)).

(** [list.remove(x)]: the first occurrence goes. *)
Fixpoint remove_first (x : nat) (l : list nat) : list nat :=
  match l with
  | [] => []
  | y :: rest => if Nat.eqb y x then rest else y :: remove_first x rest
  end.

(** An instance of [CaptiveNutSketchWorkflow]; [instance] is its identity.
    The attribute [sketch_name], which nothing reads, is left out. *)
Record Workflow : Type := mkWorkflow {
  instance : nat;
  wf_base_obj : ObjId;
  wf_face : Synthesis.Face;
  wf_body : option ObjId;
  wf_dialog_data : DialogData;
  wf_is_partdesign : bool;
  wf_sketch : option ObjId;
  wf_timer : option nat }.

Definition with_sketch_timer (self : Workflow) (sketch : option ObjId)
    (timer : option nat) : Workflow :=
  mkWorkflow (instance self) (wf_base_obj self) (wf_face self) (wf_body self)
             (wf_dialog_data self) (wf_is_partdesign self) sketch timer.

(** The body of the workflow; a workflow built for a body always has one. *)
Definition the_body (self : Workflow) : M ObjId :=
  match wf_body self with
  | Some b => ret b
  | None => raise "'NoneType' object has no attribute 'addObject'"
  end.

Definition the_sketch (self : Workflow) : M ObjId :=
  match wf_sketch self with
  | Some s => ret s
  | None => raise "'NoneType' object has no attribute 'Geometry'"
  end.

Definition setup_sketch (self : Workflow) : M Workflow :=
  sketch <- addObject "Sketcher::SketchObject" "CaptiveNut_UserSketch" ;;
  face_name <- get_face_subname host (wf_base_obj self) (wf_face self) ;;
  call (SetProp sketch "AttachmentSupport" (VSupport (wf_base_obj self) face_name)) ;;
  call (SetProp sketch "MapMode" (VStr "FlatFace")) ;;
  call Recompute ;;
  (if wf_is_partdesign self then
     body <- the_body self ;; call (BodyAddObject body sketch)
   else ret tt) ;;
  call (SetEdit sketch) ;;
  timer <- new_timer ;;
  setSingleShot timer true ;;
  connect timer SlotStartPolling ;;
  timer_start timer 1500 ;;
  ret (with_sketch_timer self (Some sketch) (Some timer)).

(** [CaptiveNutSketchWorkflow.__init__] *)
Definition new_workflow (base_obj : ObjId) (face : Synthesis.Face)
    (body : option ObjId) (dialog_data : DialogData) (is_partdesign : bool)
  : M Workflow :=
  fun w =>
    let id := next_instance w in
    let w1 := mkWorld (trace w) (next_obj w) (ACTIVE_WORKFLOWS w) (S id) (timers w) in
    (self <- setup_sketch
               (mkWorkflow id base_obj face body dialog_data is_partdesign None None) ;;
     (fun w2 => (set_registry (ACTIVE_WORKFLOWS w2 ++ [instance self])%list w2, inr tt)) ;;
     ret self) w1.

Definition start_polling (self : Workflow) : M Workflow :=
  timer <- new_timer ;;
  connect timer SlotCheckSketchClosed ;;
  timer_start timer 1000 ;;
  ret (with_sketch_timer self (wf_sketch self) (Some timer)).

Definition cleanup (self : Workflow) : M unit :=
  (fun w =>
     if existsb (Nat.eqb (instance self)) (ACTIVE_WORKFLOWS w) then
       (set_registry (remove_first (instance self) (ACTIVE_WORKFLOWS w)) w, inr tt)
     else (w, inr tt)) ;;
  match wf_timer self with
  | Some timer =>
      active <- timer_isActive timer ;;
      if active then timer_stop timer else ret tt
  | None => ret tt
  end.

(** *** Point sources of [Activated] *)

(** The [try] block of the "Pattern Generator" branch. *)
Definition pattern_centers (dialog_data : DialogData) : Exn + list Vector :=
  match Pattern.parse_base (base_point dialog_data) with
  | None => inl "invalid base point"
  | Some base =>
      let count := count dialog_data in
      if String.eqb (pattern_type dialog_data) "Linear" then
        inr (Pattern.linear_centers base (linear_spacing dialog_data) count)
      else
        inr (Pattern.polar_centers base (polar_radius dialog_data)
                                   (polar_angle dialog_data) count)
  end.

(** [importDXF.open(dxf_path)] *)
Definition importDXF_open (dxf_path : string) : M Dxf.ImportResult :=
  fun w => (log (ImportDXF dxf_path) w, inr (import_dxf host (trace w) dxf_path)).

Definition extract_centers_from_dxf (dxf_path layer_filter : string) : M (list Vector) :=
  r <- importDXF_open dxf_path ;;
  match r with
  | Dxf.ImportRaises e =>
      tell (PrintError ("DXF processing error: " ++ e ++ nl)) ;; ret []
  | Dxf.ImportNothing => ret []
  | Dxf.ImportRoot name dxf_obj =>
      let centers := Dxf.traverse layer_filter dxf_obj in
      try_except (call (RemoveObject name))
                 (fun e => tell (PrintError ("DXF processing error: " ++ e ++ nl))) ;;
      ret centers
  end.

(** The preview object of the boolean path. *)
Definition add_preview (preview : Synthesis.Compound) : M ObjId :=
  preview_obj <- addObject "Part::Feature" "CaptiveNut_Preview" ;;
  call (SetProp preview_obj "Shape" (VShape preview)) ;;
  call (SetProp preview_obj "ViewObject.Transparency" (VInt 70)) ;;
  call (SetProp preview_obj "ViewObject.ShapeColor" (VColor 0 (8 / 10) 1)) ;;
  call Recompute ;;
  ret preview_obj.

Definition add_cut (base_obj preview_obj : ObjId) : M unit :=
  cut_obj <- addObject "Part::Cut" "CaptiveNut_Cut" ;;
  call (SetProp cut_obj "Base" (VObj base_obj)) ;;
  call (SetProp cut_obj "Tool" (VObj preview_obj)) ;;
  call Recompute.

(** [Activated], from [if not centers:] to its end.  [is_partdesign] is
    [body is not None].  A compound is never false, so the [return] after
    [make_preview] is never taken. *)
Definition Activated_with_centers (obj : ObjId) (face : Synthesis.Face)
    (body : option ObjId) (dialog_data : DialogData) (centers : list Vector) : M unit :=
  match centers with
  | [] => tell (MsgWarning "No Centers" "No placement points found.")
  | _ :: _ =>
      let n := str_of_nat (List.length centers) in
      match body with
      | Some body =>
          if auto_boolean dialog_data then
            reply <- question host "Create Pockets in Body?"
                       ("Add " ++ n ++ " captive nut pockets directly into the PartDesign Body?") ;;
            if reply then
              commit_points body face dialog_data None centers ;;
              tell (PrintMessage ("‚úÖ " ++ n ++ " pockets added to Body." ++ nl))
            else ret tt
          else
            tell (PrintMessage ("‚ÑπÔ∏è Ready to create " ++ n
                                ++ " pockets in Body (auto-create disabled)." ++ nl))
      | None =>
          base_shape <- get_shape host obj ;;
          preview <- lift (Synthesis.make_preview (Rotation_from_to host) centers
                             base_shape face dialog_data) ;;
          preview_obj <- add_preview preview ;;
          if auto_boolean dialog_data then
            reply <- question host "Confirm Boolean Cut"
                       ("Place " ++ n ++ " inserts and cut from body?" ++ nl
                        ++ "(Preview shown in cyan)") ;;
            if reply then
              try_except
                (add_cut obj preview_obj ;;
                 tell (PrintMessage ("‚úÖ " ++ n ++ " inserts placed and cut." ++ nl)))
                (fun e => tell (MsgCritical "Boolean Failed" e))
            else ret tt
          else
            tell (PrintMessage ("‚ÑπÔ∏è Preview created. Use Boolean Cut manually if desired." ++ nl))
      end
  end.

(** *** The sketch workflow, once the sketch is closed *)

(** The [try] block of [on_sketch_finished]. *)
Definition process_sketch (self : Workflow) : M unit :=
  sketch <- the_sketch self ;;
  geometry <- get_geometry host sketch ;;
  placement <- get_placement host sketch ;;
  let centers := SketchPoints.extract_centers_from_sketch
                   (SketchPoints.mkSketch geometry placement) in
  let dialog_data := wf_dialog_data self in
  match centers with
  | [] => tell (MsgWarning "No Circles" "No circles found in sketch.")
  | _ :: _ =>
      let n := str_of_nat (List.length centers) in
      if wf_is_partdesign self then
        if auto_boolean dialog_data then
          reply <- question host "Create Pockets?"
                     ("Add " ++ n ++ " pockets to Body from sketch?") ;;
          if reply then
            body <- the_body self ;;
            commit_points body (wf_face self) dialog_data (Some sketch) centers ;;
            tell (PrintMessage ("‚úÖ " ++ n ++ " pockets added." ++ nl))
          else ret tt
        else tell (PrintMessage ("‚ÑπÔ∏è Sketch processed. Auto-create disabled." ++ nl))
      else
        base_shape <- get_shape host (wf_base_obj self) ;;
        preview <- lift (Synthesis.make_preview (Rotation_from_to host) centers
                           base_shape (wf_face self) dialog_data) ;;
        preview_obj <- add_preview preview ;;
        if auto_boolean dialog_data then
          reply <- question host "Confirm Boolean Cut"
                     ("Cut " ++ n ++ " inserts from solid?") ;;
          if reply then
            add_cut (wf_base_obj self) preview_obj ;;
            tell (PrintMessage ("‚úÖ Boolean cut performed." ++ nl))
          else ret tt
        else tell (PrintMessage ("‚ÑπÔ∏è Preview created from sketch." ++ nl))
  end.

Definition on_sketch_finished (self : Workflow) : M unit :=
  try_finally
    (try_except
       (process_sketch self)
       (fun e =>
          tell (PrintError ("Sketch processing error: " ++ e ++ nl)) ;;
          tell PrintTraceback))
    (cleanup self).

Definition check_sketch_closed (self : Workflow) : M unit :=
  fun w =>
    if in_edit host (trace w) then (w, inr tt)
    else
      (match wf_timer self with
       | Some timer => timer_stop timer
       | None => raise "'NoneType' object has no attribute 'stop'"
       end ;;
       cleanup self ;;
       on_sketch_finished self) w.

(** The event loop delivers the timeout of the workflow's timer: a
    single-shot timer stops, then the connected slot runs. *)
Definition timer_timeout (self : Workflow) : M Workflow :=
  match wf_timer self with
  | None => ret self
  | Some timer =>
      fun w =>
        match nth_error (timers w) timer with
        | Some q =>
            if isActive q then
              ((if singleShot q then timer_stop timer else ret tt) ;;
               match slot q with
               | SlotStartPolling => start_polling self
               | SlotCheckSketchClosed => check_sketch_closed self ;; ret self
               | NoSlot => ret self
               end) w
            else (w, inr self)
        | None => (w, inr self)
        end
  end.

(** *** [Activated], from the accepted dialog on *)

Definition Activated (obj : ObjId) (face : Synthesis.Face) (body : option ObjId)
    (dialog_data : DialogData) : M unit :=
  let is_partdesign := match body with Some _ => true | None => false end in
  if String.eqb (mode dialog_data) "Sketch Circles" then
    tell (PrintMessage ("üëâ Please sketch circles and close the sketch." ++ nl)) ;;
    new_workflow obj face body dialog_data is_partdesign ;;
    ret tt
  else if String.eqb (mode dialog_data) "Import DXF" then
    let dxf_path := dxf_file dialog_data in
    if String.eqb dxf_path EmptyString || negb (is_file host dxf_path) then
      tell (MsgCritical "Error" "Invalid DXF file.")
    else
      centers <- extract_centers_from_dxf dxf_path (dxf_layer dialog_data) ;;
      Activated_with_centers obj face body dialog_data centers
  else if String.eqb (mode dialog_data) "Pattern Generator" then
    match pattern_centers dialog_data with
    | inl e => tell (MsgCritical "Error" ("Invalid pattern input:" ++ nl ++ e))
    | inr centers => Activated_with_centers obj face body dialog_data centers
    end
  else Activated_with_centers obj face body dialog_data [].

End WithOracle.

End Workbench.

(** ** The body of the selection ([get_partdesign_body]) *)

Module BodyLookup.

(** What the walk reads of a document object: its type and, where it has
    the attribute, the list [InList] of the objects that hold it. *)
Record DocNode : Type := mkDocNode {
  TypeId : string;
  InList : option (list nat) }.

(** The [while] loop of [get_partdesign_body], for at most [fuel] rounds:
    [None] when the rounds are used up, else what the function returns
    ([Some None] for Python's [None]). *)
Fixpoint get_partdesign_body (fuel : nat) (doc : nat -> DocNode) (current : nat)
  : option (option nat) :=
  match fuel with
  | O => None
  | S fuel' =>
      if String.eqb (TypeId (doc current)) "PartDesign::Body" then Some (Some current)
      else
        match InList (doc current) with
        | Some (parent :: _) => get_partdesign_body fuel' doc parent
        | _ => Some None
        end
  end.

End BodyLookup.

(** ** The dialog: presets and the layers of a drawing *)

Module Dialog.

Import Host.
Open Scope host_scope.
Open Scope string_scope.

(** The values of a preset file. *)
Inductive JValue : Type :=
| JStr (s : string)
| JFloat (r : R)
| JInt (z : Z)
| JBool (b : bool).

(** What [save_preset] reads of the widgets. *)
Record Widgets : Type := mkWidgets {
  mode_combo : string;
  type_combo : string;
  w_pocket_depth : R;
  w_hole_type : string;
  w_hole_depth : R;
  w_countersink_angle : R;
  w_auto_boolean : bool;
  w_pattern_type : string;
  w_base_point : string;
  count_spin : Z;
  w_linear_spacing : R;
  w_polar_radius : R;
  w_polar_angle : R;
  w_dxf_file : string }.

(** The dictionary [preset] of [save_preset]. *)
Definition preset_of (d : Widgets) : list (string * JValue) :=
  [ ("mode", JStr (mode_combo d));
    ("insert_type", JStr (type_combo d));
    ("pocket_depth", JFloat (w_pocket_depth d));
    ("hole_type", JStr (w_hole_type d));
    ("hole_depth", JFloat (w_hole_depth d));
    ("countersink_angle", JFloat (w_countersink_angle d));
    ("auto_boolean", JBool (w_auto_boolean d));
    ("pattern_type", JStr (w_pattern_type d));
    ("base_point", JStr (w_base_point d));
    ("count", JInt (count_spin d));
    ("linear_spacing", JFloat (w_linear_spacing d));
    ("polar_radius", JFloat (w_polar_radius d));
    ("polar_angle", JFloat (w_polar_angle d));
    ("dxf_file", JStr (w_dxf_file d)) ].

(** [preset.get(key, default)] *)
Fixpoint preset_get (preset : list (string * JValue)) (key : string) (default : JValue)
  : JValue :=
  match preset with
  | [] => default
  | (k, v) :: rest => if String.eqb k key then v else preset_get rest key default
  end.

(** The values that [load_preset] hands to the setters of the widgets, in
    the order of its calls. *)
Record Loaded : Type := mkLoaded {
  l_mode : JValue;
  l_insert_type : JValue;
  l_pocket_depth : JValue;
  l_hole_type : JValue;
  l_hole_depth : JValue;
  l_countersink_angle : JValue;
  l_auto_boolean : JValue;
  l_pattern_type : JValue;
  l_base_point : JValue;
  l_count : JValue;
  l_linear_spacing : JValue;
  l_polar_radius : JValue;
  l_polar_angle : JValue;
  l_dxf_file : JValue }.

Definition load_preset_values (preset : list (string * JValue)) : Loaded :=
  mkLoaded
    (preset_get preset "mode" (JStr "Sketch Circles"))
    (preset_get preset "insert_type" (JStr "M3 Captive Nut"))
    (preset_get preset "pocket_depth" (JInt 6))
    (preset_get preset "hole_type" (JStr "Through All"))
    (preset_get preset "hole_depth" (JInt 20))
    (preset_get preset "countersink_angle" (JInt 90))
    (preset_get preset "auto_boolean" (JBool true))
    (preset_get preset "pattern_type" (JStr "Linear"))
    (preset_get preset "base_point" (JStr "0,0,0"))
    (preset_get preset "count" (JInt 3))
    (preset_get preset "linear_spacing" (JInt 20))
    (preset_get preset "polar_radius" (JInt 30))
    (preset_get preset "polar_angle" (JInt 30))
    (preset_get preset "dxf_file" (JStr EmptyString)).

(** [layers.add(x)] on a set, kept as a list without repetition. *)
Definition set_add (x : string) (layers : list string) : list string :=
  if existsb (String.eqb x) layers then layers else x :: layers.

(** The inner function [collect_layers] of [update_dxf_layers]; a proxy's
    layer, where it has one, is a string. *)
Fixpoint collect_layers (obj : Dxf.DocObject) (layers : list string) : list string :=
  match obj with
  | Dxf.mkDocObject proxy _ outlist =>
      let layers :=
        match proxy with
        | Some (Some layer) => set_add layer layers
        | _ => layers
        end in
      (fix children (l : list Dxf.DocObject) (layers : list string) : list string :=
         match l with
         | [] => layers
         | child :: rest => children rest (collect_layers child layers)
         end) outlist layers
  end.

(** [sorted(layers)], by insertion; strings compare by their characters. *)
Fixpoint insert_sorted (x : string) (l : list string) : list string :=
  match l with
  | [] => [x]
  | y :: rest => if String.leb x y then x :: y :: rest else y :: insert_sorted x rest
  end.

Definition sorted (l : list string) : list string :=
  fold_right insert_sorted [] l.

Section WithOracle.

Variable host : Oracle.

(** [update_dxf_layers]; the result is the list of the items of
    [dxf_layer_combo] after the call. *)
Definition update_dxf_layers (dxf_path : string) : M (list string) :=
  if String.eqb dxf_path EmptyString || negb (is_file host dxf_path) then ret []
  else
    try_except
      (r <- Workbench.importDXF_open host dxf_path ;;
       match r with
       | Dxf.ImportRaises e => raise e
       | Dxf.ImportNothing => ret ["All"]
       | Dxf.ImportRoot name obj =>
           let layers := collect_layers obj [] in
           call host (RemoveObject name) ;;
           ret (match layers with
                | [] => ["All"]
                | _ :: _ => sorted layers
                end)
       end)
      (fun e =>
         tell (PrintError ("Could not read DXF layers: " ++ e ++ nl)) ;;
         ret ["All"]).

End WithOracle.

End Dialog.

(** * Reference definitions

    The notions that the properties below are stated with: what the
    specification names, written independently of the code above;
    predicates on the programs of the host; and sample inputs. *)

(** The centers of the circular primitives of a sketch, in the order of its
    geometry: full circles and arcs of circles. *)
Definition circular_centers (geos : list Geometry) : list Vector :=
  flat_map (fun g => match g with
                     | Circle c _ _ => [c]
                     | ArcOfCircle c _ _ _ => [c]
                     | _ => []
                     end) geos.

(** The centers of the circular edges of a shape, in the order of its
    edges: the edges whose curve is a full circle or an arc of a circle.
    An object without shape has none. *)
Definition circular_edge_centers (shape : option (list Dxf.Edge)) : list Vector :=
  match shape with
  | Some edges => circular_centers (map Dxf.Curve edges)
  | None => []
  end.

(** The world position of a center of the sketch plane. *)
Definition to_world (p : Placement) (c : Vector) : Vector :=
  multVec p (mkVector (vx c) (vy c) 0).

(** A node passes the layer filter when it has no proxy, when the filter
    is "All", or when its proxy's layer is the filter. *)
Definition passes (layer_filter : string) (proxy : option (option string)) : bool :=
  match proxy with
  | None => true
  | Some None => String.eqb layer_filter "All"
  | Some (Some l) => String.eqb layer_filter "All" || String.eqb l layer_filter
  end.

(** The traversal in the specification's words: every node's own curves are
    filtered by the node's own layer tag, and the children are visited
    whatever the node's tag is. *)
Fixpoint per_node_traverse (layer_filter : string) (obj : Dxf.DocObject) : list Vector :=
  match obj with
  | Dxf.mkDocObject proxy shape outlist =>
      let own_tag := match proxy with Some (Some l) => Some l | _ => None end in
      let matches :=
        String.eqb layer_filter "All"
        || match own_tag with Some l => String.eqb l layer_filter | None => false end in
      (if matches then circular_edge_centers shape else []) ++
      (fix children (l : list Dxf.DocObject) : list Vector :=
         match l with
         | [] => []
         | child :: rest => per_node_traverse layer_filter child ++ children rest
         end) outlist
  end.

(** A drawing whose root group is on layer "A" and holds one circle that
    is on layer "B". *)
Definition nested_layers : Dxf.DocObject :=
  Dxf.mkDocObject (Some (Some "A"%string)) None
    [Dxf.mkDocObject (Some (Some "B"%string))
       (Some [Dxf.mkEdge (Circle (mkVector 1 2 0) (mkVector 0 0 1) 3)]) []].

(** A drawing whose root has no proxy and holds a circle on layer "B" and,
    beside it, a circle that has no proxy and so no layer tag at all. *)
Definition untagged_sibling : Dxf.DocObject :=
  Dxf.mkDocObject None None
    [Dxf.mkDocObject (Some (Some "B"%string))
       (Some [Dxf.mkEdge (Circle (mkVector 1 2 0) (mkVector 0 0 1) 3)]) [];
     Dxf.mkDocObject None
       (Some [Dxf.mkEdge (Circle (mkVector 7 7 0) (mkVector 0 0 1) 1)]) []].

(** A box whose top face, at height 10, is selected: the face normal is
    +Z and the center of mass of the body lies below the face. *)
Definition top_face : Synthesis.Face :=
  Synthesis.mkFace 0 (mkVector 0 0 1) (mkVector 0 0 10).

Definition box_shape : Synthesis.BaseShape :=
  Synthesis.mkBaseShape (mkVector 0 0 5) [0%nat].

(** The dialog's defaults, with the pattern generator selected. *)
Definition default_dialog : DialogData :=
  mkDialogData "Pattern Generator" "M3 Captive Nut" 6 "Through All" 20 90 true
               "Linear" [Some 0; Some 0; Some 10] 3 20 30 30 EmptyString "All".

(** A stand-in for the kernel's rotation; its last row keeps the target. *)
Definition sample_rotation (src dst : Vector) : Rotation :=
  mkRotation (mkVector 1 0 0) (mkVector 0 1 0) dst.

Definition M3_Captive_Nut : InsertSpec :=
  mkInsert (55/10, 24/10) (35/10) "hex" None None.

(** The part of the world that calls on the document leave alone: the
    registry of workflows, the identities given out, and the timers. *)
Definition same_workflows (w w' : Host.World) : Prop :=
  Host.ACTIVE_WORKFLOWS w' = Host.ACTIVE_WORKFLOWS w /\
  Host.next_instance w' = Host.next_instance w /\
  Host.timers w' = Host.timers w.

(** A program emits only events of [Q]: whatever its outcome, it leaves
    the earlier trace in place, appends events that satisfy [Q], and
    leaves the workflows alone. *)
Definition emits {A : Type} (Q : Host.Event -> Prop) (m : Host.M A) : Prop :=
  forall w w' r, m w = (w', r) ->
    same_workflows w w' /\
    exists evs, Host.trace w' = Host.trace w ++ evs /\ Forall Q evs.

(** The events that settle the type of a bolt hole, as requested: through
    all; blind of the given depth; and, for a countersunk request, the
    warning followed by blind of the given depth. *)
Definition through_all_events (bolt_hole : Host.ObjId) : list Host.Event :=
  [Host.SetProp bolt_hole "Type" (Host.VInt 1)].

Definition blind_events (bolt_hole : Host.ObjId) (hole_depth : R) : list Host.Event :=
  [Host.SetProp bolt_hole "Type" (Host.VInt 0);
   Host.SetProp bolt_hole "Length" (Host.VFloat hole_depth)].

Definition countersink_warning : Host.Event :=
  Host.MsgWarning "Countersink Not Supported"
    ("PartDesign Pockets do not support countersinks." ++ Host.nl ++ "Using blind hole.")%string.

(** A host on which no call raises: the user answers Yes, sketches are
    placed by the identity, the edited sketch is empty and closed, and the
    base object is the box. *)
Definition quiet_host : Host.Oracle :=
  Host.mkOracle
    (fun _ _ => None)
    (fun _ => true)
    (fun _ _ => mkPlacement (mkVector 0 0 0)
                  (mkRotation (mkVector 1 0 0) (mkVector 0 1 0) (mkVector 0 0 1)))
    (fun _ _ => [])
    (fun _ _ => box_shape)
    (fun _ _ => Dxf.ImportNothing)
    (fun _ => false)
    (fun _ => false)
    sample_rotation.

(** A document that holds the base object, of identifier 0, and nothing of
    the workbench. *)
Definition initial_world : Host.World := Host.mkWorld [] 1%nat [] 0%nat [].

(** The first call of an attempt on a point: the creation of the nut
    sketch. *)
Definition is_nut_sketch_creation (ev : Host.Event) : bool :=
  match ev with
  | Host.AddObject type_id name _ =>
      String.eqb type_id "Sketcher::SketchObject" && String.eqb name "CaptiveNut_Nut"
  | _ => false
  end.

(** A program starts with the event [first w], made in any case, and then
    emits only events of [Q]. *)
Definition starts_with {A : Type} (first : Host.World -> Host.Event)
    (Q : Host.Event -> Prop) (m : Host.M A) : Prop :=
  forall w w' r, m w = (w', r) ->
    same_workflows w w' /\
    exists evs, Host.trace w' = Host.trace w ++ first w :: evs /\ Forall Q evs.

(** The decimal numeral of a natural number. *)
Definition decimal (n : nat) : string := NilEmpty.string_of_uint (Nat.to_uint n).

(** The line that reports the failure [e] of the attempt on the point of
    index [i]: it names the point by its number, counted from 1. *)
Definition failure_report (i : nat) (e : string) : string :=
  ("Failed pocket #" ++ decimal (S i) ++ ": " ++ e ++ String "010" EmptyString)%string.

(** A string of decimal digits. *)
Definition is_digit (c : ascii) : bool :=
  (48 <=? nat_of_ascii c)%nat && (nat_of_ascii c <=? 57)%nat.

Fixpoint all_digits (s : string) : bool :=
  match s with
  | EmptyString => true
  | String c rest => is_digit c && all_digits rest
  end.

(** A host on which the creation of the object number 6 raises, and nothing
    else does: the second point of a commit fails at its nut pocket. *)
Definition host_failing_later : Host.Oracle :=
  Host.mkOracle
    (fun _ ev => match ev with
                 | Host.AddObject _ _ 6 => Some "Cannot create object"%string
                 | _ => None
                 end)
    (fun _ => true)
    (fun _ _ => mkPlacement (mkVector 0 0 0)
                  (mkRotation (mkVector 1 0 0) (mkVector 0 1 0) (mkVector 0 0 1)))
    (fun _ _ => [])
    (fun _ _ => box_shape)
    (fun _ _ => Dxf.ImportNothing)
    (fun _ => false)
    (fun _ => false)
    sample_rotation.

(** Three points on the top face. *)
Definition three_points : list Vector :=
  [mkVector 0 0 10; mkVector 20 0 10; mkVector 40 0 10].

(** The timer that the workflow holds is not running. *)
Definition timer_stopped (self : Workbench.Workflow) (w : Host.World) : Prop :=
  match Workbench.wf_timer self with
  | Some t =>
      match nth_error (Host.timers w) t with
      | Some q => Host.isActive q = false
      | None => True
      end
  | None => True
  end.

(** The dialog's defaults, with the sketch source selected. *)
Definition sketch_dialog : DialogData :=
  mkDialogData "Sketch Circles" "M3 Captive Nut" 6 "Through All" 20 90 true
               "Linear" [Some 0; Some 0; Some 10] 3 20 30 30 EmptyString "All".

(** The registry once an instance has cleaned up: its first entry, if
    any, is gone. *)
Definition registry_after_cleanup (self : Workbench.Workflow) (reg : list nat)
  : list nat :=
  if existsb (Nat.eqb (Workbench.instance self)) reg
  then Workbench.remove_first (Workbench.instance self) reg
  else reg.

(** The registry is in order: no instance is registered twice, and every
    registered identity has been given out. *)
Definition registry_ok (w : Host.World) : Prop :=
  NoDup (Host.ACTIVE_WORKFLOWS w) /\
  Forall (fun i => (i < Host.next_instance w)%nat) (Host.ACTIVE_WORKFLOWS w).

(** The workflow that [Activated] builds on the quiet host for the sketch
    source: instance 0, on the sketch 1, with the timer 0. *)
Definition first_workflow : Workbench.Workflow :=
  Workbench.mkWorkflow 0%nat 0%nat top_face None sketch_dialog false
                       (Some 1%nat) (Some 0%nat).

(** The first of the objects that hold [o], and the ancestor of [o] after
    [k] such steps. *)
Definition first_parent (doc : nat -> BodyLookup.DocNode) (o : nat) : option nat :=
  match BodyLookup.InList (doc o) with
  | Some (parent :: _) => Some parent
  | _ => None
  end.

Fixpoint ancestor (doc : nat -> BodyLookup.DocNode) (k : nat) (o : nat) : option nat :=
  match k with
  | O => Some o
  | S k' =>
      match first_parent doc o with
      | Some parent => ancestor doc k' parent
      | None => None
      end
  end.

Definition is_body (doc : nat -> BodyLookup.DocNode) (o : nat) : bool :=
  String.eqb (BodyLookup.TypeId (doc o)) "PartDesign::Body".

(** A document of three objects: a pad (2) in a body (1) in a part (0). *)
Definition sample_doc (o : nat) : BodyLookup.DocNode :=
  match o with
  | 2%nat => BodyLookup.mkDocNode "PartDesign::Pad" (Some [1%nat])
  | 1%nat => BodyLookup.mkDocNode "PartDesign::Body" (Some [0%nat])
  | _ => BodyLookup.mkDocNode "App::Part" (Some [])
  end.

(** The nodes of a drawing, parents before children, in the order of
    [OutList]. *)
Fixpoint all_nodes (obj : Dxf.DocObject) : list Dxf.DocObject :=
  match obj with
  | Dxf.mkDocObject _ _ outlist =>
      obj :: (fix children (l : list Dxf.DocObject) : list Dxf.DocObject :=
                match l with
                | [] => []
                | child :: rest => all_nodes child ++ children rest
                end) outlist
  end.

(** The events of the import of a drawing. *)
Definition is_import_event (ev : Host.Event) : Prop :=
  match ev with
  | Host.ImportDXF _ | Host.RemoveObject _ | Host.PrintError _ => True
  | _ => False
  end.

(** A drawing whose root has no proxy and holds a circle on layer "B" and
    a circle on layer "A". *)
Definition grouped_drawing : Dxf.DocObject :=
  Dxf.mkDocObject None None
    [Dxf.mkDocObject (Some (Some "B"%string))
       (Some [Dxf.mkEdge (Circle (mkVector 1 2 0) (mkVector 0 0 1) 3)]) [];
     Dxf.mkDocObject (Some (Some "A"%string))
       (Some [Dxf.mkEdge (Circle (mkVector 7 7 0) (mkVector 0 0 1) 1)]) []].

(** The outline through the points [pts], moved to the center [c] of the
    sketch plane: one segment for every two consecutive points. *)
Definition outline_at (c : Vector) (pts : list Vector) : list Geometry :=
  let move p := mkVector (vx c + vx p) (vy c + vy p) 0 in
  map (fun pq => LineSegment (move (fst pq)) (move (snd pq))) (combine pts (tl pts)).

(** The solids of a preview for one hole solid: at every center the pocket
    and then the hole, both placed at the center and turned towards
    [normal]. *)
Definition placed_pairs (rot : Vector -> Vector -> Rotation) (pocket hole : Synthesis.Solid)
    (normal : Vector) (centers : list Vector) : list Synthesis.Solid :=
  flat_map (fun center =>
              let placement := mkPlacement center (rot (mkVector 0 0 1) normal) in
              [Synthesis.withPlacement pocket placement;
               Synthesis.withPlacement hole placement]) centers.

(** The events of the making of the preview object. *)
Definition is_preview_event (ev : Host.Event) : Prop :=
  match ev with
  | Host.AddObject type_id name _ =>
      type_id = "Part::Feature"%string /\ name = "CaptiveNut_Preview"%string
  | Host.SetProp _ _ _ | Host.Recompute => True
  | _ => False
  end.

(** An event that is not the creation of a cut. *)
Definition not_a_cut (ev : Host.Event) : Prop :=
  match ev with
  | Host.AddObject type_id _ _ => type_id <> "Part::Cut"%string
  | _ => True
  end.

(** The quiet host with a user who answers No. *)
Definition host_saying_no : Host.Oracle :=
  Host.mkOracle
    (Host.raises quiet_host) (fun _ => false) (Host.placement_of quiet_host)
    (Host.geometry_of quiet_host) (Host.shape_of quiet_host)
    (Host.import_dxf quiet_host) (Host.is_file quiet_host) (Host.in_edit quiet_host)
    (Host.Rotation_from_to quiet_host).

(** A host on which the object has no face, so that no face name is found. *)
Definition host_without_faces : Host.Oracle :=
  Host.mkOracle
    (Host.raises quiet_host) (Host.reply_yes quiet_host) (Host.placement_of quiet_host)
    (Host.geometry_of quiet_host)
    (fun _ _ => Synthesis.mkBaseShape (mkVector 0 0 5) [])
    (Host.import_dxf quiet_host) (Host.is_file quiet_host) (Host.in_edit quiet_host)
    (Host.Rotation_from_to quiet_host).

(** The quiet host while the user still edits the sketch. *)
Definition host_still_editing : Host.Oracle :=
  Host.mkOracle
    (Host.raises quiet_host) (Host.reply_yes quiet_host) (Host.placement_of quiet_host)
    (Host.geometry_of quiet_host) (Host.shape_of quiet_host)
    (Host.import_dxf quiet_host) (Host.is_file quiet_host) (fun _ => true)
    (Host.Rotation_from_to quiet_host).

(** A call that removes no object of the document. *)
Definition not_a_removal (ev : Host.Event) : Prop :=
  match ev with
  | Host.RemoveObject _ => False
  | _ => True
  end.

(** A program that, where it raises, has left the workflows alone and has
    made only calls of [Q]. *)
Definition fails_clean {A : Type} (Q : Host.Event -> Prop) (m : Host.M A) : Prop :=
  forall w w' e, m w = (w', inl e) ->
    same_workflows w w' /\
    exists evs, Host.trace w' = Host.trace w ++ evs /\ Forall Q evs.

(** The drawing has a node whose proxy is on the layer [l]. *)
Definition has_layer (obj : Dxf.DocObject) (l : string) : Prop :=
  exists node, In node (all_nodes obj) /\ Dxf.Proxy node = Some (Some l).

(** The values of the widgets, as a preset file holds them. *)
Definition stored (d : Dialog.Widgets) : Dialog.Loaded :=
  Dialog.mkLoaded
    (Dialog.JStr (Dialog.mode_combo d)) (Dialog.JStr (Dialog.type_combo d))
    (Dialog.JFloat (Dialog.w_pocket_depth d)) (Dialog.JStr (Dialog.w_hole_type d))
    (Dialog.JFloat (Dialog.w_hole_depth d)) (Dialog.JFloat (Dialog.w_countersink_angle d))
    (Dialog.JBool (Dialog.w_auto_boolean d)) (Dialog.JStr (Dialog.w_pattern_type d))
    (Dialog.JStr (Dialog.w_base_point d)) (Dialog.JInt (Dialog.count_spin d))
    (Dialog.JFloat (Dialog.w_linear_spacing d)) (Dialog.JFloat (Dialog.w_polar_radius d))
    (Dialog.JFloat (Dialog.w_polar_angle d)) (Dialog.JStr (Dialog.w_dxf_file d)).

(** A host that has the file "plate.dxf", whose import gives the grouped
    drawing under the name "plate". *)
Definition host_with_drawing : Host.Oracle :=
  Host.mkOracle
    (Host.raises quiet_host) (Host.reply_yes quiet_host) (Host.placement_of quiet_host)
    (Host.geometry_of quiet_host) (Host.shape_of quiet_host)
    (fun _ _ => Dxf.ImportRoot "plate" grouped_drawing)
    (fun _ => true) (Host.in_edit quiet_host)
    (Host.Rotation_from_to quiet_host).

(** A solid that starts in the plane [z = 0] of its own frame, around the
    Z axis or on a polygon of that plane, and reaches along -Z to the depth
    [depth] and no further: a polygon of the plane extruded by
    [(0, 0, -depth)], or a cylinder of the height [depth] from the origin
    along [(0, 0, -1)]. *)
Definition cut_down_from_face (s : Synthesis.Solid) (depth : R) : Prop :=
  match s with
  | Synthesis.extrudePolygonFace pts dir =>
      Forall (fun p => vz p = 0) pts /\ dir = mkVector 0 0 (- depth)
  | Synthesis.makeCylinder _ height base dir =>
      base = mkVector 0 0 0 /\ dir = mkVector 0 0 (-1) /\ height = depth
  | _ => False
  end.

(** The dialog's defaults with an insert type that is not in the table. *)
Definition unknown_insert_dialog : DialogData :=
  mkDialogData "Pattern Generator" "M8 Captive Nut" 6 "Through All" 20 90 true
               "Linear" [Some 0; Some 0; Some 10] 3 20 30 30 EmptyString "All".

(** [i] is the first position of the face among the faces of a shape. *)
Definition first_position (faces : list nat) (face : nat) (i : nat) : Prop :=
  nth_error faces i = Some face /\
  forall j, (j < i)%nat -> nth_error faces j <> Some face.

(** The sketch [new_sketch] lies flat on the face of the body that is at
    the position [i], counted from 0; the face is named from 1. *)
Definition attached_to_face (new_sketch body : Host.ObjId) (i : nat)
  : list Host.Event :=
  [Host.SetProp new_sketch "AttachmentSupport"
     (Host.VSupport body ("Face" ++ decimal (S i))%string);
   Host.SetProp new_sketch "MapMode" (Host.VStr "FlatFace")].

(** The calls [attach] are the attachment of the sketch [new_sketch], made
    after the calls [before].  With a sketch of the user, the new sketch
    takes over its support and its map mode, and then the placement that
    the user's sketch has at that moment; without one, it is laid flat on
    the selected face of the body, found among the faces of the body. *)
Definition attachment (host : Host.Oracle) (new_sketch body : Host.ObjId)
    (face : Synthesis.Face) (sketch : option Host.ObjId)
    (before attach : list Host.Event) : Prop :=
  match sketch with
  | Some user_sketch =>
      let taken :=
        [Host.SetProp new_sketch "AttachmentSupport"
           (Host.VPropOf user_sketch "AttachmentSupport");
         Host.SetProp new_sketch "MapMode" (Host.VPropOf user_sketch "MapMode")] in
      attach =
        taken ++ [Host.SetProp new_sketch "Placement"
                    (Host.VPlacement
                       (Host.placement_of host (before ++ taken) user_sketch))]
  | None =>
      exists i,
        first_position (Synthesis.shape_Faces (Host.shape_of host before body))
                       (Synthesis.face_id face) i /\
        attach = attached_to_face new_sketch body i
  end.

(** The quiet host, with one circle in every sketch. *)
Definition host_with_circle : Host.Oracle :=
  Host.mkOracle
    (Host.raises quiet_host) (Host.reply_yes quiet_host) (Host.placement_of quiet_host)
    (fun _ _ => [Circle (mkVector 1 2 0) (mkVector 0 0 1) 3])
    (Host.shape_of quiet_host)
    (Host.import_dxf quiet_host) (Host.is_file quiet_host) (Host.in_edit quiet_host)
    (Host.Rotation_from_to quiet_host).

(** The sketch source with an insert type that is not in the table, and
    the workflow that [Activated] builds for it on a solid without body:
    instance 0, on the sketch 1, with the timer 0. *)
Definition unknown_insert_sketch_dialog : DialogData :=
  mkDialogData "Sketch Circles" "M8 Captive Nut" 6 "Through All" 20 90 true
               "Linear" [Some 0; Some 0; Some 10] 3 20 30 30 EmptyString "All".

Definition unknown_insert_workflow : Workbench.Workflow :=
  Workbench.mkWorkflow 0%nat 0%nat top_face None unknown_insert_sketch_dialog false
                       (Some 1%nat) (Some 0%nat).

(** * Properties *)

Close Scope string_scope.

(** ** Pattern generator *)

Lemma range_length (n : Z) : List.length (range n) = Z.to_nat n.
Proof. unfold range. now rewrite length_map, length_seq. Qed.

Lemma range_nth_error (n : Z) (i : nat) :
  (i < Z.to_nat n)%nat -> nth_error (range n) i = Some (Z.of_nat i).
Proof.
  intros Hi. unfold range.
  rewrite nth_error_map, nth_error_seq.
  destruct (Nat.ltb_spec i (Z.to_nat n)); [reflexivity | lia].
Qed.

Lemma vector_eq (a b : Vector) :
  vx a = vx b -> vy a = vy b -> vz a = vz b -> a = b.
Proof. destruct a, b; simpl; intros; subst; reflexivity. Qed.

Lemma polar_point_formula (base : Vector) (r a : R) (i : Z) :
  Pattern.polar_point base r a i =
  vadd base (mkVector (r * cos (radians (IZR i * a)))
                      (r * sin (radians (IZR i * a))) 0).
Proof. apply vector_eq; simpl; ring. Qed.

Lemma radians_90 : radians 90 = PI / 2.
Proof. unfold radians. field. Qed.

Lemma radians_180 : radians 180 = PI.
Proof. unfold radians. field. Qed.

Lemma radians_270 : radians 270 = 3 * (PI / 2).
Proof. unfold radians. field. Qed.

Lemma radians_0 : radians 0 = 0.
Proof. unfold radians. ring. Qed.

Example linear_pattern_three :
  Pattern.linear_centers (mkVector 0 0 0) 20 3 =
  [mkVector 0 0 0; mkVector 20 0 0; mkVector 40 0 0].
Proof.
  unfold Pattern.linear_centers, range. simpl map.
  repeat (f_equal; try (apply vector_eq; simpl; ring)).
Qed.

(** C7: the polar pattern has exactly [n] points, the point of index [i]
    is [base + (r cos(radians(i a)), r sin(radians(i a)), 0)], the point
    of index 0 is [base + (r, 0, 0)], and base (0,0,0), radius 30, step 90
    degrees, count 4 give (30,0,0), (0,30,0), (-30,0,0), (0,-30,0). *)
Theorem polar_pattern_points (base : Vector) (r a : R) (n : Z) :
  (1 <= n)%Z ->
  List.length (Pattern.polar_centers base r a n) = Z.to_nat n /\
  (forall i : nat, (i < Z.to_nat n)%nat ->
     nth_error (Pattern.polar_centers base r a n) i =
     Some (vadd base (mkVector (r * cos (radians (INR i * a)))
                               (r * sin (radians (INR i * a))) 0))) /\
  nth_error (Pattern.polar_centers base r a n) 0 = Some (vadd base (mkVector r 0 0)) /\
  Pattern.polar_centers (mkVector 0 0 0) 30 90 4 =
    [mkVector 30 0 0; mkVector 0 30 0; mkVector (-30) 0 0; mkVector 0 (-30) 0].
Proof.
  intros Hn. unfold Pattern.polar_centers.
  assert (Hnth : forall i : nat, (i < Z.to_nat n)%nat ->
     nth_error (map (Pattern.polar_point base r a) (range n)) i =
     Some (vadd base (mkVector (r * cos (radians (INR i * a)))
                               (r * sin (radians (INR i * a))) 0))).
  { intros i Hi. rewrite nth_error_map, (range_nth_error n i Hi). simpl.
    now rewrite polar_point_formula, <- INR_IZR_INZ. }
  split; [now rewrite length_map, range_length|].
  split; [exact Hnth|].
  split.
  - rewrite (Hnth 0%nat) by lia. f_equal. simpl INR.
    replace (radians (0 * a)) with 0 by (unfold radians; ring).
    rewrite cos_0, sin_0. apply vector_eq; simpl; ring.
  - unfold range. simpl map. unfold Pattern.polar_point. simpl vx. simpl vy. simpl vz.
    replace (IZR 0 * 90) with 0 by ring.
    replace (IZR 1 * 90) with 90 by ring.
    replace (IZR 2 * 90) with 180 by ring.
    replace (IZR 3 * 90) with 270 by ring.
    rewrite radians_0, radians_90, radians_180, radians_270.
    rewrite cos_0, sin_0, cos_PI2, sin_PI2, cos_PI, sin_PI, cos_3PI2, sin_3PI2.
    repeat (f_equal; try (apply vector_eq; simpl; ring)).
Qed.

Lemma polar_pattern_points_witness :
  (1 <= 4)%Z /\
  List.length (Pattern.polar_centers (mkVector 1 2 3) 30 90 4) = Z.to_nat 4.
Proof.
  split; [lia|].
  apply (polar_pattern_points (mkVector 1 2 3) 30 90 4). lia.
Defined.

(** ** Centers of a sketch *)

Lemma multiply_toMatrix (p : Placement) (v : Vector) :
  multiply (toMatrix p) v = multVec p v.
Proof. apply vector_eq; unfold multVec, rot_apply, vdot; simpl; ring. Qed.

Lemma local_centers_circular (geos : list Geometry) :
  SketchPoints.local_centers geos =
  map (fun c => mkVector (vx c) (vy c) 0) (circular_centers geos).
Proof.
  induction geos as [|g rest IH]; [reflexivity|].
  destruct g; simpl; rewrite IH; reflexivity.
Qed.

Lemma local_centers_app (l1 l2 : list Geometry) :
  SketchPoints.local_centers (l1 ++ l2) =
  SketchPoints.local_centers l1 ++ SketchPoints.local_centers l2.
Proof.
  rewrite !local_centers_circular. unfold circular_centers.
  now rewrite flat_map_app, map_app.
Qed.

Lemma extract_centers_map (sketch : SketchPoints.Sketch) :
  SketchPoints.extract_centers_from_sketch sketch =
  map (fun c => multiply (toMatrix (SketchPoints.sk_Placement sketch)) c)
      (SketchPoints.local_centers (SketchPoints.sk_Geometry sketch)).
Proof.
  unfold SketchPoints.extract_centers_from_sketch.
  destruct (SketchPoints.local_centers (SketchPoints.sk_Geometry sketch)); reflexivity.
Qed.

(** C8: the points extracted from a sketch are exactly the world-space
    centers of its circular primitives, in order; a circle contributes its
    center whatever its radius (zero included), and a primitive without a
    radius contributes nothing. *)
Theorem sketch_centers_are_circle_centers (geos : list Geometry) (p : Placement) :
  SketchPoints.extract_centers_from_sketch (SketchPoints.mkSketch geos p) =
    map (to_world p) (circular_centers geos) /\
  (forall pre post c axis r,
     geos = pre ++ Circle c axis r :: post ->
     SketchPoints.extract_centers_from_sketch (SketchPoints.mkSketch geos p) =
       SketchPoints.extract_centers_from_sketch (SketchPoints.mkSketch pre p)
       ++ to_world p c
       :: SketchPoints.extract_centers_from_sketch (SketchPoints.mkSketch post p)) /\
  (forall pre post g,
     geos = pre ++ g :: post -> attr_Radius g = None ->
     SketchPoints.extract_centers_from_sketch (SketchPoints.mkSketch geos p) =
       SketchPoints.extract_centers_from_sketch (SketchPoints.mkSketch (pre ++ post) p)).
Proof.
  split; [|split].
  - rewrite extract_centers_map, local_centers_circular, map_map. simpl.
    apply map_ext. intros c. now rewrite multiply_toMatrix.
  - intros pre post c axis r ->. rewrite !extract_centers_map. simpl.
    rewrite local_centers_app, map_app. simpl.
    now rewrite multiply_toMatrix.
  - intros pre post g -> Hg. rewrite !extract_centers_map. simpl.
    rewrite !local_centers_app. simpl.
    now rewrite Hg.
Qed.

Lemma sketch_centers_are_circle_centers_witness :
  let p := mkPlacement (mkVector 5 0 0)
             (mkRotation (mkVector 1 0 0) (mkVector 0 1 0) (mkVector 0 0 1)) in
  let line := LineSegment (mkVector 0 0 0) (mkVector 1 0 0) in
  let dot := Circle (mkVector 1 2 0) (mkVector 0 0 1) 0 in
  SketchPoints.extract_centers_from_sketch (SketchPoints.mkSketch [line; dot] p) =
    SketchPoints.extract_centers_from_sketch (SketchPoints.mkSketch [line] p)
    ++ to_world p (mkVector 1 2 0)
    :: SketchPoints.extract_centers_from_sketch (SketchPoints.mkSketch [] p) /\
  SketchPoints.extract_centers_from_sketch (SketchPoints.mkSketch [line; dot] p) =
    SketchPoints.extract_centers_from_sketch (SketchPoints.mkSketch ([] ++ [dot]) p).
Proof.
  intros p line dot.
  destruct (sketch_centers_are_circle_centers [line; dot] p) as (_ & Hcircle & Hother).
  split.
  - apply (Hcircle [line] [] (mkVector 1 2 0) (mkVector 0 0 1) 0). reflexivity.
  - apply (Hother [] [dot] line); reflexivity.
Defined.

(** ** Centers of an imported drawing *)

Lemma traverse_unfold (layer_filter : string) proxy shape outlist :
  Dxf.traverse layer_filter (Dxf.mkDocObject proxy shape outlist) =
  if passes layer_filter proxy
  then Dxf.shape_centers shape ++ flat_map (Dxf.traverse layer_filter) outlist
  else [].
Proof.
  assert (Hchildren : forall l,
    (fix children (l : list Dxf.DocObject) : list Vector :=
       match l with
       | [] => []
       | child :: rest => Dxf.traverse layer_filter child ++ children rest
       end) l = flat_map (Dxf.traverse layer_filter) l).
  { induction l as [|c rest IH]; [reflexivity|]. simpl flat_map. now rewrite <- IH. }
  simpl. rewrite Hchildren.
  destruct proxy as [[l|]|]; simpl;
    destruct (String.eqb layer_filter "All"); simpl; try reflexivity.
  destruct (String.eqb l layer_filter); reflexivity.
Qed.

Lemma passes_mismatch (layer_filter : string) (layer : option string) :
  layer_filter <> "All"%string -> layer <> Some layer_filter ->
  passes layer_filter (Some layer) = false.
Proof.
  intros Hall Hl. apply String.eqb_neq in Hall.
  destruct layer as [l|]; simpl; rewrite Hall; [|reflexivity].
  simpl. apply String.eqb_neq. congruence.
Qed.

Lemma passes_match (layer_filter : string) :
  passes layer_filter (Some (Some layer_filter)) = true.
Proof. simpl. rewrite String.eqb_refl. apply orb_true_r. Qed.

Lemma traverse_mismatch (layer_filter : string) layer shape outlist :
  layer_filter <> "All"%string -> layer <> Some layer_filter ->
  Dxf.traverse layer_filter (Dxf.mkDocObject (Some layer) shape outlist) = [].
Proof.
  intros Hall Hl. now rewrite traverse_unfold, passes_mismatch.
Qed.

Lemma flat_map_all_nil {A B : Type} (f : A -> list B) (l : list A) :
  Forall (fun x => f x = []) l -> flat_map f l = [].
Proof.
  induction 1 as [|x l Hx _ IH]; [reflexivity|]. simpl. now rewrite Hx, IH.
Qed.

(** What the loop over the edges collects is the centers of the circular
    edges: circles and arcs, and no other curve. *)
Lemma edge_centers_circular (edges : list Dxf.Edge) :
  Dxf.edge_centers edges = circular_centers (map Dxf.Curve edges).
Proof.
  induction edges as [|[curve] rest IH]; [reflexivity|].
  cbn [Dxf.edge_centers map circular_centers flat_map Dxf.Curve].
  fold (circular_centers (map Dxf.Curve rest)). rewrite IH.
  destruct curve; reflexivity.
Qed.

Lemma shape_centers_circular (shape : option (list Dxf.Edge)) :
  Dxf.shape_centers shape = circular_edge_centers shape.
Proof.
  destruct shape as [edges|]; [apply edge_centers_circular | reflexivity].
Qed.

(** C9: with a filter other than "All", a node without proxy is never
    filtered: the centers of its circular edges (circles and arcs, no
    other curve) are returned and then what its children return; a node
    whose proxy's layer is the filter likewise; and a node whose proxy has
    another layer or none yields nothing, its whole subtree included. *)
Theorem dxf_node_without_proxy_is_unfiltered (layer_filter : string) :
  layer_filter <> "All"%string ->
  (forall shape outlist,
     Dxf.traverse layer_filter (Dxf.mkDocObject None shape outlist) =
     circular_edge_centers shape ++ flat_map (Dxf.traverse layer_filter) outlist) /\
  (forall shape outlist,
     Dxf.traverse layer_filter (Dxf.mkDocObject (Some (Some layer_filter)) shape outlist) =
     circular_edge_centers shape ++ flat_map (Dxf.traverse layer_filter) outlist) /\
  (forall layer shape outlist,
     layer <> Some layer_filter ->
     Dxf.traverse layer_filter (Dxf.mkDocObject (Some layer) shape outlist) = []).
Proof.
  intros Hall. split; [|split].
  - intros. now rewrite traverse_unfold, shape_centers_circular.
  - intros. now rewrite traverse_unfold, passes_match, shape_centers_circular.
  - intros. now apply traverse_mismatch.
Qed.

Lemma dxf_node_without_proxy_is_unfiltered_witness :
  let c := Dxf.mkEdge (Circle (mkVector 1 2 0) (mkVector 0 0 1) 3) in
  let a := Dxf.mkEdge (ArcOfCircle (mkVector 4 5 0) 2 0 1) in
  let e := Dxf.mkEdge (Ellipse (mkVector 8 8 0) 2 1) in
  let l := Dxf.mkEdge (LineSegment (mkVector 0 0 0) (mkVector 1 0 0)) in
  let child := Dxf.mkDocObject (Some (Some "B"%string)) (Some [c]) [] in
  "B"%string <> "All"%string /\
  Dxf.traverse "B" (Dxf.mkDocObject None (Some [l; a; e; c]) [child]) =
    [mkVector 4 5 0; mkVector 1 2 0; mkVector 1 2 0] /\
  Dxf.traverse "B" (Dxf.mkDocObject (Some None) (Some [c]) [child]) = [].
Proof.
  intros c a e l child.
  assert (Hall : "B"%string <> "All"%string) by discriminate.
  destruct (dxf_node_without_proxy_is_unfiltered "B" Hall) as (Hnone & _ & Hother).
  split; [exact Hall|]. split.
  - exact (Hnone (Some [l; a; e; c]) [child]).
  - apply Hother. discriminate.
Defined.

(** Induction on a drawing, with the hypothesis on all children. *)
Lemma DocObject_induction (P : Dxf.DocObject -> Prop) :
  (forall proxy shape outlist, Forall P outlist ->
     P (Dxf.mkDocObject proxy shape outlist)) ->
  forall obj, P obj.
Proof.
  intros Hnode. fix IH 1. intros [proxy shape outlist].
  apply Hnode. induction outlist as [|child rest IHrest]; constructor.
  - apply IH.
  - exact IHrest.
Qed.

Lemma per_node_traverse_unfold (layer_filter : string) proxy shape outlist :
  per_node_traverse layer_filter (Dxf.mkDocObject proxy shape outlist) =
  (if String.eqb layer_filter "All"
      || match proxy with
         | Some (Some l) => String.eqb l layer_filter
         | _ => false
         end
   then circular_edge_centers shape else [])
  ++ flat_map (per_node_traverse layer_filter) outlist.
Proof.
  assert (Hchildren : forall l,
    (fix children (l : list Dxf.DocObject) : list Vector :=
       match l with
       | [] => []
       | child :: rest => per_node_traverse layer_filter child ++ children rest
       end) l = flat_map (per_node_traverse layer_filter) l).
  { induction l as [|c rest IH]; [reflexivity|]. cbn [flat_map]. now rewrite <- IH. }
  cbn [per_node_traverse]. rewrite Hchildren.
  destruct proxy as [[l|]|]; reflexivity.
Qed.

(** Without a layer filter the two readings agree: every circular edge of
    the drawing is returned, depth first. *)
Lemma traverse_all_is_per_node (obj : Dxf.DocObject) :
  Dxf.traverse "All" obj = per_node_traverse "All" obj.
Proof.
  induction obj as [proxy shape outlist IH] using DocObject_induction.
  rewrite traverse_unfold, per_node_traverse_unfold, shape_centers_circular.
  replace (passes "All" proxy) with true by (now destruct proxy as [[l|]|]).
  cbn [String.eqb Ascii.eqb Bool.eqb orb]. f_equal.
  induction IH as [|child rest Hchild _ IHrest]; [reflexivity|].
  cbn [flat_map]. now rewrite Hchild, IHrest.
Qed.

(** C1, as stated, fails twice.  With the filter "B", the circle on layer
    "B" below a group on layer "A" is returned by the per-node reading and
    is not returned by the code: a mismatch prunes the children too.  And
    beside a leaf on layer "B", a sibling without proxy, which has no layer
    tag, contributes nothing in the per-node reading and is returned by the
    code. *)
Lemma dxf_per_node_filtering_counterexample :
  (per_node_traverse "B" nested_layers = [mkVector 1 2 0] /\
   Dxf.traverse "B" nested_layers = [] /\
   Dxf.traverse "B" nested_layers <> per_node_traverse "B" nested_layers) /\
  (per_node_traverse "B" untagged_sibling = [mkVector 1 2 0] /\
   Dxf.traverse "B" untagged_sibling = [mkVector 1 2 0; mkVector 7 7 0] /\
   Dxf.traverse "B" untagged_sibling <> per_node_traverse "B" untagged_sibling).
Proof.
  assert (Hspec : per_node_traverse "B" nested_layers = [mkVector 1 2 0]) by reflexivity.
  assert (Hcode : Dxf.traverse "B" nested_layers = []) by reflexivity.
  assert (Hspec' : per_node_traverse "B" untagged_sibling = [mkVector 1 2 0])
    by reflexivity.
  assert (Hcode' : Dxf.traverse "B" untagged_sibling = [mkVector 1 2 0; mkVector 7 7 0])
    by reflexivity.
  rewrite Hspec, Hcode, Hspec', Hcode'. repeat split; discriminate.
Qed.

(** C1, amended: a node that does not pass the filter yields nothing, its
    subtree included, even where a descendant carries the filter's layer;
    a node that passes (it has no proxy, or its proxy's layer is the
    filter) yields the centers of its own circular edges, circles and arcs
    and no other curve, then what its children yield, depth first; and
    below a passing root whose other children have a proxy with another
    layer or none, a leaf on the filter's layer yields exactly the centers
    of its circular edges. *)
Theorem dxf_filter_prunes_subtree (layer_filter : string) :
  layer_filter <> "All"%string ->
  (forall layer shape outlist,
     layer <> Some layer_filter ->
     Dxf.traverse layer_filter (Dxf.mkDocObject (Some layer) shape outlist) = []) /\
  (forall proxy shape outlist,
     passes layer_filter proxy = true ->
     Dxf.traverse layer_filter (Dxf.mkDocObject proxy shape outlist) =
     circular_edge_centers shape ++ flat_map (Dxf.traverse layer_filter) outlist) /\
  (forall proxy shape before after leaf_shape,
     passes layer_filter proxy = true ->
     Forall (fun o => exists layer, Dxf.Proxy o = Some layer /\ layer <> Some layer_filter)
            (before ++ after) ->
     Dxf.traverse layer_filter
       (Dxf.mkDocObject proxy shape
          (before ++ Dxf.mkDocObject (Some (Some layer_filter)) leaf_shape [] :: after)) =
     circular_edge_centers shape ++ circular_edge_centers leaf_shape).
Proof.
  intros Hall. split; [|split].
  - intros. now apply traverse_mismatch.
  - intros proxy shape outlist Hp.
    now rewrite traverse_unfold, Hp, shape_centers_circular.
  - intros proxy shape before after leaf_shape Hp Hsib.
    rewrite traverse_unfold, Hp, <- !shape_centers_circular. f_equal.
    apply Forall_app in Hsib. destruct Hsib as [Hb Ha].
    assert (Hnil : forall l,
      Forall (fun o => exists layer, Dxf.Proxy o = Some layer /\ layer <> Some layer_filter) l ->
      flat_map (Dxf.traverse layer_filter) l = []).
    { intros l Hl. apply flat_map_all_nil.
      eapply Forall_impl; [|exact Hl].
      intros [p s ol] (layer & Hproxy & Hne). simpl in Hproxy. subst p.
      now apply traverse_mismatch. }
    rewrite flat_map_app. cbn [flat_map].
    rewrite (Hnil before Hb), (Hnil after Ha).
    rewrite traverse_unfold, passes_match. cbn [flat_map app].
    now rewrite !app_nil_r.
Qed.

Lemma dxf_filter_prunes_subtree_witness :
  let c := Dxf.mkEdge (Circle (mkVector 1 2 0) (mkVector 0 0 1) 3) in
  let d := Dxf.mkEdge (Circle (mkVector 7 7 0) (mkVector 0 0 1) 1) in
  let e := Dxf.mkEdge (Ellipse (mkVector 8 8 0) 2 1) in
  let a := Dxf.mkEdge (ArcOfCircle (mkVector 4 5 0) 2 0 1) in
  let other := Dxf.mkDocObject (Some (Some "A"%string)) (Some [d]) [] in
  let untagged := Dxf.mkDocObject (Some None) (Some [d]) [] in
  "B"%string <> "All"%string /\
  Dxf.traverse "B"
    (Dxf.mkDocObject None (Some [a])
       ([other] ++ Dxf.mkDocObject (Some (Some "B"%string)) (Some [e; c]) []
        :: [untagged])) =
  [mkVector 4 5 0; mkVector 1 2 0].
Proof.
  intros c d e a other untagged.
  assert (Hall : "B"%string <> "All"%string) by discriminate.
  split; [exact Hall|].
  destruct (dxf_filter_prunes_subtree "B" Hall) as (_ & _ & Hleaf).
  apply (Hleaf None (Some [a]) [other] [untagged] (Some [e; c])); [reflexivity|].
  repeat constructor.
  - exists (Some "A"%string). split; [reflexivity | discriminate].
  - exists None. split; [reflexivity | discriminate].
Defined.

(** ** Orientation of the preview solids *)

Lemma preview_normal_flipped (normal com face_center : Vector) :
  0 < vdot normal (vsub face_center com) ->
  Synthesis.preview_normal normal com face_center = vscale normal (-1).
Proof.
  intros H. unfold Synthesis.preview_normal.
  destruct (Rlt_dec 0 (vdot normal (vsub face_center com))); [reflexivity | contradiction].
Qed.

Lemma preview_loop_placements rot insert pd ht hd ca normal centers shapes :
  Synthesis.preview_loop rot insert pd ht hd ca normal centers = inr shapes ->
  Forall (fun s => exists s0 c,
            In c centers /\
            s = Synthesis.withPlacement s0
                  (mkPlacement c (rot (mkVector 0 0 1) normal))) shapes.
Proof.
  revert shapes. induction centers as [|c rest IH]; intros shapes H; simpl in H.
  - injection H as <-. constructor.
  - unfold Synthesis.preview_shapes_at in H.
    destruct (if String.eqb ht "Through All"
              then inr (Synthesis.make_bolt_hole insert 1000)
              else if String.eqb ht "Countersunk"
                   then Synthesis.make_countersunk_hole insert hd ca
                   else inr (Synthesis.make_bolt_hole insert hd)) as [e|hole];
      [discriminate|].
    destruct (Synthesis.preview_loop rot insert pd ht hd ca normal rest) as [e|more];
      [discriminate|].
    injection H as <-.
    repeat constructor.
    + eexists _, c. split; [now left | reflexivity].
    + eexists _, c. split; [now left | reflexivity].
    + eapply Forall_impl; [|exact (IH more eq_refl)].
      intros s (s0 & c' & Hin & ->). exists s0, c'. split; [now right | reflexivity].
Qed.

(** The normal that [make_preview] uses never points away from the center
    of mass. *)
Lemma preview_normal_never_outward (normal com face_center : Vector) :
  vdot (Synthesis.preview_normal normal com face_center) (vsub face_center com) <= 0.
Proof.
  unfold Synthesis.preview_normal.
  destruct (Rlt_dec 0 (vdot normal (vsub face_center com))) as [Hpos|Hneg].
  - replace (vdot (vscale normal (-1)) (vsub face_center com))
      with (- vdot normal (vsub face_center com))
      by (unfold vscale, vdot; simpl; ring).
    lra.
  - lra.
Qed.

(** C2, on the code: where the face normal points away from the center of
    mass of the body, [make_preview] orients every solid of the preview by
    the negated face normal, which points towards the body. *)
Theorem make_preview_orients_by_negated_outward_normal
    (rot : Vector -> Vector -> Rotation) (centers : list Vector)
    (base_obj : Synthesis.BaseShape) (face : Synthesis.Face)
    (dialog_data : DialogData) (shapes : list Synthesis.Solid) :
  let normal := Synthesis.normalAt00 face in
  let outward := vsub (Synthesis.face_CenterOfMass face)
                      (Synthesis.shape_CenterOfMass base_obj) in
  0 < vdot normal outward ->
  Synthesis.make_preview rot centers base_obj face dialog_data
    = inr (Synthesis.makeCompound shapes) ->
  vdot (vscale normal (-1)) outward < 0 /\
  Forall (fun s => exists s0 c,
            In c centers /\
            s = Synthesis.withPlacement s0
                  (mkPlacement c (rot (mkVector 0 0 1) (vscale normal (-1))))) shapes.
Proof.
  intros normal outward Hout H. split.
  - replace (vdot (vscale normal (-1)) outward) with (- vdot normal outward)
      by (unfold vscale, vdot; simpl; ring).
    lra.
  - unfold Synthesis.make_preview in H.
    destruct (dict_get INSERT_TYPES (insert_type dialog_data)) as [e|insert];
      [discriminate|].
    cbv zeta in H. unfold normal, outward in Hout.
    rewrite (preview_normal_flipped _ _ _ Hout) in H.
    match type of H with
    | match ?loop with _ => _ end = _ => destruct loop as [e|l] eqn:Hloop
    end; [discriminate|].
    injection H as <-.
    exact (preview_loop_placements _ _ _ _ _ _ _ _ _ Hloop).
Qed.

Lemma make_preview_orients_by_negated_outward_normal_witness :
  let center := mkVector 0 0 10 in
  let normal := Synthesis.preview_normal (mkVector 0 0 1) (mkVector 0 0 5) (mkVector 0 0 10) in
  let placement := mkPlacement center (sample_rotation (mkVector 0 0 1) normal) in
  let shapes :=
    [Synthesis.withPlacement (Synthesis.make_pocket M3_Captive_Nut 6) placement;
     Synthesis.withPlacement (Synthesis.make_bolt_hole M3_Captive_Nut 1000) placement] in
  0 < vdot (mkVector 0 0 1) (vsub (mkVector 0 0 10) (mkVector 0 0 5)) /\
  Synthesis.make_preview sample_rotation [center] box_shape top_face default_dialog
    = inr (Synthesis.makeCompound shapes) /\
  Forall (fun s => exists s0 c,
            In c [center] /\
            s = Synthesis.withPlacement s0
                  (mkPlacement c (sample_rotation (mkVector 0 0 1)
                                    (vscale (mkVector 0 0 1) (-1))))) shapes.
Proof.
  intros center normal placement shapes.
  assert (Hout : 0 < vdot (mkVector 0 0 1) (vsub (mkVector 0 0 10) (mkVector 0 0 5)))
    by (unfold vdot, vsub; simpl; lra).
  assert (Hrun : Synthesis.make_preview sample_rotation [center] box_shape top_face
                   default_dialog = inr (Synthesis.makeCompound shapes))
    by reflexivity.
  split; [exact Hout|]. split; [exact Hrun|].
  exact (proj2 (make_preview_orients_by_negated_outward_normal
                  sample_rotation [center] box_shape top_face default_dialog shapes
                  Hout Hrun)).
Defined.

(** ** Countersunk hole *)

Lemma half_angle_tan_nonzero (angle : R) :
  0 < angle < 180 -> 2 * tan (radians (angle / 2)) <> 0.
Proof.
  intros [Hlo Hhi].
  assert (Hpi := PI_RGT_0).
  assert (0 < tan (radians (angle / 2))).
  { apply tan_gt_0; unfold radians; nra. }
  lra.
Qed.

(** C6, as stated, fails: for the included angle 0 the division by
    [2 tan(0)] raises, and no solid is returned. *)
Lemma countersunk_hole_zero_angle_counterexample :
  Synthesis.make_countersunk_hole M3_Captive_Nut 20 0 = inl "float division by zero"%string /\
  forall s, Synthesis.make_countersunk_hole M3_Captive_Nut 20 0 <> inr s.
Proof.
  assert (H : Synthesis.make_countersunk_hole M3_Captive_Nut 20 0
              = inl "float division by zero"%string).
  { unfold Synthesis.make_countersunk_hole, Synthesis.fdiv.
    replace (radians (0 / 2)) with 0 by (unfold radians; field).
    rewrite tan_0.
    destruct (Req_dec_T (2 * 0) 0) as [_|Hne]; [reflexivity|].
    exfalso. apply Hne. ring. }
  split; [exact H|]. intros s. rewrite H. discriminate.
Qed.

(** C6, amended: for a hole depth [d > 0] and an included angle [a] whose
    divisor [2 tan(radians(a/2))] is not zero, the countersunk hole is the
    fusion of the cylinder of radius [bolt_clearance/2] and height [d] with
    the cone of base radius [bolt_clearance] (head diameter twice the
    clearance diameter, whatever [a]), top radius [bolt_clearance/2] and
    height [(2 bolt_clearance - bolt_clearance) / (2 tan(radians(a/2)))],
    both from the origin along local -Z. *)
Theorem countersunk_hole_solid (data : InsertSpec) (depth angle : R) :
  0 < depth ->
  2 * tan (radians (angle / 2)) <> 0 ->
  let c := bolt_clearance data in
  Synthesis.make_countersunk_hole data depth angle =
  inr (Synthesis.fuse
         (Synthesis.makeCylinder (c / 2) depth (mkVector 0 0 0) (mkVector 0 0 (-1)))
         (Synthesis.makeCone c (c / 2)
            ((2 * c - c) / (2 * tan (radians (angle / 2))))
            (mkVector 0 0 0) (mkVector 0 0 (-1)))).
Proof.
  intros Hd Htan c.
  unfold Synthesis.make_countersunk_hole, Synthesis.fdiv.
  destruct (Req_dec_T (2 * tan (radians (angle / 2))) 0) as [Hz|_]; [contradiction|].
  fold c.
  replace (c * 2 / 2) with c by field.
  replace (c * 2 - c) with (2 * c - c) by ring.
  reflexivity.
Qed.

Lemma countersunk_hole_solid_witness :
  0 < 20 /\ 2 * tan (radians (90 / 2)) <> 0 /\
  Synthesis.make_countersunk_hole M3_Captive_Nut 20 90 =
  inr (Synthesis.fuse
         (Synthesis.makeCylinder (35/10 / 2) 20 (mkVector 0 0 0) (mkVector 0 0 (-1)))
         (Synthesis.makeCone (35/10) (35/10 / 2)
            ((2 * (35/10) - 35/10) / (2 * tan (radians (90 / 2))))
            (mkVector 0 0 0) (mkVector 0 0 (-1)))).
Proof.
  assert (Hd : 0 < 20) by lra.
  assert (Ht : 2 * tan (radians (90 / 2)) <> 0) by (apply half_angle_tan_nonzero; lra).
  split; [exact Hd|]. split; [exact Ht|].
  exact (countersunk_hole_solid M3_Captive_Nut 20 90 Hd Ht).
Defined.

(** ** Programs on the host *)

Section HostFacts.

Import Host Workbench.
Local Open Scope list_scope.

Variable host : Oracle.

Lemma bind_inr {A B : Type} (m : M A) (k : A -> M B) w w' b :
  bind m k w = (w', inr b) ->
  exists w1 a, m w = (w1, inr a) /\ k a w1 = (w', inr b).
Proof.
  unfold bind. destruct (m w) as [w1 [e|a]]; [discriminate|].
  intros H. now exists w1, a.
Qed.

Lemma ret_inv {A : Type} (a : A) w w' (r : Exn + A) :
  ret a w = (w', r) -> w' = w /\ r = inr a.
Proof. unfold ret. intros H. now inversion H. Qed.

Lemma call_trace ev w w' r :
  call host ev w = (w', r) -> trace w' = trace w ++ [ev] /\ next_obj w' = next_obj w.
Proof.
  unfold call. destruct (raises host (trace w) ev); intros H; inversion H; now subst.
Qed.

Lemma addObject_trace type_id name w w' r :
  addObject host type_id name w = (w', r) ->
  trace w' = trace w ++ [AddObject type_id name (next_obj w)].
Proof.
  unfold addObject, call. cbn [trace].
  destruct (raises host (trace w) (AddObject type_id name (next_obj w)));
    intros H; inversion H; now subst.
Qed.

Lemma addObject_inr type_id name w w' id :
  addObject host type_id name w = (w', inr id) ->
  id = next_obj w /\ trace w' = trace w ++ [AddObject type_id name id].
Proof.
  intros H. pose proof (addObject_trace _ _ _ _ _ H) as Ht.
  unfold addObject, call in H. cbn [trace] in H.
  destruct (raises host (trace w) (AddObject type_id name (next_obj w)));
    inversion H; subst. now split.
Qed.

(** *** Events of a program *)

Lemma same_workflows_refl w : same_workflows w w.
Proof. repeat split. Qed.

Lemma same_workflows_trans w1 w2 w3 :
  same_workflows w1 w2 -> same_workflows w2 w3 -> same_workflows w1 w3.
Proof.
  unfold same_workflows. intros (H1 & H2 & H3) (H4 & H5 & H6).
  rewrite H4, H5, H6. auto.
Qed.

Lemma same_workflows_log ev w : same_workflows w (log ev w).
Proof. repeat split. Qed.

Lemma emits_weaken {A : Type} (P Q : Event -> Prop) (m : M A) :
  (forall ev, P ev -> Q ev) -> emits P m -> emits Q m.
Proof.
  intros HPQ Hm w w' r H. destruct (Hm _ _ _ H) as (Hs & evs & Ht & Hall).
  split; [exact Hs|]. exists evs. split; [exact Ht|]. eapply Forall_impl; eauto.
Qed.

Lemma emits_silent {A : Type} (Q : Event -> Prop) (m : M A) :
  (forall w w' r, m w = (w', r) -> w' = w) -> emits Q m.
Proof.
  intros Hm w w' r H. rewrite (Hm _ _ _ H). split; [apply same_workflows_refl|].
  exists []. rewrite app_nil_r. split; [reflexivity | constructor].
Qed.

Lemma emits_ret {A : Type} Q (a : A) : emits Q (ret a).
Proof. apply emits_silent. unfold ret. intros w w' r H. now inversion H. Qed.

Lemma emits_raise {A : Type} Q e : emits Q (@raise A e).
Proof. apply emits_silent. unfold raise. intros w w' r H. now inversion H. Qed.

Lemma emits_lift {A : Type} Q (x : Exn + A) : emits Q (lift x).
Proof. apply emits_silent. unfold lift. intros w w' r H. now inversion H. Qed.

Lemma emits_seq (Q : Event -> Prop) (w w1 w' : World) (e1 e2 : list Event) :
  same_workflows w w1 -> trace w1 = trace w ++ e1 -> Forall Q e1 ->
  same_workflows w1 w' -> trace w' = trace w1 ++ e2 -> Forall Q e2 ->
  same_workflows w w' /\
  exists evs, trace w' = trace w ++ evs /\ Forall Q evs.
Proof.
  intros Hs1 Ht1 Hq1 Hs2 Ht2 Hq2.
  split; [eapply same_workflows_trans; eauto|].
  exists (e1 ++ e2). rewrite Ht2, Ht1, app_assoc. split; [reflexivity|].
  now apply Forall_app.
Qed.

Lemma emits_bind {A B : Type} Q (m : M A) (k : A -> M B) :
  emits Q m -> (forall a, emits Q (k a)) -> emits Q (bind m k).
Proof.
  intros Hm Hk w w' r H. unfold bind in H.
  destruct (m w) as [w1 [e|a]] eqn:Hmw.
  - inversion H; subst. eapply Hm; eauto.
  - destruct (Hm _ _ _ Hmw) as (Hs1 & e1 & Ht1 & Hq1).
    destruct (Hk a _ _ _ H) as (Hs2 & e2 & Ht2 & Hq2).
    exact (emits_seq Q _ _ _ _ _ Hs1 Ht1 Hq1 Hs2 Ht2 Hq2).
Qed.

Lemma emits_call (Q : Event -> Prop) ev : Q ev -> emits Q (call host ev).
Proof.
  intros Hq w w' r H.
  assert (Hw : w' = log ev w).
  { unfold call in H. destruct (raises host (trace w) ev); now inversion H. }
  subst w'. split; [apply same_workflows_log|].
  exists [ev]. split; [reflexivity | now constructor].
Qed.

Lemma emits_tell (Q : Event -> Prop) ev : Q ev -> emits Q (tell ev).
Proof.
  intros Hq w w' r H. unfold tell in H. inversion H; subst.
  split; [apply same_workflows_log|].
  exists [ev]. split; [reflexivity | now constructor].
Qed.

Lemma emits_addObject (Q : Event -> Prop) type_id name :
  (forall id, Q (AddObject type_id name id)) -> emits Q (addObject host type_id name).
Proof.
  intros Hq w w' r H. split.
  - unfold addObject, call in H. cbn [trace] in H.
    destruct (raises host (trace w) (AddObject type_id name (next_obj w)));
      inversion H; subst; repeat split.
  - apply addObject_trace in H. eexists. split; [exact H|]. now constructor.
Qed.

Lemma emits_question (Q : Event -> Prop) title text :
  Q (MsgQuestion title text) -> emits Q (question host title text).
Proof.
  intros Hq w w' r H. unfold question in H. inversion H; subst.
  split; [apply same_workflows_log|].
  exists [MsgQuestion title text]. split; [reflexivity | now constructor].
Qed.

Lemma emits_get_placement Q o : emits Q (get_placement host o).
Proof. apply emits_silent. unfold get_placement. intros w w' r H. now inversion H. Qed.

Lemma emits_get_geometry Q o : emits Q (get_geometry host o).
Proof. apply emits_silent. unfold get_geometry. intros w w' r H. now inversion H. Qed.

Lemma emits_get_shape Q o : emits Q (get_shape host o).
Proof. apply emits_silent. unfold get_shape. intros w w' r H. now inversion H. Qed.

Lemma emits_for_each {A : Type} Q (l : list A) (f : A -> M unit) :
  (forall x, emits Q (f x)) -> emits Q (for_each l f).
Proof.
  intros Hf. induction l as [|x rest IH]; simpl.
  - apply emits_ret.
  - apply emits_bind; [apply Hf | intros _; exact IH].
Qed.

Lemma emits_try_except {A : Type} Q (m : M A) (handler : Exn -> M A) :
  emits Q m -> (forall e, emits Q (handler e)) -> emits Q (try_except m handler).
Proof.
  intros Hm Hh w w' r H. unfold try_except in H.
  destruct (m w) as [w1 [e|a]] eqn:Hmw.
  - destruct (Hm _ _ _ Hmw) as (Hs1 & e1 & Ht1 & Hq1).
    destruct (Hh e _ _ _ H) as (Hs2 & e2 & Ht2 & Hq2).
    exact (emits_seq Q _ _ _ _ _ Hs1 Ht1 Hq1 Hs2 Ht2 Hq2).
  - inversion H; subst. eapply Hm; eauto.
Qed.

Lemma emits_get_face_subname Q obj face : emits Q (get_face_subname host obj face).
Proof.
  unfold get_face_subname.
  apply emits_bind; [apply emits_get_shape | intros; apply emits_lift].
Qed.

(** *** The bolt hole of [create_partdesign_pocket] *)

Lemma set_hole_type_events bolt_hole hole_type hole_depth w w' r :
  set_hole_type host bolt_hole hole_type hole_depth w = (w', inr r) ->
  exists hole_events,
    trace w' = trace w ++ hole_events /\
    (hole_type = "Through All"%string -> hole_events = through_all_events bolt_hole) /\
    (hole_type = "Countersunk"%string ->
       hole_events = countersink_warning :: blind_events bolt_hole hole_depth) /\
    (hole_type <> "Through All"%string -> hole_type <> "Countersunk"%string ->
       hole_events = blind_events bolt_hole hole_depth).
Proof.
  unfold set_hole_type. intros H.
  destruct (String.eqb_spec hole_type "Through All") as [Hta|Hta].
  - apply call_trace in H. exists (through_all_events bolt_hole).
    split; [tauto|]. split; [reflexivity|]. split; [|contradiction].
    intros Hcs. subst hole_type. discriminate.
  - destruct (String.eqb_spec hole_type "Countersunk") as [Hcs|Hcs].
    + apply bind_inr in H. destruct H as (w1 & u1 & H1 & H).
      apply bind_inr in H. destruct H as (w2 & u2 & H2 & H).
      unfold tell in H1. inversion H1; subst w1.
      apply call_trace in H2. apply call_trace in H.
      exists (countersink_warning :: blind_events bolt_hole hole_depth).
      split.
      * destruct H as [-> _], H2 as [-> _]. cbn [log trace].
        rewrite <- !app_assoc. reflexivity.
      * split; [contradiction|]. split; [reflexivity | contradiction].
    + apply bind_inr in H. destruct H as (w1 & u1 & H1 & H).
      apply call_trace in H1. apply call_trace in H.
      exists (blind_events bolt_hole hole_depth).
      split.
      * destruct H as [-> _], H1 as [-> _].
        rewrite <- !app_assoc. reflexivity.
      * split; [contradiction|]. split; [contradiction | reflexivity].
Qed.

Lemma call_inr_trace ev w w' (u : unit) :
  call host ev w = (w', inr u) -> trace w' = trace w ++ [ev].
Proof. intros H. now apply call_trace in H. Qed.

Lemma countersunk_starts_with_warning bolt_hole hole_depth :
  starts_with (fun _ => countersink_warning) (fun _ => True)
              (set_hole_type host bolt_hole "Countersunk" hole_depth).
Proof.
  intros w w' r H. unfold set_hole_type in H. cbn [String.eqb Ascii.eqb Bool.eqb] in H.
  unfold bind at 1 in H. unfold tell at 1 in H.
  assert (Hrest : emits (fun _ => True)
            (bind (call host (SetProp bolt_hole "Type" (VInt 0)))
                  (fun _ => call host (SetProp bolt_hole "Length" (VFloat hole_depth))))).
  { apply emits_bind; [|intros _]; now apply emits_call. }
  destruct (Hrest _ _ _ H) as (Hs & evs & Ht & Hq).
  split.
  - eapply same_workflows_trans; [apply (same_workflows_log countersink_warning) | exact Hs].
  - exists evs. split; [|exact Hq].
    rewrite Ht. cbn [log trace]. rewrite <- app_assoc. reflexivity.
Qed.

(** C5: in a run of [create_partdesign_pocket] that returns, everything
    done to the bolt hole is: it is created as a pocket on the bolt sketch,
    then typed as requested, then added to the body.  A request "Through
    All" sets the type through-all, a request "Countersunk" shows the
    warning and then sets a blind hole of the requested depth, and any
    other request sets a blind hole of the requested depth without a
    warning.  Whatever the outcome, the warning is the first thing a
    countersunk request does to the hole. *)
Theorem countersunk_request_degrades_with_warning :
  (forall body face center insert pocket_depth hole_type hole_depth countersink_angle
          sketch w w' nut_pocket bolt_hole,
     create_partdesign_pocket host body face center insert pocket_depth hole_type
       hole_depth countersink_angle sketch w = (w', inr (nut_pocket, bolt_hole)) ->
     exists earlier bolt_sketch hole_events,
       trace w' =
         earlier
         ++ [AddObject "PartDesign::Pocket" "CaptiveNut_BoltHole" bolt_hole;
             SetProp bolt_hole "Profile" (VObj bolt_sketch);
             SetProp bolt_hole "Midplane" (VInt 0);
             SetProp bolt_hole "Reversed" (VInt 0)]
         ++ hole_events
         ++ [BodyAddObject body bolt_sketch; BodyAddObject body bolt_hole; Recompute] /\
       (hole_type = "Through All"%string -> hole_events = through_all_events bolt_hole) /\
       (hole_type = "Countersunk"%string ->
          hole_events = countersink_warning :: blind_events bolt_hole hole_depth) /\
       (hole_type <> "Through All"%string -> hole_type <> "Countersunk"%string ->
          hole_events = blind_events bolt_hole hole_depth)) /\
  (forall bolt_hole hole_depth,
     starts_with (fun _ => countersink_warning) (fun _ => True)
                 (set_hole_type host bolt_hole "Countersunk" hole_depth)).
Proof.
  split; [|exact countersunk_starts_with_warning].
  intros body face center insert pocket_depth hole_type hole_depth countersink_angle
         sketch w w' nut_pocket bolt_hole H.
  unfold create_partdesign_pocket in H.
  apply bind_inr in H. destruct H as (w1 & np & _ & H).
  apply bind_inr in H. destruct H as (w2 & bh & Hhole & H).
  apply ret_inv in H. destruct H as [-> H].
  injection H as <- <-.
  unfold create_bolt_hole in Hhole.
  apply bind_inr in Hhole. destruct Hhole as (w3 & bolt_sketch & _ & H).
  apply bind_inr in H. destruct H as (w4 & bh' & Hadd & H).
  apply addObject_inr in Hadd. destruct Hadd as [Hid Hadd].
  apply bind_inr in H. destruct H as (w5 & u5 & H5 & H). apply call_inr_trace in H5.
  apply bind_inr in H. destruct H as (w6 & u6 & H6 & H). apply call_inr_trace in H6.
  apply bind_inr in H. destruct H as (w7 & u7 & H7 & H). apply call_inr_trace in H7.
  apply bind_inr in H. destruct H as (w8 & u8 & H8 & H).
  apply set_hole_type_events in H8. destruct H8 as (hole_events & H8 & Hcases).
  apply bind_inr in H. destruct H as (w9 & u9 & H9 & H). apply call_inr_trace in H9.
  apply bind_inr in H. destruct H as (w10 & u10 & H10 & H). apply call_inr_trace in H10.
  apply bind_inr in H. destruct H as (w11 & u11 & H11 & H). apply call_inr_trace in H11.
  apply ret_inv in H. destruct H as [-> H]. injection H as <-.
  exists (trace w3), bolt_sketch, hole_events.
  split; [|exact Hcases].
  rewrite H11, H10, H9, H8, H7, H6, H5, Hadd.
  rewrite <- !app_assoc. reflexivity.
Qed.

End HostFacts.

Lemma countersunk_request_degrades_with_warning_witness :
  let run := Workbench.create_partdesign_pocket quiet_host 0%nat top_face
               (mkVector 0 0 10) M3_Captive_Nut 6 "Countersunk" 20 90 None initial_world in
  run = (fst run, inr (2%nat, 4%nat)) /\
  exists earlier bolt_sketch hole_events,
    Host.trace (fst run) =
      earlier
      ++ [Host.AddObject "PartDesign::Pocket" "CaptiveNut_BoltHole" 4%nat;
          Host.SetProp 4%nat "Profile" (Host.VObj bolt_sketch);
          Host.SetProp 4%nat "Midplane" (Host.VInt 0);
          Host.SetProp 4%nat "Reversed" (Host.VInt 0)]
      ++ hole_events
      ++ [Host.BodyAddObject 0%nat bolt_sketch; Host.BodyAddObject 0%nat 4%nat;
          Host.Recompute] /\
    hole_events = countersink_warning :: blind_events 4%nat 20.
Proof.
  intros run.
  assert (Hrun : run = (fst run, inr (2%nat, 4%nat))).
  { rewrite (surjective_pairing run) at 1. f_equal; reflexivity. }
  split; [exact Hrun|].
  destruct (proj1 (countersunk_request_degrades_with_warning quiet_host) 0%nat top_face
              (mkVector 0 0 10) M3_Captive_Nut 6 "Countersunk"%string 20 90 None
              initial_world (fst run) 2%nat 4%nat Hrun)
    as (earlier & bolt_sketch & hole_events & Htrace & _ & Hcs & _).
  exists earlier, bolt_sketch, hole_events.
  split; [exact Htrace | exact (Hcs eq_refl)].
Defined.

(** ** The commit of the body path *)

(** One step on a goal [emits Q m], by the shape of [m]; [HQ] shows that
    the events other than the creation of a nut sketch are in [Q]. *)
Ltac emits_steps HQ :=
  repeat first
    [ apply emits_ret | apply emits_raise | apply emits_lift
    | apply emits_get_placement | apply emits_get_geometry | apply emits_get_shape
    | apply emits_get_face_subname
    | apply emits_call; apply HQ; reflexivity
    | apply emits_tell; apply HQ; reflexivity
    | apply emits_addObject; intros; apply HQ; reflexivity
    | apply emits_question; apply HQ; reflexivity
    | apply emits_bind; [|intros] ].

Section CommitFacts.

Import Host Workbench.
Local Open Scope list_scope.

Variable host : Oracle.

Section Events.

Variable Q : Event -> Prop.
Hypothesis HQ : forall ev, is_nut_sketch_creation ev = false -> Q ev.

Lemma emits_attach_sketch new_sketch body face sketch :
  emits Q (attach_sketch host new_sketch body face sketch).
Proof. unfold attach_sketch. destruct sketch; emits_steps HQ. Qed.

Lemma emits_set_hole_type bolt_hole hole_type hole_depth :
  emits Q (set_hole_type host bolt_hole hole_type hole_depth).
Proof.
  unfold set_hole_type.
  destruct (String.eqb hole_type "Through All");
    [|destruct (String.eqb hole_type "Countersunk")]; emits_steps HQ.
Qed.

Lemma emits_create_bolt_sketch body face center insert sketch :
  emits Q (create_bolt_sketch host body face center insert sketch).
Proof. unfold create_bolt_sketch. emits_steps HQ; apply emits_attach_sketch. Qed.

Lemma emits_create_bolt_hole body face center insert hole_type hole_depth sketch :
  emits Q (create_bolt_hole host body face center insert hole_type hole_depth sketch).
Proof.
  unfold create_bolt_hole.
  apply emits_bind; [apply emits_create_bolt_sketch | intros bolt_sketch].
  apply emits_bind; [emits_steps HQ | intros bolt_hole].
  do 3 (apply emits_bind; [emits_steps HQ | intros _]).
  apply emits_bind; [apply emits_set_hole_type | intros _].
  emits_steps HQ.
Qed.

Lemma starts_with_seq (w w1 w' : World) (ev : Event) (e1 e2 : list Event) :
  same_workflows w w1 -> trace w1 = trace w ++ ev :: e1 -> Forall Q e1 ->
  same_workflows w1 w' -> trace w' = trace w1 ++ e2 -> Forall Q e2 ->
  same_workflows w w' /\
  exists evs, trace w' = trace w ++ ev :: evs /\ Forall Q evs.
Proof.
  intros Hs1 Ht1 Hq1 Hs2 Ht2 Hq2.
  split; [eapply same_workflows_trans; eauto|].
  exists (e1 ++ e2). rewrite Ht2, Ht1, <- app_assoc. split; [reflexivity|].
  now apply Forall_app.
Qed.

Lemma starts_with_bind {A B : Type} first (m : M A) (k : A -> M B) :
  starts_with first Q m -> (forall a, emits Q (k a)) -> starts_with first Q (bind m k).
Proof.
  intros Hm Hk w w' r H. unfold bind in H.
  destruct (m w) as [w1 [e|a]] eqn:Hmw.
  - inversion H; subst. eapply Hm; eauto.
  - destruct (Hm _ _ _ Hmw) as (Hs1 & e1 & Ht1 & Hq1).
    destruct (Hk a _ _ _ H) as (Hs2 & e2 & Ht2 & Hq2).
    exact (starts_with_seq _ _ _ _ _ _ Hs1 Ht1 Hq1 Hs2 Ht2 Hq2).
Qed.

Lemma starts_with_try_except {A : Type} first (m : M A) (handler : Exn -> M A) :
  starts_with first Q m -> (forall e, emits Q (handler e)) ->
  starts_with first Q (try_except m handler).
Proof.
  intros Hm Hh w w' r H. unfold try_except in H.
  destruct (m w) as [w1 [e|a]] eqn:Hmw.
  - destruct (Hm _ _ _ Hmw) as (Hs1 & e1 & Ht1 & Hq1).
    destruct (Hh e _ _ _ H) as (Hs2 & e2 & Ht2 & Hq2).
    exact (starts_with_seq _ _ _ _ _ _ Hs1 Ht1 Hq1 Hs2 Ht2 Hq2).
  - inversion H; subst. eapply Hm; eauto.
Qed.

Lemma starts_with_addObject type_id name :
  starts_with (fun w => AddObject type_id name (next_obj w)) Q
              (addObject host type_id name).
Proof.
  intros w w' r H. split.
  - exact (proj1 (emits_addObject host (fun _ => True) type_id name (fun _ => I) _ _ _ H)).
  - apply addObject_trace in H. exists []. split; [exact H | constructor].
Qed.

Lemma starts_with_create_nut_pocket body face center insert pocket_depth sketch :
  starts_with
    (fun w => AddObject "Sketcher::SketchObject" "CaptiveNut_Nut" (next_obj w)) Q
    (create_nut_pocket host body face center insert pocket_depth sketch).
Proof.
  unfold create_nut_pocket.
  apply starts_with_bind; [apply starts_with_addObject|]. intros nut_sketch.
  apply emits_bind; [apply emits_attach_sketch | intros _].
  apply emits_bind; [emits_steps HQ | intros _].
  apply emits_bind; [emits_steps HQ | intros nut_placement].
  apply emits_bind; [|intros _; emits_steps HQ].
  apply emits_for_each. intros g. emits_steps HQ.
Qed.

Lemma starts_with_commit_point body face dialog_data sketch insert i center :
  dict_get INSERT_TYPES (insert_type dialog_data) = inr insert ->
  starts_with
    (fun w => AddObject "Sketcher::SketchObject" "CaptiveNut_Nut" (next_obj w)) Q
    (commit_point host body face dialog_data sketch i center).
Proof.
  intros Hinsert. unfold commit_point.
  apply starts_with_try_except.
  - unfold pocket_attempt. rewrite Hinsert.
    intros w w' r H. change (bind (lift (inr insert)) ?k w) with (k insert w) in H.
    revert w w' r H.
    apply starts_with_bind; [|intros; apply emits_ret].
    unfold create_partdesign_pocket.
    apply starts_with_bind; [apply starts_with_create_nut_pocket|]. intros nut_pocket.
    apply emits_bind; [apply emits_create_bolt_hole | intros; apply emits_ret].
  - intros e. apply emits_tell. now apply HQ.
Qed.

End Events.

Lemma commit_point_returns body face dialog_data sketch i center w :
  snd (commit_point host body face dialog_data sketch i center w) = inr tt.
Proof.
  unfold commit_point, try_except.
  destruct (pocket_attempt host body face dialog_data sketch center w) as [w1 [e|[]]];
    reflexivity.
Qed.

Lemma commit_from_returns body face dialog_data sketch centers :
  forall i w, snd (commit_from host body face dialog_data sketch i centers w) = inr tt.
Proof.
  unfold commit_from.
  induction centers as [|c rest IH]; intros i w; [reflexivity|].
  cbn [enumerate_from for_each]. unfold bind at 1. cbn [fst snd].
  pose proof (commit_point_returns body face dialog_data sketch i c w) as Hc.
  destruct (commit_point host body face dialog_data sketch i c w) as [w1 r].
  simpl in Hc. subst r. apply IH.
Qed.

Lemma commit_from_cons body face dialog_data sketch i center rest w :
  commit_from host body face dialog_data sketch i (center :: rest) w =
  commit_from host body face dialog_data sketch (S i) rest
    (fst (commit_point host body face dialog_data sketch i center w)).
Proof.
  unfold commit_from. cbn [enumerate_from for_each]. unfold bind at 1. cbn [fst snd].
  pose proof (commit_point_returns body face dialog_data sketch i center w) as Hc.
  destruct (commit_point host body face dialog_data sketch i center w) as [w1 r].
  simpl in Hc. subst r. reflexivity.
Qed.

Lemma commit_from_app body face dialog_data sketch before after :
  forall i w,
    commit_from host body face dialog_data sketch i (before ++ after) w =
    commit_from host body face dialog_data sketch (i + List.length before) after
      (fst (commit_from host body face dialog_data sketch i before w)).
Proof.
  induction before as [|c rest IH]; intros i w.
  - simpl. now rewrite Nat.add_0_r.
  - cbn [app List.length]. rewrite !commit_from_cons, IH.
    now rewrite Nat.add_succ_r.
Qed.

Lemma commit_point_world body face dialog_data sketch i center w :
  fst (commit_point host body face dialog_data sketch i center w) =
  let attempt := pocket_attempt host body face dialog_data sketch center w in
  match snd attempt with
  | inl e => log (PrintError (failed_pocket i e)) (fst attempt)
  | inr _ => fst attempt
  end.
Proof.
  unfold commit_point, try_except. cbv zeta.
  destruct (pocket_attempt host body face dialog_data sketch center w) as [w1 [e|u]];
    reflexivity.
Qed.

Example failed_pocket_first_point :
  failed_pocket 0 "Cannot create object" =
  ("Failed pocket #1: Cannot create object" ++ nl)%string.
Proof. reflexivity. Qed.

(** The line printed for a failed attempt is the report that names the
    point by its number. *)
Lemma failed_pocket_report (i : nat) (e : Exn) :
  failed_pocket i e = failure_report i e.
Proof.
  unfold failed_pocket, failure_report, decimal, str_of_nat, nl.
  now rewrite Nat.add_1_r.
Qed.

Lemma decimal_all_digits (n : nat) : all_digits (decimal n) = true.
Proof.
  unfold decimal. generalize (Nat.to_uint n) as d.
  induction d; cbn [NilEmpty.string_of_uint all_digits]; auto.
Qed.

Lemma digits_before_colon (s t x y : string) :
  all_digits s = true -> all_digits t = true ->
  (s ++ String ":" x)%string = (t ++ String ":" y)%string -> s = t.
Proof.
  revert t. induction s as [|c s IH]; intros [|d t] Hs Ht H; cbn in H, Hs, Ht.
  - reflexivity.
  - injection H as <- _. discriminate.
  - injection H as -> _. discriminate.
  - injection H as <- H. apply andb_prop in Hs, Ht. f_equal. now apply IH.
Qed.

Lemma decimal_inj (n m : nat) : decimal n = decimal m -> n = m.
Proof.
  unfold decimal. intros H. apply Unsigned.to_uint_inj.
  apply (f_equal NilEmpty.uint_of_string) in H. rewrite !NilEmpty.usu in H.
  now injection H.
Qed.

(** A report tells the number of its point: two reports that are the same
    line are about the same index. *)
Lemma failure_report_index (i j : nat) (e e' : string) :
  failure_report i e = failure_report j e' -> i = j.
Proof.
  unfold failure_report. intros H.
  assert (Hcut : forall p a b : string, (p ++ a = p ++ b)%string -> a = b).
  { induction p as [|c p IH]; intros a b Hab; [exact Hab|].
    cbn [String.append] in Hab. injection Hab as Hab. now apply IH. }
  apply Hcut in H.
  apply digits_before_colon in H; try apply decimal_all_digits.
  apply decimal_inj in H. now injection H.
Qed.

(** C4: the commit loop of the body path never lets an exception out; a
    failure [e] of the attempt on the point of index [i] is printed as the
    error line "Failed pocket #", the number [i+1] of the point, ": ", [e]
    and a newline, a line from which the index can be read back; the loop
    goes on with the points after it, from the state the failed attempt
    left; and, for a known insert type, the loop makes the first call of an
    attempt, the creation of the nut sketch, once for every point. *)
Theorem commit_continues_after_failed_point
    (body : ObjId) (face : Synthesis.Face) (dialog_data : DialogData)
    (sketch : option ObjId) :
  (forall centers w,
     snd (commit_points host body face dialog_data sketch centers w) = inr tt) /\
  (forall before center after w,
     let i := List.length before in
     let w1 := fst (commit_points host body face dialog_data sketch before w) in
     let attempt := pocket_attempt host body face dialog_data sketch center w1 in
     fst (commit_points host body face dialog_data sketch (before ++ center :: after) w) =
     fst (commit_from host body face dialog_data sketch (S i) after
            match snd attempt with
            | inl e => log (PrintError (failure_report i e)) (fst attempt)
            | inr _ => fst attempt
            end)) /\
  (forall i j e e', failure_report i e = failure_report j e' -> i = j) /\
  (forall insert centers w,
     dict_get INSERT_TYPES (insert_type dialog_data) = inr insert ->
     exists evs,
       trace (fst (commit_points host body face dialog_data sketch centers w)) =
         trace w ++ evs /\
       List.length (filter is_nut_sketch_creation evs) = List.length centers).
Proof.
  split; [|split; [|split]].
  - intros centers w. apply commit_from_returns.
  - intros before center after w i w1 attempt. unfold commit_points.
    rewrite commit_from_app, commit_from_cons. cbn [Nat.add].
    rewrite commit_point_world. subst i w1 attempt. cbv zeta. unfold commit_points.
    match goal with |- context [snd ?a] => destruct (snd a) end;
      [now rewrite failed_pocket_report | reflexivity].
  - exact failure_report_index.
  - intros insert centers w Hinsert. unfold commit_points. generalize 0%nat as i.
    revert w. induction centers as [|c rest IH]; intros w i.
    + exists []. now rewrite app_nil_r.
    + rewrite commit_from_cons.
      destruct (commit_point host body face dialog_data sketch i c w) as [w1 r] eqn:Hc.
      destruct (starts_with_commit_point (fun ev => is_nut_sketch_creation ev = false)
                  (fun ev H => H) body face dialog_data sketch insert i c Hinsert
                  _ _ _ Hc) as (_ & e1 & Ht1 & Hq1).
      destruct (IH w1 (S i)) as (e2 & Ht2 & Hlen).
      cbn [fst].
      exists ((AddObject "Sketcher::SketchObject" "CaptiveNut_Nut" (next_obj w) :: e1) ++ e2).
      split.
      * rewrite Ht2, Ht1, <- app_assoc. reflexivity.
      * rewrite filter_app, length_app, Hlen. cbn [filter is_nut_sketch_creation].
        rewrite !String.eqb_refl. cbn [andb List.length].
        replace (filter is_nut_sketch_creation e1) with (@nil Event); [reflexivity|].
        symmetry. clear -Hq1. induction Hq1 as [|ev l Hev _ IHl]; [reflexivity|].
        cbn [filter]. now rewrite Hev.
Qed.

End CommitFacts.

Lemma commit_continues_after_failed_point_witness :
  let run := Workbench.commit_points host_failing_later 0%nat top_face default_dialog
               None three_points initial_world in
  let w1 := fst (Workbench.commit_points host_failing_later 0%nat top_face
                   default_dialog None [mkVector 0 0 10] initial_world) in
  let attempt := Workbench.pocket_attempt host_failing_later 0%nat top_face
                   default_dialog None (mkVector 20 0 10) w1 in
  dict_get INSERT_TYPES (insert_type default_dialog) = inr M3_Captive_Nut /\
  snd run = inr tt /\
  snd attempt = inl "Cannot create object"%string /\
  fst run =
    fst (Workbench.commit_from host_failing_later 0%nat top_face default_dialog None 2
           [mkVector 40 0 10]
           (Host.log (Host.PrintError
                        ("Failed pocket #2: Cannot create object"
                         ++ String "010" EmptyString)%string)
                     (fst attempt))) /\
  exists evs,
    Host.trace (fst run) = Host.trace initial_world ++ evs /\
    List.length (filter is_nut_sketch_creation evs) = List.length three_points.
Proof.
  intros run w1 attempt.
  assert (Hinsert : dict_get INSERT_TYPES (insert_type default_dialog) = inr M3_Captive_Nut)
    by reflexivity.
  assert (Hfail : snd attempt = inl "Cannot create object"%string) by reflexivity.
  destruct (commit_continues_after_failed_point host_failing_later 0%nat top_face
              default_dialog None) as (Hret & Hnext & _ & Hall).
  split; [exact Hinsert|]. split; [apply Hret|]. split; [exact Hfail|]. split.
  - pose proof (Hnext [mkVector 0 0 10] (mkVector 20 0 10) [mkVector 40 0 10]
                  initial_world) as H.
    cbv zeta in H. fold w1 in H. fold attempt in H. rewrite Hfail in H. exact H.
  - exact (Hall M3_Captive_Nut three_points initial_world Hinsert).
Defined.

(** ** The registry of active workflows *)

Section WorkflowFacts.

Import Host Workbench.
Local Open Scope list_scope.

Variable host : Oracle.

Lemma existsb_eqb_In (x : nat) (l : list nat) :
  existsb (Nat.eqb x) l = true <-> In x l.
Proof.
  rewrite existsb_exists. split.
  - intros (y & Hin & Heq). apply Nat.eqb_eq in Heq. now subst.
  - intros Hin. exists x. split; [exact Hin | apply Nat.eqb_refl].
Qed.

Lemma count_occ_remove_first (x : nat) (l : list nat) :
  count_occ Nat.eq_dec (remove_first x l) x = pred (count_occ Nat.eq_dec l x).
Proof.
  induction l as [|y rest IH]; [reflexivity|]. simpl.
  destruct (Nat.eqb_spec y x) as [->|Hne].
  - destruct (Nat.eq_dec x x); [reflexivity | contradiction].
  - simpl. destruct (Nat.eq_dec y x); [contradiction | exact IH].
Qed.

Lemma count_occ_remove_first_other (x y : nat) (l : list nat) :
  y <> x ->
  count_occ Nat.eq_dec (remove_first x l) y = count_occ Nat.eq_dec l y.
Proof.
  intros Hyx. induction l as [|z rest IH]; [reflexivity|]. simpl.
  destruct (Nat.eqb_spec z x) as [->|Hne].
  - destruct (Nat.eq_dec x y); [congruence | reflexivity].
  - simpl. destruct (Nat.eq_dec z y); now rewrite IH.
Qed.

Lemma nth_error_update_nth {A : Type} (f : A -> A) (l : list A) (t : nat) :
  nth_error (update_nth t f l) t = option_map f (nth_error l t).
Proof.
  revert t. induction l as [|x rest IH]; intros [|t]; simpl; auto.
Qed.

Lemma cleanup_outcome (self : Workflow) (w : World) :
  exists w',
    cleanup self w = (w', inr tt) /\
    trace w' = trace w /\ next_obj w' = next_obj w /\
    next_instance w' = next_instance w /\
    ACTIVE_WORKFLOWS w' = registry_after_cleanup self (ACTIVE_WORKFLOWS w) /\
    timer_stopped self w'.
Proof.
  unfold cleanup, bind, registry_after_cleanup, timer_stopped.
  destruct (existsb (Nat.eqb (instance self)) (ACTIVE_WORKFLOWS w));
    destruct (wf_timer self) as [t|];
    unfold timer_isActive, timer_stop, timer_update, ret, set_timers, set_registry;
    cbn [trace next_obj ACTIVE_WORKFLOWS next_instance timers];
    try (destruct (nth_error (timers w) t) as [q|] eqn:Hq; [destruct (isActive q) eqn:Hact|]);
    eexists; (split; [reflexivity|]);
    cbn [trace next_obj ACTIVE_WORKFLOWS next_instance timers];
    repeat (split; [reflexivity|]);
    try rewrite nth_error_update_nth; try rewrite Hq; cbn; auto.
Qed.

Lemma cleanup_when_clean (self : Workflow) (w : World) :
  ~ In (instance self) (ACTIVE_WORKFLOWS w) -> timer_stopped self w ->
  cleanup self w = (w, inr tt).
Proof.
  intros Hnot Hstop. unfold cleanup, bind.
  destruct (existsb (Nat.eqb (instance self)) (ACTIVE_WORKFLOWS w)) eqn:Hex.
  - apply existsb_eqb_In in Hex. contradiction.
  - unfold timer_stopped in Hstop. destruct (wf_timer self) as [t|]; [|reflexivity].
    unfold timer_isActive.
    destruct (nth_error (timers w) t) as [q|]; [|reflexivity].
    now rewrite Hstop.
Qed.

Lemma not_in_after_cleanup (self : Workflow) (reg : list nat) :
  (count_occ Nat.eq_dec reg (instance self) <= 1)%nat ->
  ~ In (instance self) (registry_after_cleanup self reg).
Proof.
  intros Hcount. unfold registry_after_cleanup.
  destruct (existsb (Nat.eqb (instance self)) reg) eqn:Hex.
  - apply (count_occ_not_In Nat.eq_dec). rewrite count_occ_remove_first. lia.
  - intros Hin. apply existsb_eqb_In in Hin. congruence.
Qed.

Lemma in_remove_first (x y : nat) (l : list nat) :
  In y (remove_first x l) -> In y l.
Proof.
  induction l as [|z rest IH]; [auto|]. simpl.
  destruct (Nat.eqb z x); simpl; tauto.
Qed.

Lemma in_remove_first_other (x y : nat) (l : list nat) :
  y <> x -> In y l -> In y (remove_first x l).
Proof.
  intros Hyx. induction l as [|z rest IH]; [auto|]. simpl.
  destruct (Nat.eqb_spec z x) as [->|Hne]; simpl; intuition congruence.
Qed.

Lemma NoDup_remove_first (x : nat) (l : list nat) :
  NoDup l -> NoDup (remove_first x l).
Proof.
  induction 1 as [|z rest Hz Hnd IH]; [constructor|]. simpl.
  destruct (Nat.eqb z x); [exact Hnd|].
  constructor; [|exact IH]. intros Hin. apply Hz. eapply in_remove_first; eauto.
Qed.

Lemma registry_ok_after_cleanup (self : Workflow) (w w' : World) :
  registry_ok w ->
  ACTIVE_WORKFLOWS w' = registry_after_cleanup self (ACTIVE_WORKFLOWS w) ->
  next_instance w' = next_instance w ->
  registry_ok w'.
Proof.
  intros [Hnd Hall] Hreg Hnext. unfold registry_ok. rewrite Hreg, Hnext.
  unfold registry_after_cleanup.
  destruct (existsb (Nat.eqb (instance self)) (ACTIVE_WORKFLOWS w)); [|now split].
  split; [now apply NoDup_remove_first|].
  rewrite Forall_forall in *. intros y Hy. apply Hall. eapply in_remove_first; eauto.
Qed.

Lemma emits_same {A : Type} (m : M A) (w w' : World) (r : Exn + A) :
  emits (fun _ => True) m -> m w = (w', r) -> same_workflows w w'.
Proof. intros Hm H. exact (proj1 (Hm _ _ _ H)). Qed.

Lemma timer_update_same t f w w' r :
  timer_update t f w = (w', r) ->
  ACTIVE_WORKFLOWS w' = ACTIVE_WORKFLOWS w /\ next_instance w' = next_instance w /\
  trace w' = trace w.
Proof. unfold timer_update. intros H. inversion H; subst. now repeat split. Qed.

Lemma new_timer_same w w' r :
  new_timer w = (w', r) ->
  ACTIVE_WORKFLOWS w' = ACTIVE_WORKFLOWS w /\ next_instance w' = next_instance w /\
  trace w' = trace w.
Proof. unfold new_timer. intros H. inversion H; subst. now repeat split. Qed.

Lemma emits_add_to_body (self : Workflow) (sketch : ObjId) :
  emits (fun _ => True)
    (if wf_is_partdesign self
     then bind (the_body self) (fun body => call host (BodyAddObject body sketch))
     else ret tt).
Proof.
  destruct (wf_is_partdesign self); [|apply emits_ret].
  apply emits_bind.
  - unfold the_body. destruct (wf_body self); [apply emits_ret | apply emits_raise].
  - intros body. now apply emits_call.
Qed.

Lemma setup_sketch_inr (self self' : Workflow) (w w' : World) :
  setup_sketch host self w = (w', inr self') ->
  ACTIVE_WORKFLOWS w' = ACTIVE_WORKFLOWS w /\
  next_instance w' = next_instance w /\
  instance self' = instance self.
Proof.
  unfold setup_sketch. intros H.
  apply bind_inr in H. destruct H as (w1 & sketch & H1 & H).
  apply emits_same in H1; [|now apply emits_addObject].
  apply bind_inr in H. destruct H as (w2 & face_name & H2 & H).
  apply emits_same in H2; [|apply emits_get_face_subname].
  apply bind_inr in H. destruct H as (w3 & u3 & H3 & H).
  apply emits_same in H3; [|now apply emits_call].
  apply bind_inr in H. destruct H as (w4 & u4 & H4 & H).
  apply emits_same in H4; [|now apply emits_call].
  apply bind_inr in H. destruct H as (w5 & u5 & H5 & H).
  apply emits_same in H5; [|now apply emits_call].
  apply bind_inr in H. destruct H as (w6 & u6 & H6 & H).
  apply emits_same in H6; [|apply emits_add_to_body].
  apply bind_inr in H. destruct H as (w7 & u7 & H7 & H).
  apply emits_same in H7; [|now apply emits_call].
  apply bind_inr in H. destruct H as (w8 & timer & H8 & H).
  apply new_timer_same in H8.
  apply bind_inr in H. destruct H as (w9 & u9 & H9 & H).
  apply timer_update_same in H9.
  apply bind_inr in H. destruct H as (w10 & u10 & H10 & H).
  apply timer_update_same in H10.
  apply bind_inr in H. destruct H as (w11 & u11 & H11 & H).
  apply timer_update_same in H11.
  apply ret_inv in H. destruct H as [-> H]. injection H as ->.
  unfold same_workflows in *.
  destruct H1 as (R1 & N1 & _), H2 as (R2 & N2 & _), H3 as (R3 & N3 & _),
           H4 as (R4 & N4 & _), H5 as (R5 & N5 & _), H6 as (R6 & N6 & _),
           H7 as (R7 & N7 & _), H8 as (R8 & N8 & _), H9 as (R9 & N9 & _),
           H10 as (R10 & N10 & _), H11 as (R11 & N11 & _).
  repeat split; [congruence | congruence].
Qed.

Lemma new_workflow_inr base_obj face body dialog_data is_partdesign w w1 self :
  new_workflow host base_obj face body dialog_data is_partdesign w = (w1, inr self) ->
  ACTIVE_WORKFLOWS w1 = ACTIVE_WORKFLOWS w ++ [instance self] /\
  instance self = next_instance w /\
  next_instance w1 = S (next_instance w).
Proof.
  unfold new_workflow. intros H.
  apply bind_inr in H. destruct H as (w2 & self2 & Hsetup & H).
  apply setup_sketch_inr in Hsetup. cbn [ACTIVE_WORKFLOWS next_instance instance] in Hsetup.
  destruct Hsetup as (Hreg & Hnext & Hid).
  apply bind_inr in H. destruct H as (w3 & u3 & Happend & H).
  inversion Happend; subst w3.
  apply ret_inv in H. destruct H as [-> H]. injection H as ->.
  cbn [set_registry ACTIVE_WORKFLOWS next_instance].
  rewrite Hreg, Hnext, Hid. auto.
Qed.

(** *** The closing of the sketch *)

Lemma any_event (ev : Event) : is_nut_sketch_creation ev = false -> True.
Proof. intros _. exact I. Qed.

Lemma emits_commit_points body face dialog_data sketch centers :
  emits (fun _ => True) (commit_points host body face dialog_data sketch centers).
Proof.
  unfold commit_points, commit_from. apply emits_for_each. intros [i center].
  unfold commit_point. apply emits_try_except; [|intros e; now apply emits_tell].
  unfold pocket_attempt. apply emits_bind; [apply emits_lift | intros insert].
  apply emits_bind; [|intros; apply emits_ret].
  unfold create_partdesign_pocket.
  apply emits_bind; [|intros nut_pocket].
  - intros w w' r H.
    destruct (starts_with_create_nut_pocket host (fun _ => True) any_event
                _ _ _ _ _ _ _ _ _ H) as (Hs & evs & Ht & Hq).
    split; [exact Hs|]. eexists. split; [exact Ht|]. now constructor.
  - apply emits_bind; [|intros; apply emits_ret].
    now apply emits_create_bolt_hole.
Qed.

Lemma emits_add_preview preview : emits (fun _ => True) (add_preview host preview).
Proof. unfold add_preview. emits_steps any_event; now (apply emits_call || apply emits_addObject). Qed.

Lemma emits_add_cut base_obj preview_obj :
  emits (fun _ => True) (add_cut host base_obj preview_obj).
Proof. unfold add_cut. emits_steps any_event; now (apply emits_call || apply emits_addObject). Qed.

(** The [try] block of [on_sketch_finished] with its [except]: whatever
    happens, it returns, and it leaves the workflows alone. *)
Lemma sketch_finished_body_returns (self : Workflow) (m : M unit) (w : World) :
  emits (fun _ => True) m ->
  exists w',
    try_except m (fun e =>
      bind (tell (PrintError ("Sketch processing error: " ++ e ++ nl)%string))
           (fun _ => tell PrintTraceback)) w = (w', inr tt) /\
    same_workflows w w'.
Proof.
  intros Hm. unfold try_except.
  destruct (m w) as [w1 [e|[]]] eqn:Hmw.
  - eexists. split; [reflexivity|].
    eapply same_workflows_trans; [exact (proj1 (Hm _ _ _ Hmw))|].
    repeat split.
  - exists w1. split; [reflexivity | exact (proj1 (Hm _ _ _ Hmw))].
Qed.

Lemma on_sketch_finished_returns (self : Workflow) (w : World) :
  exists w',
    on_sketch_finished host self w = (w', inr tt) /\
    ACTIVE_WORKFLOWS w' = registry_after_cleanup self (ACTIVE_WORKFLOWS w) /\
    next_instance w' = next_instance w /\
    timer_stopped self w'.
Proof.
  unfold on_sketch_finished, try_finally.
  match goal with
  | |- context [try_except ?m ?h w] =>
      assert (Hm : emits (fun _ => True) m)
  end.
  { unfold process_sketch. apply emits_bind.
    { unfold the_sketch. destruct (wf_sketch self); [apply emits_ret | apply emits_raise]. }
    intros sketch.
    apply emits_bind; [apply emits_get_geometry | intros geometry].
    apply emits_bind; [apply emits_get_placement | intros placement].
    cbv zeta.
    destruct (SketchPoints.extract_centers_from_sketch
                (SketchPoints.mkSketch geometry placement)) as [|c0 more];
      [now apply emits_tell|].
    destruct (wf_is_partdesign self); destruct (auto_boolean (wf_dialog_data self)).
    - apply emits_bind; [now apply emits_question | intros [|]]; [|apply emits_ret].
      apply emits_bind.
      { unfold the_body. destruct (wf_body self); [apply emits_ret | apply emits_raise]. }
      intros body.
      apply emits_bind; [apply emits_commit_points | intros _; now apply emits_tell].
    - now apply emits_tell.
    - apply emits_bind; [apply emits_get_shape | intros base_shape].
      apply emits_bind; [apply emits_lift | intros preview].
      apply emits_bind; [apply emits_add_preview | intros preview_obj].
      apply emits_bind; [now apply emits_question | intros [|]]; [|apply emits_ret].
      apply emits_bind; [apply emits_add_cut | intros _; now apply emits_tell].
    - apply emits_bind; [apply emits_get_shape | intros base_shape].
      apply emits_bind; [apply emits_lift | intros preview].
      apply emits_bind; [apply emits_add_preview | intros preview_obj].
      now apply emits_tell. }
  match goal with
  | |- context [try_except ?m ?h w] =>
      destruct (sketch_finished_body_returns self m w Hm) as (w1 & Hbody & Hs1)
  end.
  rewrite Hbody.
  destruct (cleanup_outcome self w1) as (w2 & Hclean & _ & _ & Hnext & Hreg & Hstop).
  rewrite Hclean. exists w2. split; [reflexivity|].
  destruct Hs1 as (R1 & N1 & _). rewrite Hreg, Hnext, R1, N1. auto.
Qed.

Lemma check_sketch_closed_returns (self : Workflow) (w : World) (t : nat) :
  wf_timer self = Some t -> in_edit host (trace w) = false ->
  exists w',
    check_sketch_closed host self w = (w', inr tt) /\
    ACTIVE_WORKFLOWS w' =
      registry_after_cleanup self (registry_after_cleanup self (ACTIVE_WORKFLOWS w)) /\
    next_instance w' = next_instance w /\
    timer_stopped self w'.
Proof.
  intros Ht Hedit. unfold check_sketch_closed. rewrite Hedit, Ht.
  unfold bind at 1. unfold timer_stop at 1, timer_update at 1.
  unfold bind at 1.
  match goal with
  | |- context [cleanup self ?wa] =>
      destruct (cleanup_outcome self wa) as (wb & Hclean & _ & _ & Hnext & Hreg & _)
  end.
  rewrite Hclean.
  destruct (on_sketch_finished_returns self wb) as (wc & Hfin & Hreg' & Hnext' & Hstop).
  exists wc. split; [exact Hfin|].
  rewrite Hreg', Hreg, Hnext', Hnext. auto.
Qed.

(** C10: a new workflow is appended to the registry once, where it was not
    before; [cleanup] takes it out, leaves the other instances in, stops
    its timer and raises nothing; a second [cleanup] changes nothing and
    raises nothing; and the path taken when the closed sketch is seen,
    which cleans up twice, returns with the instance out of the
    registry. *)
Theorem workflow_cleanup_is_idempotent :
  (forall base_obj face body dialog_data is_partdesign w w1 self,
     registry_ok w ->
     new_workflow host base_obj face body dialog_data is_partdesign w = (w1, inr self) ->
     ACTIVE_WORKFLOWS w1 = ACTIVE_WORKFLOWS w ++ [instance self] /\
     ~ In (instance self) (ACTIVE_WORKFLOWS w) /\
     registry_ok w1) /\
  (forall self w,
     registry_ok w ->
     exists w',
       cleanup self w = (w', inr tt) /\
       ~ In (instance self) (ACTIVE_WORKFLOWS w') /\
       (forall other, other <> instance self ->
          (In other (ACTIVE_WORKFLOWS w') <-> In other (ACTIVE_WORKFLOWS w))) /\
       timer_stopped self w' /\
       registry_ok w' /\
       cleanup self w' = (w', inr tt)) /\
  (forall self w t,
     registry_ok w -> wf_timer self = Some t -> in_edit host (trace w) = false ->
     exists w',
       check_sketch_closed host self w = (w', inr tt) /\
       ~ In (instance self) (ACTIVE_WORKFLOWS w') /\
       timer_stopped self w').
Proof.
  split; [|split].
  - intros base_obj face body dialog_data is_partdesign w w1 self [Hnd Hall] H.
    apply new_workflow_inr in H. destruct H as (Hreg & Hid & Hnext).
    assert (Hfresh : ~ In (instance self) (ACTIVE_WORKFLOWS w)).
    { intros Hin. rewrite Forall_forall in Hall. apply Hall in Hin. simpl in Hin. lia. }
    split; [exact Hreg|]. split; [exact Hfresh|].
    unfold registry_ok. rewrite Hreg, Hnext. split.
    + apply NoDup_app; [exact Hnd | repeat constructor; auto |].
      intros x Hx [<-|[]]. contradiction.
    + apply Forall_app. split.
      * eapply Forall_impl; [|exact Hall]. simpl. intros; lia.
      * constructor; [simpl; lia | constructor].
  - intros self w Hok.
    destruct (cleanup_outcome self w) as (w' & Hclean & _ & _ & Hnext & Hreg & Hstop).
    assert (Hout : ~ In (instance self) (ACTIVE_WORKFLOWS w')).
    { rewrite Hreg. apply not_in_after_cleanup.
      destruct Hok as [Hnd _]. now apply NoDup_count_occ. }
    exists w'. split; [exact Hclean|]. split; [exact Hout|]. split; [|split; [exact Hstop|split]].
    + intros other Hother. rewrite Hreg. unfold registry_after_cleanup.
      destruct (existsb (Nat.eqb (instance self)) (ACTIVE_WORKFLOWS w)); [|tauto].
      split; [apply in_remove_first | now apply in_remove_first_other].
    + eapply registry_ok_after_cleanup; eauto.
    + now apply cleanup_when_clean.
  - intros self w t Hok Ht Hedit.
    destruct (check_sketch_closed_returns self w t Ht Hedit)
      as (w' & Hrun & Hreg & _ & Hstop).
    exists w'. split; [exact Hrun|]. split; [|exact Hstop].
    rewrite Hreg. intros Hin.
    unfold registry_after_cleanup at 1 in Hin.
    destruct (existsb (Nat.eqb (instance self))
                (registry_after_cleanup self (ACTIVE_WORKFLOWS w))) eqn:Hex.
    + apply in_remove_first in Hin. revert Hin. apply not_in_after_cleanup.
      destruct Hok as [Hnd _]. now apply NoDup_count_occ.
    + apply existsb_eqb_In in Hin. congruence.
Qed.

End WorkflowFacts.

Lemma workflow_cleanup_is_idempotent_witness :
  let run := Workbench.new_workflow quiet_host 0%nat top_face None sketch_dialog false
               initial_world in
  registry_ok initial_world /\
  run = (fst run, inr first_workflow) /\
  Host.ACTIVE_WORKFLOWS (fst run) = Host.ACTIVE_WORKFLOWS initial_world ++ [0%nat] /\
  exists w',
    Workbench.cleanup first_workflow (fst run) = (w', inr tt) /\
    ~ In 0%nat (Host.ACTIVE_WORKFLOWS w') /\
    timer_stopped first_workflow w' /\
    Workbench.cleanup first_workflow w' = (w', inr tt).
Proof.
  intros run.
  assert (Hok : registry_ok initial_world) by (split; constructor).
  assert (Hrun : run = (fst run, inr first_workflow)).
  { rewrite (surjective_pairing run) at 1. f_equal; reflexivity. }
  destruct (workflow_cleanup_is_idempotent quiet_host) as (Hnew & Hclean & _).
  destruct (Hnew 0%nat top_face None sketch_dialog false initial_world (fst run)
              first_workflow Hok Hrun) as (Hreg & _ & Hok1).
  destruct (Hclean first_workflow (fst run) Hok1)
    as (w' & Hc1 & Hout & _ & Hstop & _ & Hc2).
  split; [exact Hok|]. split; [exact Hrun|]. split; [exact Hreg|].
  exists w'. auto.
Defined.

(** ** No placement points *)

Section NoPoints.

Import Host Workbench.
Local Open Scope list_scope.

Variable host : Oracle.

(** C3, amended: from the moment the point source has yielded no point,
    the operation only shows its warning and ends: [Activated] does so
    for an empty list of centers, whatever the destination, in particular
    for the pattern generator and for a drawing without centers, and
    [on_sketch_finished] does so for a sketch without circles, in which case
    the trace gains the warning alone and no object is created. *)
Theorem no_points_only_warns :
  (forall obj face body dialog_data w,
     Activated_with_centers host obj face body dialog_data [] w =
     (log (MsgWarning "No Centers" "No placement points found.") w, inr tt)) /\
  (forall obj face body dialog_data w,
     mode dialog_data = "Pattern Generator"%string ->
     pattern_centers dialog_data = inr [] ->
     Activated host obj face body dialog_data w =
     (log (MsgWarning "No Centers" "No placement points found.") w, inr tt)) /\
  (forall obj face body dialog_data w w1,
     mode dialog_data = "Import DXF"%string ->
     dxf_file dialog_data <> EmptyString ->
     is_file host (dxf_file dialog_data) = true ->
     extract_centers_from_dxf host (dxf_file dialog_data) (dxf_layer dialog_data) w
       = (w1, inr []) ->
     Activated host obj face body dialog_data w =
     (log (MsgWarning "No Centers" "No placement points found.") w1, inr tt)) /\
  (forall self sketch w,
     wf_sketch self = Some sketch ->
     SketchPoints.extract_centers_from_sketch
       (SketchPoints.mkSketch (geometry_of host (trace w) sketch)
                              (placement_of host (trace w) sketch)) = [] ->
     exists w',
       on_sketch_finished host self w = (w', inr tt) /\
       trace w' = trace w ++ [MsgWarning "No Circles" "No circles found in sketch."] /\
       next_obj w' = next_obj w).
Proof.
  split; [|split; [|split]].
  - reflexivity.
  - intros obj face body dialog_data w Hmode Hcenters.
    unfold Activated. rewrite Hmode, Hcenters. reflexivity.
  - intros obj face body dialog_data w w1 Hmode Hpath Hfile Hextract.
    unfold Activated. rewrite Hmode. cbn [String.eqb Ascii.eqb Bool.eqb].
    apply String.eqb_neq in Hpath. rewrite Hpath, Hfile. cbn [orb negb].
    unfold bind. rewrite Hextract. reflexivity.
  - intros self sketch w Hsketch Hempty.
    unfold on_sketch_finished, process_sketch, try_finally, try_except, the_sketch.
    rewrite Hsketch.
    unfold bind at 1. unfold ret at 1.
    unfold bind at 1. unfold get_geometry at 1.
    unfold bind at 1. unfold get_placement at 1.
    cbv zeta. rewrite Hempty. unfold tell at 1.
    match goal with
    | |- context [cleanup self ?wa] =>
        destruct (cleanup_outcome self wa) as (w' & Hclean & Htrace & Hobj & _)
    end.
    rewrite Hclean. exists w'. split; [reflexivity|].
    rewrite Htrace, Hobj. split; reflexivity.
Qed.

End NoPoints.

Lemma no_points_only_warns_witness :
  let w1 := fst (Workbench.Activated quiet_host 0%nat top_face None sketch_dialog
                   initial_world) in
  Workbench.wf_sketch first_workflow = Some 1%nat /\
  SketchPoints.extract_centers_from_sketch
    (SketchPoints.mkSketch (Host.geometry_of quiet_host (Host.trace w1) 1%nat)
                           (Host.placement_of quiet_host (Host.trace w1) 1%nat)) = [] /\
  exists w',
    Workbench.on_sketch_finished quiet_host first_workflow w1 = (w', inr tt) /\
    Host.trace w' =
      Host.trace w1 ++ [Host.MsgWarning "No Circles" "No circles found in sketch."] /\
    Host.next_obj w' = Host.next_obj w1.
Proof.
  intros w1.
  assert (Hsketch : Workbench.wf_sketch first_workflow = Some 1%nat) by reflexivity.
  assert (Hempty : SketchPoints.extract_centers_from_sketch
            (SketchPoints.mkSketch (Host.geometry_of quiet_host (Host.trace w1) 1%nat)
               (Host.placement_of quiet_host (Host.trace w1) 1%nat)) = [])
    by reflexivity.
  split; [exact Hsketch|]. split; [exact Hempty|].
  destruct (no_points_only_warns quiet_host) as (_ & _ & _ & Hfinished).
  exact (Hfinished first_workflow 1%nat w1 Hsketch Hempty).
Defined.

(** C3, as stated, fails on the sketch source: the sketch that the
    operation creates for the user stays in the document when the user
    closes it without a circle.  On the quiet host, [Activated] builds the
    workflow, the single-shot timer starts the polling, and the first poll
    finds the sketch closed and empty: the warning is shown, and the trace
    of the whole operation holds the creation of the sketch. *)
Lemma sketch_source_abort_keeps_sketch_counterexample :
  let started := Workbench.Activated quiet_host 0%nat top_face None sketch_dialog
                   initial_world in
  let polling := Workbench.timer_timeout quiet_host first_workflow (fst started) in
  let self := Workbench.with_sketch_timer first_workflow (Some 1%nat) (Some 1%nat) in
  let closed := Workbench.timer_timeout quiet_host self (fst polling) in
  snd started = inr tt /\
  Host.ACTIVE_WORKFLOWS (fst started) = [0%nat] /\
  snd polling = inr self /\
  snd closed = inr self /\
  Host.ACTIVE_WORKFLOWS (fst closed) = [] /\
  Host.trace (fst closed) =
    [ Host.PrintMessage ("üëâ Please sketch circles and close the sketch." ++ Host.nl)%string;
      Host.AddObject "Sketcher::SketchObject" "CaptiveNut_UserSketch" 1%nat;
      Host.SetProp 1%nat "AttachmentSupport" (Host.VSupport 0%nat "Face1");
      Host.SetProp 1%nat "MapMode" (Host.VStr "FlatFace");
      Host.Recompute;
      Host.SetEdit 1%nat;
      Host.MsgWarning "No Circles" "No circles found in sketch." ] /\
  existsb Host.mutates_document (Host.trace (fst closed)) = true.
Proof.
  repeat split; reflexivity.
Qed.

(** * Further properties of the code *)

(** ** The name of the selected face *)

Lemma find_face_first (faces : list nat) (face : nat) :
  forall k i,
    nth_error faces i = Some face ->
    (forall j, (j < i)%nat -> nth_error faces j <> Some face) ->
    Host.find_face k faces face = inr ("Face" ++ Host.str_of_nat (k + i + 1))%string.
Proof.
  induction faces as [|f rest IH]; intros k i Hi Hfirst.
  - destruct i; discriminate.
  - cbn [Host.find_face]. destruct (Nat.eqb_spec f face) as [->|Hne].
    + destruct i as [|i]; [now rewrite Nat.add_0_r|].
      exfalso. apply (Hfirst 0%nat); [lia | reflexivity].
    + destruct i as [|i]; [simpl in Hi; congruence|].
      rewrite (IH (S k) i Hi).
      * replace (S k + i + 1)%nat with (k + S i + 1)%nat by lia. reflexivity.
      * intros j Hj. apply (Hfirst (S j)). lia.
Qed.

Lemma find_face_absent (faces : list nat) (face : nat) :
  forall k, ~ In face faces ->
    Host.find_face k faces face = inl "Selected face not found in object"%string.
Proof.
  induction faces as [|f rest IH]; intros k Hnot; [reflexivity|].
  simpl. destruct (Nat.eqb_spec f face) as [->|Hne].
  - exfalso. apply Hnot. now left.
  - apply IH. intros Hin. apply Hnot. now right.
Qed.

(** X1: [get_face_subname] names the selected face "Face" followed by the
    one-based position of its first occurrence among the faces of the
    object, and raises exactly when the face is not among them; it changes
    nothing. *)
Theorem face_subname_is_first_position (host : Host.Oracle) (obj : Host.ObjId)
    (face : Synthesis.Face) (w : Host.World) :
  let faces := Synthesis.shape_Faces (Host.shape_of host (Host.trace w) obj) in
  (forall i,
     nth_error faces i = Some (Synthesis.face_id face) ->
     (forall j, (j < i)%nat -> nth_error faces j <> Some (Synthesis.face_id face)) ->
     Host.get_face_subname host obj face w =
       (w, inr ("Face" ++ Host.str_of_nat (i + 1))%string)) /\
  (~ In (Synthesis.face_id face) faces ->
     Host.get_face_subname host obj face w =
       (w, inl "Selected face not found in object"%string)).
Proof.
  intros faces. split.
  - intros i Hi Hfirst.
    unfold Host.get_face_subname, Host.bind, Host.get_shape, Host.lift.
    fold faces. now rewrite (find_face_first faces _ 0 i Hi Hfirst).
  - intros Hnot.
    unfold Host.get_face_subname, Host.bind, Host.get_shape, Host.lift.
    fold faces. now rewrite (find_face_absent faces _ 0 Hnot).
Qed.

Lemma face_subname_is_first_position_witness :
  Host.get_face_subname quiet_host 0%nat top_face initial_world =
    (initial_world, inr "Face1"%string) /\
  Host.get_face_subname quiet_host 0%nat
    (Synthesis.mkFace 7 (mkVector 0 0 1) (mkVector 0 0 10)) initial_world =
    (initial_world, inl "Selected face not found in object"%string).
Proof.
  split.
  - apply (proj1 (face_subname_is_first_position quiet_host 0%nat top_face initial_world)
             0%nat); [reflexivity|].
    intros j Hj. lia.
  - apply (proj2 (face_subname_is_first_position quiet_host 0%nat
                    (Synthesis.mkFace 7 (mkVector 0 0 1) (mkVector 0 0 10))
                    initial_world)).
    simpl. intros [H|[]]. discriminate.
Defined.

(** ** The body that holds the selection *)

Lemma get_partdesign_body_more_fuel (doc : nat -> BodyLookup.DocNode) :
  forall fuel obj r,
    BodyLookup.get_partdesign_body fuel doc obj = Some r ->
    forall fuel', (fuel <= fuel')%nat ->
      BodyLookup.get_partdesign_body fuel' doc obj = Some r.
Proof.
  induction fuel as [|fuel IH]; intros obj r H fuel' Hle; [discriminate|].
  destruct fuel' as [|fuel']; [lia|].
  simpl in *.
  destruct (String.eqb (BodyLookup.TypeId (doc obj)) "PartDesign::Body"); [exact H|].
  destruct (BodyLookup.InList (doc obj)) as [[|parent rest]|]; try exact H.
  apply (IH parent r H). lia.
Qed.

(** X2: what [get_partdesign_body] returns is the nearest body on the chain
    of first parents of the selection, the selection itself included: the
    object returned is a body, and no object before it on the chain is
    one; it returns nothing only where the chain ends without a body. *)
Theorem partdesign_body_is_nearest (doc : nat -> BodyLookup.DocNode) :
  forall fuel obj,
    (forall b,
       BodyLookup.get_partdesign_body fuel doc obj = Some (Some b) ->
       exists k, (k < fuel)%nat /\ ancestor doc k obj = Some b /\
                 is_body doc b = true /\
                 forall j, (j < k)%nat ->
                   exists a, ancestor doc j obj = Some a /\ is_body doc a = false) /\
    (BodyLookup.get_partdesign_body fuel doc obj = Some None ->
     exists k top, (k < fuel)%nat /\ ancestor doc k obj = Some top /\
                   first_parent doc top = None /\
                   forall j, (j <= k)%nat ->
                     exists a, ancestor doc j obj = Some a /\ is_body doc a = false).
Proof.
  induction fuel as [|fuel IH]; intros obj; [split; intros; discriminate|].
  split.
  - intros b H. simpl in H.
    destruct (String.eqb (BodyLookup.TypeId (doc obj)) "PartDesign::Body") eqn:Hbody.
    + injection H as <-. exists 0%nat. repeat split; [lia | exact Hbody |].
      intros j Hj. lia.
    + destruct (BodyLookup.InList (doc obj)) as [[|parent rest]|] eqn:Hin;
        try discriminate.
      destruct (proj1 (IH parent) b H) as (k & Hk & Hanc & Hb & Hbefore).
      exists (S k). split; [lia|]. split.
      * simpl. unfold first_parent. now rewrite Hin.
      * split; [exact Hb|]. intros [|j] Hj.
        -- exists obj. split; [reflexivity | exact Hbody].
        -- destruct (Hbefore j) as (a & Ha & Hna); [lia|].
           exists a. split; [|exact Hna]. simpl. unfold first_parent. now rewrite Hin.
  - intros H. simpl in H.
    destruct (String.eqb (BodyLookup.TypeId (doc obj)) "PartDesign::Body") eqn:Hbody;
      [discriminate|].
    destruct (BodyLookup.InList (doc obj)) as [[|parent rest]|] eqn:Hin.
    + exists 0%nat, obj. split; [lia|]. split; [reflexivity|]. split.
      * unfold first_parent. now rewrite Hin.
      * intros j Hj. assert (j = 0%nat) by lia. subst. exists obj. now split.
    + destruct (proj2 (IH parent) H) as (k & top & Hk & Hanc & Htop & Hnone).
      exists (S k), top. split; [lia|]. split.
      * simpl. unfold first_parent. now rewrite Hin.
      * split; [exact Htop|]. intros [|j] Hj.
        -- exists obj. split; [reflexivity | exact Hbody].
        -- destruct (Hnone j) as (a & Ha & Hna); [lia|].
           exists a. split; [|exact Hna]. simpl. unfold first_parent. now rewrite Hin.
    + exists 0%nat, obj. split; [lia|]. split; [reflexivity|]. split.
      * unfold first_parent. now rewrite Hin.
      * intros j Hj. assert (j = 0%nat) by lia. subst. exists obj. now split.
Qed.

Lemma partdesign_body_is_nearest_witness :
  BodyLookup.get_partdesign_body 3 sample_doc 2%nat = Some (Some 1%nat) /\
  exists k, (k < 3)%nat /\ ancestor sample_doc k 2%nat = Some 1%nat /\
            is_body sample_doc 1%nat = true /\
            forall j, (j < k)%nat ->
              exists a, ancestor sample_doc j 2%nat = Some a /\ is_body sample_doc a = false.
Proof.
  assert (H : BodyLookup.get_partdesign_body 3 sample_doc 2%nat = Some (Some 1%nat))
    by reflexivity.
  split; [exact H|].
  exact (proj1 (partdesign_body_is_nearest sample_doc 3 2%nat) 1%nat H).
Defined.

(** X3: where the first parent of every object that is not a body ranks
    below the object (the chain of first parents has no cycle), the walk of
    [get_partdesign_body] ends within [rank obj + 1] rounds, and more
    rounds do not change what it returns. *)
Theorem partdesign_body_walk_ends (doc : nat -> BodyLookup.DocNode)
    (rank : nat -> nat) :
  (forall o parent,
     is_body doc o = false -> first_parent doc o = Some parent ->
     (rank parent < rank o)%nat) ->
  forall obj,
    exists r,
      BodyLookup.get_partdesign_body (S (rank obj)) doc obj = Some r /\
      forall fuel, (S (rank obj) <= fuel)%nat ->
        BodyLookup.get_partdesign_body fuel doc obj = Some r.
Proof.
  intros Hrank.
  assert (Hends : forall n obj, (rank obj < n)%nat ->
            exists r, BodyLookup.get_partdesign_body n doc obj = Some r).
  { induction n as [|n IH]; intros obj Hn; [lia|].
    simpl.
    destruct (String.eqb (BodyLookup.TypeId (doc obj)) "PartDesign::Body") eqn:Hbody;
      [eexists; reflexivity|].
    destruct (BodyLookup.InList (doc obj)) as [[|parent rest]|] eqn:Hin;
      try (eexists; reflexivity).
    apply IH.
    assert (rank parent < rank obj)%nat; [|lia].
    apply Hrank; [exact Hbody|]. unfold first_parent. now rewrite Hin. }
  intros obj. destruct (Hends (S (rank obj)) obj) as (r & Hr); [lia|].
  exists r. split; [exact Hr|].
  intros fuel Hfuel. eapply get_partdesign_body_more_fuel; eauto.
Qed.

Lemma partdesign_body_walk_ends_witness :
  exists r,
    BodyLookup.get_partdesign_body (S 2) sample_doc 2%nat = Some r /\
    forall fuel, (S 2 <= fuel)%nat ->
      BodyLookup.get_partdesign_body fuel sample_doc 2%nat = Some r.
Proof.
  apply (partdesign_body_walk_ends sample_doc (fun o => o) ).
  intros o parent Hbody Hparent.
  destruct o as [|[|[|o]]]; simpl in *; try discriminate.
  injection Hparent as <-. lia.
Defined.

(** ** The pattern generator and the validation of the input *)

(** X4: the linear pattern has [count] points (none for a count below 1),
    and the point of index [i] is [base + (i * spacing, 0, 0)]. *)
Theorem linear_pattern_points (base : Vector) (spacing : R) (n : Z) :
  List.length (Pattern.linear_centers base spacing n) = Z.to_nat n /\
  (forall i : nat, (i < Z.to_nat n)%nat ->
     nth_error (Pattern.linear_centers base spacing n) i =
     Some (vadd base (mkVector (INR i * spacing) 0 0))) /\
  ((n <= 0)%Z -> Pattern.linear_centers base spacing n = []).
Proof.
  unfold Pattern.linear_centers. split; [|split].
  - now rewrite length_map, range_length.
  - intros i Hi. rewrite nth_error_map, (range_nth_error n i Hi). simpl.
    now rewrite <- INR_IZR_INZ.
  - intros Hn. unfold range. replace (Z.to_nat n) with 0%nat by lia. reflexivity.
Qed.

Lemma linear_pattern_points_witness :
  (1 < Z.to_nat 3)%nat /\
  nth_error (Pattern.linear_centers (mkVector 0 0 10) 20 3) 1 =
    Some (vadd (mkVector 0 0 10) (mkVector (INR 1 * 20) 0 0)) /\
  (0 <= 0)%Z /\
  Pattern.linear_centers (mkVector 0 0 10) 20 0 = [].
Proof.
  assert (Hi : (1 < Z.to_nat 3)%nat) by (simpl; lia).
  assert (Hn : (0 <= 0)%Z) by lia.
  split; [exact Hi|]. split.
  - exact (proj1 (proj2 (linear_pattern_points (mkVector 0 0 10) 20 3)) 1%nat Hi).
  - split; [exact Hn|].
    exact (proj2 (proj2 (linear_pattern_points (mkVector 0 0 10) 20 0)) Hn).
Defined.

Lemma parse_base_none (tokens : list (option R)) :
  Pattern.parse_base tokens = None <->
  ~ exists x y z rest, tokens = Some x :: Some y :: Some z :: rest.
Proof.
  split.
  - intros H (x & y & z & rest & ->). discriminate.
  - intros H. destruct tokens as [|[x|] [|[y|] [|[z|] rest]]]; try reflexivity.
    exfalso. apply H. now exists x, y, z, rest.
Qed.

Section Validation.

Import Host Workbench.
Local Open Scope list_scope.

Variable host : Oracle.

(** X5: input that cannot be used stops [Activated] with one critical
    message box and nothing else.  This holds for the pattern generator
    when the base point has fewer than three tokens or a token among the
    first three that is not a number, and for the import when the path is
    empty or names no file, in which case the drawing is not even opened.  A
    base point that parses always gives as many points as the count. *)
Theorem invalid_input_only_reports :
  (forall obj face body dialog_data w,
     mode dialog_data = "Pattern Generator"%string ->
     (~ exists x y z rest, base_point dialog_data = Some x :: Some y :: Some z :: rest) ->
     exists e,
       Activated host obj face body dialog_data w =
       (log (MsgCritical "Error" ("Invalid pattern input:" ++ nl ++ e)%string) w, inr tt)) /\
  (forall obj face body dialog_data w,
     mode dialog_data = "Import DXF"%string ->
     dxf_file dialog_data = EmptyString \/ is_file host (dxf_file dialog_data) = false ->
     Activated host obj face body dialog_data w =
     (log (MsgCritical "Error" "Invalid DXF file.") w, inr tt)) /\
  (forall dialog_data x y z rest,
     base_point dialog_data = Some x :: Some y :: Some z :: rest ->
     exists centers,
       pattern_centers dialog_data = inr centers /\
       List.length centers = Z.to_nat (count dialog_data)).
Proof.
  split; [|split].
  - intros obj face body dialog_data w Hmode Hbad.
    apply parse_base_none in Hbad.
    unfold Activated. rewrite Hmode. cbn [String.eqb Ascii.eqb Bool.eqb].
    unfold pattern_centers. rewrite Hbad. eexists. reflexivity.
  - intros obj face body dialog_data w Hmode Hbad.
    unfold Activated. rewrite Hmode. cbn [String.eqb Ascii.eqb Bool.eqb].
    destruct Hbad as [Hempty|Hfile].
    + rewrite Hempty. reflexivity.
    + rewrite Hfile. now rewrite orb_true_r.
  - intros dialog_data x y z rest Hbase.
    unfold pattern_centers. rewrite Hbase. cbn [Pattern.parse_base].
    destruct (String.eqb (pattern_type dialog_data) "Linear"); eexists; split;
      try reflexivity.
    + unfold Pattern.linear_centers. now rewrite length_map, range_length.
    + unfold Pattern.polar_centers. now rewrite length_map, range_length.
Qed.

(** ** Reading a drawing *)

(** X6: [extract_centers_from_dxf] never raises.  It returns the centers
    that [traverse] finds when the import returns a root, also when the
    removal of the imported object raises afterwards, and the empty list
    when the import raises or returns nothing; it calls nothing but the
    import, the removal and the error print, and it removes the imported
    root exactly when there is one. *)
Theorem dxf_extraction_never_raises (dxf_path layer_filter : string) (w : World) :
  exists w' evs,
    extract_centers_from_dxf host dxf_path layer_filter w =
      (w', inr match import_dxf host (trace w) dxf_path with
               | Dxf.ImportRoot _ dxf_obj => Dxf.traverse layer_filter dxf_obj
               | _ => []
               end) /\
    trace w' = trace w ++ ImportDXF dxf_path :: evs /\
    Forall is_import_event evs /\
    match import_dxf host (trace w) dxf_path with
    | Dxf.ImportRoot name _ => exists rest, evs = RemoveObject name :: rest
    | Dxf.ImportRaises _ => exists msg, evs = [PrintError msg]
    | Dxf.ImportNothing => evs = []
    end.
Proof.
  unfold extract_centers_from_dxf, importDXF_open. unfold bind at 1.
  destruct (import_dxf host (trace w) dxf_path) as [e| |name dxf_obj].
  - eexists _, [_]. split; [reflexivity|]. cbn [tell bind ret log trace].
    rewrite <- app_assoc. split; [reflexivity|]. split; [repeat constructor|].
    eexists. reflexivity.
  - eexists _, []. split; [reflexivity|]. cbn [log trace].
    split; [reflexivity|]. split; [constructor | reflexivity].
  - unfold bind, try_except, call, tell, ret. cbn [log trace].
    destruct (raises host ((trace w ++ [ImportDXF dxf_path]))
                (RemoveObject name)) as [e|].
    + eexists _, [_; _]. split; [reflexivity|]. cbn [log trace].
      rewrite <- !app_assoc. split; [reflexivity|].
      split; [repeat constructor|]. eexists. reflexivity.
    + eexists _, [_]. split; [reflexivity|]. cbn [log trace].
      rewrite <- !app_assoc. split; [reflexivity|].
      split; [repeat constructor|]. eexists. reflexivity.
Qed.

End Validation.

Lemma invalid_input_only_reports_witness :
  let bad := mkDialogData "Pattern Generator" "M3 Captive Nut" 6 "Through All" 20 90 true
               "Linear" [Some 0; None; Some 10] 3 20 30 30 EmptyString "All" in
  (exists e,
     Workbench.Activated quiet_host 0%nat top_face None bad initial_world =
     (Host.log (Host.MsgCritical "Error" ("Invalid pattern input:" ++ Host.nl ++ e)%string)
               initial_world, inr tt)) /\
  exists centers,
    Workbench.pattern_centers default_dialog = inr centers /\
    List.length centers = Z.to_nat (count default_dialog).
Proof.
  intros bad.
  destruct (invalid_input_only_reports quiet_host) as (Hpattern & _ & Hcount).
  split.
  - apply Hpattern; [reflexivity|].
    intros (x & y & z & rest & H). discriminate.
  - apply (Hcount default_dialog 0 0 10 []). reflexivity.
Defined.

(** X7: a center returned by [traverse] is the center of a circular edge
    (a circle or an arc) of a node of the drawing that passes the filter;
    and with the filter "All" the result is the centers of the circular
    edges of all nodes, parents before children. *)
Theorem traverse_returns_centers_of_passing_nodes (layer_filter : string)
    (obj : Dxf.DocObject) :
  (forall c, In c (Dxf.traverse layer_filter obj) ->
     exists node, In node (all_nodes obj) /\
                  passes layer_filter (Dxf.Proxy node) = true /\
                  In c (circular_edge_centers (Dxf.Shape node))) /\
  Dxf.traverse "All" obj =
    flat_map (fun node => circular_edge_centers (Dxf.Shape node)) (all_nodes obj).
Proof.
  assert (Hnodes : forall proxy shape outlist,
    all_nodes (Dxf.mkDocObject proxy shape outlist) =
    Dxf.mkDocObject proxy shape outlist :: flat_map all_nodes outlist).
  { reflexivity. }
  split.
  - induction obj as [proxy shape outlist IH] using DocObject_induction.
    intros c Hc. rewrite traverse_unfold, shape_centers_circular in Hc.
    destruct (passes layer_filter proxy) eqn:Hp; [|destruct Hc].
    rewrite Hnodes. apply in_app_or in Hc. destruct Hc as [Hown|Hchild].
    + exists (Dxf.mkDocObject proxy shape outlist). split; [now left|]. now split.
    + apply in_flat_map in Hchild. destruct Hchild as (child & Hin & Hcc).
      rewrite Forall_forall in IH.
      destruct (IH child Hin c Hcc) as (node & Hnode & Hpass & Hcenter).
      exists node. split; [|now split]. right.
      apply in_flat_map. now exists child.
  - induction obj as [proxy shape outlist IH] using DocObject_induction.
    rewrite traverse_unfold, Hnodes, shape_centers_circular.
    replace (passes "All" proxy) with true by (now destruct proxy as [[l|]|]).
    cbn [flat_map Dxf.Shape]. f_equal.
    induction IH as [|child rest Hchild _ IHrest]; [reflexivity|].
    cbn [flat_map]. now rewrite flat_map_app, Hchild, IHrest.
Qed.

Lemma traverse_returns_centers_of_passing_nodes_witness :
  In (mkVector 1 2 0) (Dxf.traverse "B" grouped_drawing) /\
  exists node, In node (all_nodes grouped_drawing) /\
               passes "B" (Dxf.Proxy node) = true /\
               In (mkVector 1 2 0) (circular_edge_centers (Dxf.Shape node)).
Proof.
  assert (H : In (mkVector 1 2 0) (Dxf.traverse "B" grouped_drawing))
    by (left; reflexivity).
  split; [exact H|].
  exact (proj1 (traverse_returns_centers_of_passing_nodes "B" grouped_drawing) _ H).
Defined.

(** ** The outline of the pocket *)

Lemma hex_point_radius (outer : R) (i : Z) :
  vx (Synthesis.hex_point outer i) * vx (Synthesis.hex_point outer i)
  + vy (Synthesis.hex_point outer i) * vy (Synthesis.hex_point outer i)
  = (outer / 2) * (outer / 2) /\
  vz (Synthesis.hex_point outer i) = 0.
Proof.
  unfold Synthesis.hex_point. simpl. split; [|reflexivity].
  pose proof (sin2_cos2 (radians (60 * IZR i + 30))) as H. unfold Rsqr in H.
  nra.
Qed.

(** X8: the pocket of a hex insert is the extrusion, along local -Z by the
    depth, of a closed polygon of seven points, the last being the first,
    that all lie in the plane [z = 0] at the distance [(nut width + 1) / 2]
    from the origin. *)
Theorem hex_pocket_is_closed_hexagon (data : InsertSpec) (depth : R) :
  pocket_style data = "hex"%string ->
  exists pts,
    Synthesis.make_pocket data depth =
      Synthesis.extrudePolygonFace pts (mkVector 0 0 (- depth)) /\
    List.length pts = 7%nat /\
    nth_error pts 6 = nth_error pts 0 /\
    Forall (fun p => vx p * vx p + vy p * vy p
                       = ((fst (nut data) + 1) / 2) * ((fst (nut data) + 1) / 2)
                     /\ vz p = 0) pts.
Proof.
  intros Hstyle. unfold Synthesis.make_pocket. rewrite Hstyle.
  cbn [String.eqb Ascii.eqb Bool.eqb].
  eexists. split; [reflexivity|].
  unfold range. cbn [Z.to_nat Pos.to_nat Pos.iter_op Nat.add seq map app hd].
  split; [reflexivity|]. split; [reflexivity|].
  repeat (constructor; [apply hex_point_radius|]). constructor.
Qed.

Lemma hex_pocket_is_closed_hexagon_witness :
  exists pts,
    Synthesis.make_pocket M3_Captive_Nut 6 =
      Synthesis.extrudePolygonFace pts (mkVector 0 0 (- 6)) /\
    List.length pts = 7%nat /\
    nth_error pts 6 = nth_error pts 0 /\
    Forall (fun p => vx p * vx p + vy p * vy p
                       = ((fst (nut M3_Captive_Nut) + 1) / 2)
                         * ((fst (nut M3_Captive_Nut) + 1) / 2)
                     /\ vz p = 0) pts.
Proof. apply (hex_pocket_is_closed_hexagon M3_Captive_Nut 6). reflexivity. Defined.

Lemma range_6 : range 6 = [0; 1; 2; 3; 4; 5]%Z.
Proof. reflexivity. Qed.

Lemma radians_full_turn (deg : R) : radians (deg + 360) = radians deg + 2 * INR 1 * PI.
Proof. unfold radians. simpl INR. field. Qed.

(** X9: the profile that the body path draws into the nut sketch is the
    outline of the solid that the preview path extrudes, moved to the
    center in the sketch plane: segment by segment for a hex or rect
    insert, and a circle of the radius of the cylinder for a round one. *)
Theorem body_profile_is_preview_outline (data : InsertSpec) (depth : R)
    (local_center : Vector) :
  match Synthesis.make_pocket data depth with
  | Synthesis.extrudePolygonFace pts _ =>
      Workbench.nut_profile data local_center = outline_at local_center pts
  | Synthesis.makeCylinder radius _ _ _ =>
      Workbench.nut_profile data local_center =
      [Circle (mkVector (vx local_center) (vy local_center) 0) (mkVector 0 0 1) radius]
  | _ => False
  end.
Proof.
  unfold Synthesis.make_pocket, Workbench.nut_profile.
  destruct (String.eqb (pocket_style data) "hex").
  - rewrite range_6. unfold outline_at.
    cbn [map app hd tl combine fst snd].
    unfold Workbench.hex_edge, Synthesis.hex_point. cbn [vx vy vz].
    replace (60 * (5 + 1) + 30) with (60 * 0 + 30 + 360) by ring.
    rewrite radians_full_turn, cos_period, sin_period.
    replace (60 * (0 + 1) + 30) with (60 * 1 + 30) by ring.
    replace (60 * (1 + 1) + 30) with (60 * 2 + 30) by ring.
    replace (60 * (2 + 1) + 30) with (60 * 3 + 30) by ring.
    replace (60 * (3 + 1) + 30) with (60 * 4 + 30) by ring.
    replace (60 * (4 + 1) + 30) with (60 * 5 + 30) by ring.
    reflexivity.
  - destruct (String.eqb (pocket_style data) "rect").
    + destruct (nut data) as [w h].
      unfold outline_at, Workbench.rect_points.
      cbn [seq map nth Nat.add tl combine fst snd vx vy vz].
      repeat (f_equal; try (apply vector_eq; simpl; field)).
    + reflexivity.
Qed.

(** ** The compound of the preview *)

Lemma preview_loop_with_hole rot insert pd ht hd ca normal hole :
  (if String.eqb ht "Through All"
   then inr (Synthesis.make_bolt_hole insert 1000)
   else if String.eqb ht "Countersunk"
        then Synthesis.make_countersunk_hole insert hd ca
        else inr (Synthesis.make_bolt_hole insert hd)) = inr hole ->
  forall centers,
    Synthesis.preview_loop rot insert pd ht hd ca normal centers =
    inr (placed_pairs rot (Synthesis.make_pocket insert pd) hole normal centers).
Proof.
  intros Hhole. induction centers as [|c rest IH]; [reflexivity|].
  cbn [Synthesis.preview_loop]. unfold Synthesis.preview_shapes_at.
  rewrite Hhole, IH. reflexivity.
Qed.

(** X10: for a known insert the preview holds two solids for every center,
    the pocket and then the hole, in the order of the centers, all turned
    by the same rotation.  The hole of "Through All" is the bolt cylinder
    of length 1000 whatever the hole depth, the hole of any request other
    than "Through All" and "Countersunk" is the bolt cylinder of the hole
    depth.  An unknown insert raises whatever the centers are, and a
    countersunk hole that cannot be built makes the whole preview fail as
    soon as there is one center. *)
Theorem preview_has_pocket_and_hole_per_center
    (rot : Vector -> Vector -> Rotation) (centers : list Vector)
    (base_obj : Synthesis.BaseShape) (face : Synthesis.Face) (dialog_data : DialogData) :
  let normal := Synthesis.preview_normal (Synthesis.normalAt00 face)
                  (Synthesis.shape_CenterOfMass base_obj)
                  (Synthesis.face_CenterOfMass face) in
  (forall e, dict_get INSERT_TYPES (insert_type dialog_data) = inl e ->
     Synthesis.make_preview rot centers base_obj face dialog_data = inl e) /\
  (forall insert, dict_get INSERT_TYPES (insert_type dialog_data) = inr insert ->
     let pocket := Synthesis.make_pocket insert (pocket_depth dialog_data) in
     (hole_type dialog_data = "Through All"%string ->
        Synthesis.make_preview rot centers base_obj face dialog_data =
        inr (Synthesis.makeCompound
               (placed_pairs rot pocket (Synthesis.make_bolt_hole insert 1000)
                             normal centers))) /\
     (hole_type dialog_data <> "Through All"%string ->
      hole_type dialog_data <> "Countersunk"%string ->
        Synthesis.make_preview rot centers base_obj face dialog_data =
        inr (Synthesis.makeCompound
               (placed_pairs rot pocket
                  (Synthesis.make_bolt_hole insert (hole_depth dialog_data))
                  normal centers))) /\
     (hole_type dialog_data = "Countersunk"%string ->
      forall hole,
        Synthesis.make_countersunk_hole insert (hole_depth dialog_data)
          (countersink_angle dialog_data) = inr hole ->
        Synthesis.make_preview rot centers base_obj face dialog_data =
        inr (Synthesis.makeCompound (placed_pairs rot pocket hole normal centers))) /\
     (hole_type dialog_data = "Countersunk"%string ->
      forall e,
        Synthesis.make_countersunk_hole insert (hole_depth dialog_data)
          (countersink_angle dialog_data) = inl e ->
        centers <> [] ->
        Synthesis.make_preview rot centers base_obj face dialog_data = inl e)) /\
  (forall pocket hole,
     List.length (placed_pairs rot pocket hole normal centers)
     = (2 * List.length centers)%nat).
Proof.
  intros normal. split; [|split].
  - intros e He. unfold Synthesis.make_preview. now rewrite He.
  - intros insert Hinsert pocket.
    unfold Synthesis.make_preview. rewrite Hinsert. fold normal.
    repeat split.
    + intros Hta. rewrite (preview_loop_with_hole _ _ _ _ _ _ _
                             (Synthesis.make_bolt_hole insert 1000)); [reflexivity|].
      now rewrite Hta.
    + intros Hta Hcs. apply String.eqb_neq in Hta. apply String.eqb_neq in Hcs.
      rewrite (preview_loop_with_hole _ _ _ _ _ _ _
                 (Synthesis.make_bolt_hole insert (hole_depth dialog_data)));
        [reflexivity|].
      now rewrite Hta, Hcs.
    + intros Hcs hole Hhole.
      rewrite (preview_loop_with_hole _ _ _ _ _ _ _ hole); [reflexivity|].
      now rewrite Hcs.
    + intros Hcs e He Hne. destruct centers as [|c rest]; [contradiction|].
      cbn [Synthesis.preview_loop]. unfold Synthesis.preview_shapes_at.
      rewrite Hcs. cbn [String.eqb Ascii.eqb Bool.eqb]. now rewrite He.
  - intros pocket hole. unfold placed_pairs.
    induction centers as [|c rest IH]; [reflexivity|].
    cbn [flat_map]. rewrite length_app, IH. simpl. lia.
Qed.

Lemma preview_has_pocket_and_hole_per_center_witness :
  let normal := Synthesis.preview_normal (mkVector 0 0 1) (mkVector 0 0 5)
                  (mkVector 0 0 10) in
  dict_get INSERT_TYPES (insert_type default_dialog) = inr M3_Captive_Nut /\
  hole_type default_dialog = "Through All"%string /\
  Synthesis.make_preview sample_rotation three_points box_shape top_face default_dialog =
  inr (Synthesis.makeCompound
         (placed_pairs sample_rotation (Synthesis.make_pocket M3_Captive_Nut 6)
            (Synthesis.make_bolt_hole M3_Captive_Nut 1000) normal three_points)).
Proof.
  intros normal.
  assert (Hinsert : dict_get INSERT_TYPES (insert_type default_dialog) = inr M3_Captive_Nut)
    by reflexivity.
  assert (Hta : hole_type default_dialog = "Through All"%string) by reflexivity.
  split; [exact Hinsert|]. split; [exact Hta|].
  destruct (preview_has_pocket_and_hole_per_center sample_rotation three_points
              box_shape top_face default_dialog) as (_ & Hknown & _).
  exact (proj1 (Hknown M3_Captive_Nut Hinsert) Hta).
Defined.

(** X11: for an insert with a positive bolt clearance and an included angle
    between 0 and 180 degrees, the countersunk hole is built and the height
    of its cone is positive; for the angle 90 degrees that height is half
    the bolt clearance. *)
Theorem countersink_cone_height_positive (data : InsertSpec) (depth angle : R) :
  0 < bolt_clearance data -> 0 < angle < 180 ->
  exists height,
    Synthesis.make_countersunk_hole data depth angle =
    inr (Synthesis.fuse
           (Synthesis.makeCylinder (bolt_clearance data / 2) depth
              (mkVector 0 0 0) (mkVector 0 0 (-1)))
           (Synthesis.makeCone (bolt_clearance data) (bolt_clearance data / 2) height
              (mkVector 0 0 0) (mkVector 0 0 (-1)))) /\
    0 < height /\
    (angle = 90 -> height = bolt_clearance data / 2).
Proof.
  intros Hc [Hlo Hhi].
  assert (Hpi := PI_RGT_0).
  assert (Htan : 0 < tan (radians (angle / 2))).
  { apply tan_gt_0; unfold radians; nra. }
  unfold Synthesis.make_countersunk_hole, Synthesis.fdiv.
  destruct (Req_dec_T (2 * tan (radians (angle / 2))) 0) as [Hz|_]; [lra|].
  eexists. split; [|split].
  - replace (bolt_clearance data * 2 / 2) with (bolt_clearance data) by field.
    reflexivity.
  - apply Rdiv_lt_0_compat; lra.
  - intros ->. replace (radians (90 / 2)) with (PI / 4) by (unfold radians; field).
    rewrite tan_PI4. field.
Qed.

Lemma countersink_cone_height_positive_witness :
  0 < bolt_clearance M3_Captive_Nut /\ 0 < 90 < 180 /\
  exists height,
    Synthesis.make_countersunk_hole M3_Captive_Nut 20 90 =
    inr (Synthesis.fuse
           (Synthesis.makeCylinder (bolt_clearance M3_Captive_Nut / 2) 20
              (mkVector 0 0 0) (mkVector 0 0 (-1)))
           (Synthesis.makeCone (bolt_clearance M3_Captive_Nut)
              (bolt_clearance M3_Captive_Nut / 2) height
              (mkVector 0 0 0) (mkVector 0 0 (-1)))) /\
    0 < height /\
    (90 = 90 -> height = bolt_clearance M3_Captive_Nut / 2).
Proof.
  assert (Hc : 0 < bolt_clearance M3_Captive_Nut) by (simpl; lra).
  assert (Ha : 0 < 90 < 180) by lra.
  split; [exact Hc|]. split; [exact Ha|].
  exact (countersink_cone_height_positive M3_Captive_Nut 20 90 Hc Ha).
Defined.

(** ** Features of the body path *)

Section BodyPath.

Import Host Workbench.
Local Open Scope list_scope.

Variable host : Oracle.

Lemma for_each_call_trace (sketch : ObjId) (l : list Geometry) :
  forall w w' u,
    for_each l (fun g => call host (AddGeometry sketch g)) w = (w', inr u) ->
    trace w' = trace w ++ map (AddGeometry sketch) l.
Proof.
  induction l as [|g rest IH]; intros w w' u H.
  - apply ret_inv in H. destruct H as [-> _]. now rewrite app_nil_r.
  - cbn [for_each] in H. apply bind_inr in H. destruct H as (w1 & u1 & H1 & H).
    apply call_inr_trace in H1. rewrite (IH _ _ _ H), H1, <- app_assoc. reflexivity.
Qed.

(** A face name that [find_face] returns is the name of the first position
    of the face. *)
Lemma find_face_inr (faces : list nat) (face : nat) :
  forall k name,
    find_face k faces face = inr name ->
    exists i, first_position faces face i /\
              name = ("Face" ++ decimal (S (k + i)))%string.
Proof.
  induction faces as [|f rest IH]; intros k name H; [discriminate|].
  cbn [find_face] in H. destruct (Nat.eqb_spec f face) as [->|Hne].
  - injection H as <-. exists 0%nat. split.
    + split; [reflexivity | intros j Hj; lia].
    + unfold decimal, str_of_nat. now rewrite Nat.add_0_r, Nat.add_1_r.
  - destruct (IH (S k) name H) as (i & [Hi Hfirst] & Hname).
    exists (S i). split.
    + split; [exact Hi|]. intros [|j] Hj; [simpl; congruence|].
      apply Hfirst. lia.
    + rewrite Hname. now rewrite Nat.add_succ_r.
Qed.

Lemma attach_sketch_events new_sketch body face sketch w w' u :
  attach_sketch host new_sketch body face sketch w = (w', inr u) ->
  exists attach,
    trace w' = trace w ++ attach /\
    attachment host new_sketch body face sketch (trace w) attach.
Proof.
  unfold attach_sketch, attachment. intros H. destruct sketch as [user_sketch|].
  - apply bind_inr in H. destruct H as (w1 & u1 & H1 & H). apply call_inr_trace in H1.
    apply bind_inr in H. destruct H as (w2 & u2 & H2 & H). apply call_inr_trace in H2.
    apply bind_inr in H. destruct H as (w3 & p & H3 & H).
    unfold get_placement in H3. injection H3 as <- <-.
    apply call_inr_trace in H.
    eexists. split; [|reflexivity]. cbv zeta.
    rewrite H, H2, H1, <- !app_assoc. reflexivity.
  - apply bind_inr in H. destruct H as (w1 & face_name & H1 & H).
    assert (Hw1 : w1 = w /\
                  find_face 0 (Synthesis.shape_Faces (shape_of host (trace w) body))
                            (Synthesis.face_id face) = inr face_name).
    { unfold get_face_subname, bind, get_shape, lift in H1. now inversion H1. }
    destruct Hw1 as [-> Hname].
    apply find_face_inr in Hname. destruct Hname as (i & Hfirst & ->).
    apply bind_inr in H. destruct H as (w2 & u2 & H2 & H). apply call_inr_trace in H2.
    apply call_inr_trace in H.
    exists (attached_to_face new_sketch body i). split.
    + rewrite H, H2, <- !app_assoc. reflexivity.
    + now exists i.
Qed.

(** X12: in a run of the first step of [create_partdesign_pocket] that
    returns, the nut sketch is created and attached: like the user's
    sketch where there is one (its support, its map mode, its placement),
    else flat on the selected face of the body, named by its first
    position among the faces of the body.  Then the sketch receives
    exactly the profile of the insert around the center in its own plane,
    and the nut pocket is a blind pocket ([Type] 0) of the pocket depth on
    that sketch; the sketch and then the pocket are added to the body.  The
    hole type plays no part. *)
Theorem nut_pocket_is_blind_on_profile
    (body : ObjId) (face : Synthesis.Face) (center : Vector) (insert : InsertSpec)
    (pocket_depth : R) (sketch : option ObjId) (w w' : World) (nut_pocket : ObjId) :
  create_nut_pocket host body face center insert pocket_depth sketch w
    = (w', inr nut_pocket) ->
  exists nut_sketch attach local_center,
    nut_sketch = next_obj w /\
    attachment host nut_sketch body face sketch
      (trace w ++ [AddObject "Sketcher::SketchObject" "CaptiveNut_Nut" nut_sketch])
      attach /\
    local_center =
      multVec (inverse (placement_of host
                          (trace w
                           ++ AddObject "Sketcher::SketchObject" "CaptiveNut_Nut" nut_sketch
                           :: attach ++ [Recompute])
                          nut_sketch))
              center /\
    trace w' =
      trace w
      ++ AddObject "Sketcher::SketchObject" "CaptiveNut_Nut" nut_sketch
      :: attach
      ++ Recompute
      :: map (AddGeometry nut_sketch) (nut_profile insert local_center)
      ++ [Recompute;
          AddObject "PartDesign::Pocket" "CaptiveNut_NutPocket" nut_pocket;
          SetProp nut_pocket "Profile" (VObj nut_sketch);
          SetProp nut_pocket "Midplane" (VInt 0);
          SetProp nut_pocket "Reversed" (VInt 0);
          SetProp nut_pocket "Type" (VInt 0);
          SetProp nut_pocket "Length" (VFloat pocket_depth);
          BodyAddObject body nut_sketch;
          BodyAddObject body nut_pocket;
          Recompute].
Proof.
  unfold create_nut_pocket. intros H.
  apply bind_inr in H. destruct H as (w1 & nut_sketch & H1 & H).
  apply addObject_inr in H1. destruct H1 as [Hid H1].
  apply bind_inr in H. destruct H as (w2 & u2 & H2 & H).
  apply attach_sketch_events in H2. destruct H2 as (attach & H2 & Hattach).
  rewrite H1 in Hattach.
  apply bind_inr in H. destruct H as (w3 & u3 & H3 & H). apply call_inr_trace in H3.
  apply bind_inr in H. destruct H as (w4 & placement & H4 & H).
  unfold get_placement in H4. injection H4 as <- <-.
  apply bind_inr in H. destruct H as (w5 & u5 & H5 & H).
  apply for_each_call_trace in H5.
  apply bind_inr in H. destruct H as (w6 & u6 & H6 & H). apply call_inr_trace in H6.
  apply bind_inr in H. destruct H as (w7 & np & H7 & H).
  apply addObject_inr in H7. destruct H7 as [Hnp H7].
  apply bind_inr in H. destruct H as (w8 & u8 & H8 & H). apply call_inr_trace in H8.
  apply bind_inr in H. destruct H as (w9 & u9 & H9 & H). apply call_inr_trace in H9.
  apply bind_inr in H. destruct H as (w10 & u10 & H10 & H). apply call_inr_trace in H10.
  apply bind_inr in H. destruct H as (w11 & u11 & H11 & H). apply call_inr_trace in H11.
  apply bind_inr in H. destruct H as (w12 & u12 & H12 & H). apply call_inr_trace in H12.
  apply bind_inr in H. destruct H as (w13 & u13 & H13 & H). apply call_inr_trace in H13.
  apply bind_inr in H. destruct H as (w14 & u14 & H14 & H). apply call_inr_trace in H14.
  apply bind_inr in H. destruct H as (w15 & u15 & H15 & H). apply call_inr_trace in H15.
  apply ret_inv in H. destruct H as [-> H]. injection H as <-.
  exists nut_sketch, attach, (multVec (inverse (placement_of host (trace w3) nut_sketch)) center).
  split; [exact Hid|]. split; [exact Hattach|].
  assert (Hw3 : trace w3 =
                trace w ++ AddObject "Sketcher::SketchObject" "CaptiveNut_Nut" nut_sketch
                :: attach ++ [Recompute]).
  { rewrite H3, H2, H1, <- !app_assoc. reflexivity. }
  split; [now rewrite Hw3|].
  rewrite H15, H14, H13, H12, H11, H10, H9, H8, H7, H6, H5, Hw3.
  rewrite <- !app_assoc. cbn [app]. rewrite <- !app_assoc. reflexivity.
Qed.

Lemma Activated_body_path (obj : ObjId) (face : Synthesis.Face) (body : ObjId)
    (dialog_data : DialogData) (c : Vector) (rest : list Vector) (w : World) :
  let n := str_of_nat (List.length (c :: rest)) in
  let asked := log (MsgQuestion "Create Pockets in Body?"
                      ("Add " ++ n
                       ++ " captive nut pockets directly into the PartDesign Body?")%string) w in
  Activated_with_centers host obj face (Some body) dialog_data (c :: rest) w =
  if auto_boolean dialog_data then
    if reply_yes host (trace asked) then
      (log (PrintMessage ("‚úÖ " ++ n ++ " pockets added to Body." ++ nl)%string)
           (fst (commit_points host body face dialog_data None (c :: rest) asked)), inr tt)
    else (asked, inr tt)
  else
    (log (PrintMessage ("‚ÑπÔ∏è Ready to create " ++ n
                        ++ " pockets in Body (auto-create disabled)." ++ nl)%string) w,
     inr tt).
Proof.
  intros n asked. unfold Activated_with_centers.
  destruct (auto_boolean dialog_data); [|reflexivity].
  unfold bind at 1. unfold question.
  change (log (MsgQuestion "Create Pockets in Body?"
                 ("Add " ++ str_of_nat (List.length (c :: rest))
                  ++ " captive nut pockets directly into the PartDesign Body?")%string) w)
    with asked.
  destruct (reply_yes host (trace asked)); [|reflexivity].
  unfold bind at 1.
  pose proof (commit_from_returns host body face dialog_data None (c :: rest) 0 asked)
    as Hret.
  unfold commit_points.
  destruct (commit_from host body face dialog_data None 0 (c :: rest) asked) as [w1 r].
  simpl in Hret. subst r. reflexivity.
Qed.

(** X13: on the body path [Activated] never raises; with the auto-create
    box unchecked it only prints that it is ready, after the answer No it
    does nothing beyond the question, and after the answer Yes it runs the
    commit and then prints that all [n] pockets were added, whatever the
    attempts did. *)
Theorem body_path_creates_only_after_yes
    (obj : ObjId) (face : Synthesis.Face) (body : ObjId) (dialog_data : DialogData)
    (c : Vector) (rest : list Vector) (w : World) :
  let centers := c :: rest in
  let n := str_of_nat (List.length centers) in
  let asked := log (MsgQuestion "Create Pockets in Body?"
                      ("Add " ++ n
                       ++ " captive nut pockets directly into the PartDesign Body?")%string) w in
  let run := Activated_with_centers host obj face (Some body) dialog_data centers w in
  snd run = inr tt /\
  (auto_boolean dialog_data = false ->
     fst run = log (PrintMessage ("‚ÑπÔ∏è Ready to create " ++ n
                      ++ " pockets in Body (auto-create disabled)." ++ nl)%string) w) /\
  (auto_boolean dialog_data = true -> reply_yes host (trace asked) = false ->
     fst run = asked) /\
  (auto_boolean dialog_data = true -> reply_yes host (trace asked) = true ->
     fst run = log (PrintMessage ("‚úÖ " ++ n ++ " pockets added to Body." ++ nl)%string)
                   (fst (commit_points host body face dialog_data None centers asked))).
Proof.
  intros centers n asked run. unfold run, centers.
  rewrite Activated_body_path. cbv zeta. fold centers. fold n. fold asked.
  destruct (auto_boolean dialog_data); [destruct (reply_yes host (trace asked))|];
    repeat split; intros; try reflexivity; discriminate.
Qed.

End BodyPath.

Lemma nut_pocket_is_blind_on_profile_witness :
  let run := Workbench.create_nut_pocket quiet_host 0%nat top_face (mkVector 0 0 10)
               M3_Captive_Nut 6 None initial_world in
  run = (fst run, inr 2%nat) /\
  exists nut_sketch local_center,
    nut_sketch = 1%nat /\
    List.length
      (filter (fun ev => match ev with Host.AddGeometry _ _ => true | _ => false end)
              (Host.trace (fst run))) = 6%nat /\
    Host.trace (fst run) =
      Host.trace initial_world
      ++ Host.AddObject "Sketcher::SketchObject" "CaptiveNut_Nut" nut_sketch
      :: [Host.SetProp nut_sketch "AttachmentSupport" (Host.VSupport 0%nat "Face1");
          Host.SetProp nut_sketch "MapMode" (Host.VStr "FlatFace")]
      ++ Host.Recompute
      :: map (Host.AddGeometry nut_sketch)
             (Workbench.nut_profile M3_Captive_Nut local_center)
      ++ [Host.Recompute;
          Host.AddObject "PartDesign::Pocket" "CaptiveNut_NutPocket" 2%nat;
          Host.SetProp 2%nat "Profile" (Host.VObj nut_sketch);
          Host.SetProp 2%nat "Midplane" (Host.VInt 0);
          Host.SetProp 2%nat "Reversed" (Host.VInt 0);
          Host.SetProp 2%nat "Type" (Host.VInt 0);
          Host.SetProp 2%nat "Length" (Host.VFloat 6);
          Host.BodyAddObject 0%nat nut_sketch;
          Host.BodyAddObject 0%nat 2%nat;
          Host.Recompute].
Proof.
  intros run.
  assert (Hrun : run = (fst run, inr 2%nat)).
  { rewrite (surjective_pairing run) at 1. f_equal; reflexivity. }
  split; [exact Hrun|].
  destruct (nut_pocket_is_blind_on_profile quiet_host 0%nat top_face (mkVector 0 0 10)
              M3_Captive_Nut 6 None initial_world (fst run) 2%nat Hrun)
    as (nut_sketch & attach & local_center & Hid & Hattach & _ & Htrace).
  exists nut_sketch, local_center.
  split; [exact Hid|]. split; [reflexivity|].
  destruct Hattach as (i & [Hi _] & Hattach).
  assert (Hzero : i = 0%nat).
  { destruct i as [|[|i]]; [reflexivity | discriminate Hi | discriminate Hi]. }
  subst i. rewrite Hattach in Htrace. exact Htrace.
Defined.

Lemma body_path_creates_only_after_yes_witness :
  let n := Host.str_of_nat (List.length three_points) in
  let asked := Host.log (Host.MsgQuestion "Create Pockets in Body?"
                 ("Add " ++ n
                  ++ " captive nut pockets directly into the PartDesign Body?")%string)
                 initial_world in
  let run := Workbench.Activated_with_centers quiet_host 0%nat top_face (Some 0%nat)
               default_dialog three_points initial_world in
  auto_boolean default_dialog = true /\
  Host.reply_yes quiet_host (Host.trace asked) = true /\
  snd run = inr tt /\
  fst run = Host.log (Host.PrintMessage
                        ("‚úÖ " ++ n ++ " pockets added to Body." ++ Host.nl)%string)
              (fst (Workbench.commit_points quiet_host 0%nat top_face default_dialog None
                      three_points asked)) /\
  List.length (filter is_nut_sketch_creation (Host.trace (fst run))) = 3%nat.
Proof.
  intros n asked run.
  assert (Hauto : auto_boolean default_dialog = true) by reflexivity.
  assert (Hyes : Host.reply_yes quiet_host (Host.trace asked) = true) by reflexivity.
  destruct (body_path_creates_only_after_yes quiet_host 0%nat top_face 0%nat
              default_dialog (mkVector 0 0 10) [mkVector 20 0 10; mkVector 40 0 10]
              initial_world) as (Hret & _ & _ & Hcommit).
  split; [exact Hauto|]. split; [exact Hyes|]. split; [exact Hret|].
  split; [exact (Hcommit Hauto Hyes) | reflexivity].
Defined.

(** ** The boolean path *)

Section BooleanPath.

Import Host Workbench.
Local Open Scope list_scope.

Variable host : Oracle.

Lemma emits_preview_events preview :
  emits is_preview_event (add_preview host preview).
Proof.
  unfold add_preview.
  apply emits_bind; [apply emits_addObject; intros; now split | intros preview_obj].
  repeat (apply emits_bind; [now apply emits_call | intros _]).
  apply emits_ret.
Qed.

Lemma emits_no_cut_preview preview : emits not_a_cut (add_preview host preview).
Proof.
  eapply emits_weaken; [|apply emits_preview_events].
  intros [] H; simpl in *; auto. destruct H as [-> _]. discriminate.
Qed.

(** X14: on the boolean path an exception can leave [Activated] only while
    the preview is made: then the host has been asked for nothing but the
    preview object, and the user for nothing.  Once the preview stands,
    [Activated] returns: a cut that fails is reported in a message box.
    And where the auto-cut box is unchecked or the host never answers Yes,
    no cut is created. *)
Theorem boolean_path_fails_only_before_question
    (obj : ObjId) (face : Synthesis.Face) (dialog_data : DialogData)
    (c : Vector) (rest : list Vector) (w w' : World) (r : Exn + unit) :
  Activated_with_centers host obj face None dialog_data (c :: rest) w = (w', r) ->
  exists evs,
    trace w' = trace w ++ evs /\
    (r = inr tt \/ Forall is_preview_event evs) /\
    (auto_boolean dialog_data = false \/ (forall h, reply_yes host h = false) ->
     Forall not_a_cut evs).
Proof.
  unfold Activated_with_centers. intros H.
  unfold bind at 1 in H. unfold get_shape at 1 in H.
  unfold bind at 1 in H. unfold lift at 1 in H.
  destruct (Synthesis.make_preview (Rotation_from_to host) (c :: rest)
              (shape_of host (trace w) obj) face dialog_data) as [e|preview].
  { injection H as <- <-. exists []. rewrite app_nil_r.
    split; [reflexivity|]. split; [right; constructor | intros _; constructor]. }
  unfold bind at 1 in H.
  destruct (add_preview host preview w) as [w1 [e|preview_obj]] eqn:Hpreview.
  { injection H as <- <-.
    destruct (emits_preview_events preview _ _ _ Hpreview) as (_ & evs & Ht & Hq).
    exists evs. split; [exact Ht|]. split; [now right|]. intros _.
    destruct (emits_no_cut_preview preview _ _ _ Hpreview) as (_ & evs' & Ht' & Hq').
    rewrite Ht in Ht'. apply app_inv_head in Ht'. now subst. }
  destruct (emits_no_cut_preview preview _ _ _ Hpreview) as (_ & e1 & Ht1 & Hq1).
  destruct (auto_boolean dialog_data) eqn:Hauto.
  - unfold bind at 1 in H. unfold question in H.
    match type of H with
    | context [reply_yes host ?h] => destruct (reply_yes host h) eqn:Hreply
    end.
    + unfold try_except in H.
      match type of H with
      | context [bind (add_cut host obj preview_obj) ?k ?w0] =>
          destruct (bind (add_cut host obj preview_obj) k w0) as [w2 [e|u]] eqn:Hcut
      end.
      * unfold tell in H. injection H as <- <-.
        assert (Hc : emits (fun _ => True)
                  (bind (add_cut host obj preview_obj)
                        (fun _ => tell (PrintMessage
                           ("‚úÖ " ++ str_of_nat (List.length (c :: rest))
                            ++ " inserts placed and cut." ++ nl)%string)))).
        { apply emits_bind; [apply emits_add_cut | intros; now apply emits_tell]. }
        destruct (Hc _ _ _ Hcut) as (_ & e2 & Ht2 & _).
        eexists. cbn [log trace]. rewrite Ht2. cbn [log trace].
        rewrite Ht1, <- !app_assoc. split; [reflexivity|]. split; [now left|].
        intros [Hno|Hno]; [discriminate | rewrite Hno in Hreply; discriminate].
      * assert (Hc : emits (fun _ => True)
                  (bind (add_cut host obj preview_obj)
                        (fun _ => tell (PrintMessage
                           ("‚úÖ " ++ str_of_nat (List.length (c :: rest))
                            ++ " inserts placed and cut." ++ nl)%string)))).
        { apply emits_bind; [apply emits_add_cut | intros; now apply emits_tell]. }
        destruct (Hc _ _ _ Hcut) as (_ & e2 & Ht2 & _).
        injection H as <- <-. destruct u.
        eexists. rewrite Ht2. cbn [log trace].
        rewrite Ht1, <- !app_assoc. split; [reflexivity|]. split; [now left|].
        intros [Hno|Hno]; [discriminate | rewrite Hno in Hreply; discriminate].
    + unfold ret in H. injection H as <- <-.
      eexists. cbn [log trace]. rewrite Ht1, <- app_assoc.
      split; [reflexivity|]. split; [now left|]. intros _.
      apply Forall_app. split; [exact Hq1 | repeat constructor].
  - unfold tell in H. injection H as <- <-.
    eexists. cbn [log trace]. rewrite Ht1, <- app_assoc.
    split; [reflexivity|]. split; [now left|]. intros _.
    apply Forall_app. split; [exact Hq1 | repeat constructor].
Qed.

End BooleanPath.

Lemma boolean_path_fails_only_before_question_witness :
  let run := Workbench.Activated_with_centers host_saying_no 0%nat top_face None
               default_dialog three_points initial_world in
  auto_boolean default_dialog = false \/ (forall h, Host.reply_yes host_saying_no h = false) /\
  exists evs,
    Host.trace (fst run) = Host.trace initial_world ++ evs /\
    (snd run = inr tt \/ Forall is_preview_event evs) /\
    Forall not_a_cut evs.
Proof.
  intros run.
  assert (Hno : auto_boolean default_dialog = false
                \/ (forall h, Host.reply_yes host_saying_no h = false))
    by (right; reflexivity).
  right. split; [reflexivity|].
  destruct (boolean_path_fails_only_before_question host_saying_no 0%nat top_face
              default_dialog (mkVector 0 0 10) [mkVector 20 0 10; mkVector 40 0 10]
              initial_world (fst run) (snd run) (surjective_pairing run))
    as (evs & Ht & Hr & Hcut).
  exists evs. split; [exact Ht|]. split; [exact Hr | exact (Hcut Hno)].
Defined.

(** ** The life of a sketch workflow *)

Section WorkflowLife.

Import Host Workbench.
Local Open Scope list_scope.

Variable host : Oracle.

(** X15: [on_sketch_finished] never raises.  An exception [e] that leaves
    its [try] block is printed: after the calls of the block come the error
    line "Sketch processing error: ", [e] and a newline, and the traceback,
    and nothing else; a block that returns is followed by no call.  In
    every case the instance ends out of the registry with its timer
    stopped, the other instances staying registered. *)
Theorem sketch_finished_never_raises (self : Workflow) (w : World) :
  registry_ok w ->
  exists w',
    on_sketch_finished host self w = (w', inr tt) /\
    trace w' =
      match snd (process_sketch host self w) with
      | inl e =>
          trace (fst (process_sketch host self w))
          ++ [PrintError ("Sketch processing error: " ++ e
                          ++ String "010" EmptyString)%string;
              PrintTraceback]
      | inr _ => trace (fst (process_sketch host self w))
      end /\
    ~ In (instance self) (ACTIVE_WORKFLOWS w') /\
    (forall other, other <> instance self ->
       (In other (ACTIVE_WORKFLOWS w') <-> In other (ACTIVE_WORKFLOWS w))) /\
    timer_stopped self w' /\
    registry_ok w'.
Proof.
  intros Hok.
  destruct (on_sketch_finished_returns host self w) as (w' & Hrun & Hreg & Hnext & Hstop).
  exists w'. split; [exact Hrun|]. split; [|split; [|split; [|split; [exact Hstop|]]]].
  - unfold on_sketch_finished, try_finally, try_except in Hrun.
    destruct (process_sketch host self w) as [w1 [e|[]]]; cbn [fst snd].
    + unfold bind, tell in Hrun.
      match type of Hrun with
      | context [cleanup self ?w0] =>
          destruct (cleanup_outcome self w0) as (w2 & Hclean & Htrace & _)
      end.
      rewrite Hclean in Hrun. injection Hrun as <-.
      rewrite Htrace. cbn [log trace]. now rewrite <- app_assoc.
    + destruct (cleanup_outcome self w1) as (w2 & Hclean & Htrace & _).
      rewrite Hclean in Hrun. injection Hrun as <-. exact Htrace.
  - rewrite Hreg. apply not_in_after_cleanup.
    destruct Hok as [Hnd _]. now apply NoDup_count_occ.
  - intros other Hother. rewrite Hreg. unfold registry_after_cleanup.
    destruct (existsb (Nat.eqb (instance self)) (ACTIVE_WORKFLOWS w)); [|tauto].
    split; [apply in_remove_first | now apply in_remove_first_other].
  - eapply registry_ok_after_cleanup; eauto.
Qed.

Lemma fails_clean_bind {A B : Type} (Q : Event -> Prop) (m : M A) (k : A -> M B) :
  emits Q m -> (forall a, fails_clean Q (k a)) -> fails_clean Q (bind m k).
Proof.
  intros Hm Hk w w' e H. unfold bind in H.
  destruct (m w) as [w1 [e1|a]] eqn:Hmw.
  - injection H as <- <-. exact (Hm _ _ _ Hmw).
  - destruct (Hm _ _ _ Hmw) as (Hs1 & e1 & Ht1 & Hq1).
    destruct (Hk a _ _ _ H) as (Hs2 & e2 & Ht2 & Hq2).
    exact (emits_seq Q _ _ _ _ _ Hs1 Ht1 Hq1 Hs2 Ht2 Hq2).
Qed.

Lemma addObject_outcome type_id name w w' r :
  addObject host type_id name w = (w', r) ->
  trace w' = trace w ++ [AddObject type_id name (next_obj w)] /\
  same_workflows w w' /\
  r = match raises host (trace w) (AddObject type_id name (next_obj w)) with
      | Some e => inl e
      | None => inr (next_obj w)
      end.
Proof.
  unfold addObject, call. cbn [trace].
  destruct (raises host (trace w) (AddObject type_id name (next_obj w)));
    intros H; inversion H; subst; repeat split.
Qed.

(** A run of [setup_sketch] that raises: either the creation of the sketch
    raised, and was the only call, or the sketch was created and the calls
    after it removed nothing. *)
Lemma setup_sketch_failure (self : Workflow) (w w' : World) (e : Exn) :
  setup_sketch host self w = (w', inl e) ->
  same_workflows w w' /\
  let creation :=
    AddObject "Sketcher::SketchObject" "CaptiveNut_UserSketch" (next_obj w) in
  match raises host (trace w) creation with
  | Some e' => e = e' /\ trace w' = trace w ++ [creation]
  | None =>
      exists evs, trace w' = trace w ++ creation :: evs /\ Forall not_a_removal evs
  end.
Proof.
  unfold setup_sketch. intros H. unfold bind at 1 in H.
  destruct (addObject host "Sketcher::SketchObject" "CaptiveNut_UserSketch" w)
    as [w1 [e1|sketch]] eqn:Hadd;
    apply addObject_outcome in Hadd; destruct Hadd as (Ht & Hs & Hr).
  - injection H as <- <-. split; [exact Hs|]. cbv zeta.
    destruct (raises host (trace w) _) as [e'|]; [|discriminate].
    injection Hr as ->. now split.
  - match type of H with
    | ?rest w1 = _ => assert (Hrest : fails_clean not_a_removal rest)
    end.
    { apply fails_clean_bind; [apply emits_get_face_subname | intros face_name].
      do 3 (apply fails_clean_bind; [apply emits_call; exact I | intros _]).
      apply fails_clean_bind.
      { destruct (wf_is_partdesign self); [|apply emits_ret].
        apply emits_bind.
        - unfold the_body. destruct (wf_body self); [apply emits_ret | apply emits_raise].
        - intros body. apply emits_call. exact I. }
      intros _.
      apply fails_clean_bind; [apply emits_call; exact I | intros _].
      intros w0 w0' e0 H0. discriminate. }
    destruct (Hrest _ _ _ H) as (Hs2 & evs & Ht2 & Hq).
    split; [eapply same_workflows_trans; eauto|]. cbv zeta.
    destruct (raises host (trace w) _) as [e'|]; [discriminate|].
    exists evs. rewrite Ht2, Ht, <- app_assoc. now split.
Qed.

(** X16: a construction of the workflow that raises registers no instance
    and starts no timer.  Where it is the creation of the sketch that
    raised, nothing else has been called.  Else, as when the selected face
    is not found on the object, the sketch [CaptiveNut_UserSketch] has been
    created, as the first call made, and it stays in the document: no call
    made after it removes an object. *)
Theorem failed_construction_registers_nothing
    (base_obj : ObjId) (face : Synthesis.Face) (body : option ObjId)
    (dialog_data : DialogData) (is_partdesign : bool) (w w' : World) (e : Exn) :
  new_workflow host base_obj face body dialog_data is_partdesign w = (w', inl e) ->
  ACTIVE_WORKFLOWS w' = ACTIVE_WORKFLOWS w /\
  timers w' = timers w /\
  let creation :=
    AddObject "Sketcher::SketchObject" "CaptiveNut_UserSketch" (next_obj w) in
  match raises host (trace w) creation with
  | Some e' => e = e' /\ trace w' = trace w ++ [creation]
  | None =>
      exists evs, trace w' = trace w ++ creation :: evs /\ Forall not_a_removal evs
  end.
Proof.
  unfold new_workflow. intros H.
  unfold bind at 1 in H.
  match type of H with
  | context [setup_sketch host ?s ?w0] =>
      destruct (setup_sketch host s w0) as [w1 [e1|self]] eqn:Hsetup
  end.
  - injection H as <- <-.
    apply setup_sketch_failure in Hsetup.
    destruct Hsetup as ((Hreg & _ & Htimers) & Hkeep).
    split; [exact Hreg|]. split; [exact Htimers|]. exact Hkeep.
  - unfold bind in H. discriminate.
Qed.

Lemma update_nth_last {A : Type} (f : A -> A) (l : list A) (x : A) :
  update_nth (List.length l) f (l ++ [x]) = l ++ [f x].
Proof. induction l as [|y rest IH]; simpl; [reflexivity | now rewrite IH]. Qed.

Lemma update_nth_before_last {A : Type} (f : A -> A) (l : list A) (x y : A) :
  update_nth (List.length l) f (l ++ [x; y]) = l ++ [f x; y].
Proof. induction l as [|z rest IH]; simpl; [reflexivity | now rewrite IH]. Qed.

Lemma setup_sketch_timer (self self' : Workflow) (w w' : World) :
  setup_sketch host self w = (w', inr self') ->
  timers w' = timers w ++ [mkQTimer true true 1500 SlotStartPolling] /\
  wf_timer self' = Some (List.length (timers w)) /\
  exists sketch, wf_sketch self' = Some sketch.
Proof.
  unfold setup_sketch. intros H.
  apply bind_inr in H. destruct H as (w1 & sketch & H1 & H).
  apply emits_same in H1; [|now apply emits_addObject].
  apply bind_inr in H. destruct H as (w2 & face_name & H2 & H).
  apply emits_same in H2; [|apply emits_get_face_subname].
  apply bind_inr in H. destruct H as (w3 & u3 & H3 & H).
  apply emits_same in H3; [|now apply emits_call].
  apply bind_inr in H. destruct H as (w4 & u4 & H4 & H).
  apply emits_same in H4; [|now apply emits_call].
  apply bind_inr in H. destruct H as (w5 & u5 & H5 & H).
  apply emits_same in H5; [|now apply emits_call].
  apply bind_inr in H. destruct H as (w6 & u6 & H6 & H).
  apply emits_same in H6; [|apply emits_add_to_body].
  apply bind_inr in H. destruct H as (w7 & u7 & H7 & H).
  apply emits_same in H7; [|now apply emits_call].
  assert (Ht7 : timers w7 = timers w).
  { unfold same_workflows in *.
    destruct H1 as (_ & _ & T1), H2 as (_ & _ & T2), H3 as (_ & _ & T3),
             H4 as (_ & _ & T4), H5 as (_ & _ & T5), H6 as (_ & _ & T6),
             H7 as (_ & _ & T7).
    congruence. }
  unfold bind, new_timer, setSingleShot, connect, timer_start, timer_update, ret,
    set_timers in H.
  cbn [trace next_obj ACTIVE_WORKFLOWS next_instance timers isActive singleShot
       interval slot] in H.
  injection H as <- <-.
  cbn [timers wf_timer wf_sketch with_sketch_timer].
  rewrite Ht7, !update_nth_last. cbn [isActive singleShot interval slot].
  split; [reflexivity|]. split; [reflexivity|]. now exists sketch.
Qed.

Lemma start_polling_outcome (self : Workflow) (w : World) :
  start_polling self w =
  (set_timers (timers w ++ [mkQTimer true false 1000 SlotCheckSketchClosed]) w,
   inr (with_sketch_timer self (wf_sketch self) (Some (List.length (timers w))))).
Proof.
  unfold start_polling, bind, new_timer, connect, timer_start, timer_update, ret,
    set_timers.
  cbn [trace next_obj ACTIVE_WORKFLOWS next_instance timers].
  rewrite !update_nth_last. reflexivity.
Qed.

(** X17: a workflow that has been built holds a running single-shot timer
    of 1500 ms connected to [start_polling].  When that timer fires, it
    stops and a new running timer of 1000 ms, connected to
    [check_sketch_closed], takes its place in the workflow, nothing else
    changing; and as long as the sketch is edited, a timeout of the new
    timer changes nothing at all. *)
Theorem polling_starts_after_single_shot
    (base_obj : ObjId) (face : Synthesis.Face) (body : option ObjId)
    (dialog_data : DialogData) (is_partdesign : bool) (w w1 : World) (self : Workflow) :
  new_workflow host base_obj face body dialog_data is_partdesign w = (w1, inr self) ->
  timers w1 = timers w ++ [mkQTimer true true 1500 SlotStartPolling] /\
  wf_timer self = Some (List.length (timers w)) /\
  exists w2 self2,
    timer_timeout host self w1 = (w2, inr self2) /\
    trace w2 = trace w1 /\
    ACTIVE_WORKFLOWS w2 = ACTIVE_WORKFLOWS w1 /\
    timers w2 = timers w ++ [mkQTimer false true 1500 SlotStartPolling;
                             mkQTimer true false 1000 SlotCheckSketchClosed] /\
    wf_timer self2 = Some (S (List.length (timers w))) /\
    wf_sketch self2 = wf_sketch self /\
    instance self2 = instance self /\
    (in_edit host (trace w2) = true -> timer_timeout host self2 w2 = (w2, inr self2)).
Proof.
  unfold new_workflow. intros H.
  apply bind_inr in H. destruct H as (wa & selfa & Hsetup & H).
  apply setup_sketch_timer in Hsetup. cbn [timers] in Hsetup.
  destruct Hsetup as (Htimers & Htimer & _).
  apply bind_inr in H. destruct H as (wb & ub & Happend & H).
  injection Happend as <-.
  apply ret_inv in H. destruct H as [-> H]. injection H as ->.
  cbn [set_registry timers].
  split; [exact Htimers|]. split; [exact Htimer|].
  unfold timer_timeout. rewrite Htimer. cbn [set_registry timers].
  rewrite Htimers, nth_error_app2, Nat.sub_diag by lia.
  cbn [nth_error isActive singleShot slot].
  unfold bind at 1. unfold timer_stop at 1, timer_update at 1.
  rewrite start_polling_outcome.
  cbn [set_timers set_registry trace next_obj ACTIVE_WORKFLOWS next_instance timers].
  rewrite Htimers, update_nth_last. cbn [isActive singleShot interval slot].
  eexists _, _. split; [reflexivity|].
  cbn [trace ACTIVE_WORKFLOWS timers wf_timer wf_sketch instance with_sketch_timer].
  rewrite <- app_assoc. cbn [app]. rewrite length_app. cbn [List.length].
  rewrite Nat.add_1_r.
  repeat (split; [reflexivity|]).
  intros Hedit.
  cbn [set_timers set_registry trace timers] in Hedit |- *.
  replace (S (List.length (timers w)))
    with (List.length (timers w ++ [mkQTimer false true 1500 SlotStartPolling]))
    by (rewrite length_app; simpl; lia).
  replace (timers w ++ [mkQTimer false true 1500 SlotStartPolling;
                        mkQTimer true false 1000 SlotCheckSketchClosed])
    with ((timers w ++ [mkQTimer false true 1500 SlotStartPolling])
          ++ [mkQTimer true false 1000 SlotCheckSketchClosed])
    by (now rewrite <- app_assoc).
  rewrite nth_error_app2, Nat.sub_diag by lia.
  cbn [nth_error isActive singleShot slot].
  unfold bind at 1. unfold ret at 1.
  unfold bind at 1. unfold check_sketch_closed.
  cbn [set_timers set_registry trace]. rewrite Hedit. reflexivity.
Qed.

(** X18: after [cleanup] the polling is over: a timeout of the workflow's
    timer runs no slot and changes nothing, so that the sketch is neither
    checked nor read any more. *)
Theorem cleanup_ends_polling (self : Workflow) (w : World) :
  exists w',
    cleanup self w = (w', inr tt) /\
    trace w' = trace w /\
    timer_timeout host self w' = (w', inr self).
Proof.
  destruct (cleanup_outcome self w) as (w' & Hclean & Htrace & _ & _ & _ & Hstop).
  exists w'. split; [exact Hclean|]. split; [exact Htrace|].
  unfold timer_timeout. unfold timer_stopped in Hstop.
  destruct (wf_timer self) as [t|]; [|reflexivity].
  destruct (nth_error (timers w') t) as [q|]; [|reflexivity].
  now rewrite Hstop.
Qed.

End WorkflowLife.

Lemma sketch_finished_never_raises_witness :
  let w1 := fst (Workbench.Activated host_with_circle 0%nat top_face None
                   unknown_insert_sketch_dialog initial_world) in
  registry_ok w1 /\
  exists w',
    Workbench.on_sketch_finished host_with_circle unknown_insert_workflow w1
      = (w', inr tt) /\
    Host.trace w' =
      Host.trace w1
      ++ [Host.PrintError
            ("Sketch processing error: 'M8 Captive Nut'"
             ++ String "010" EmptyString)%string;
          Host.PrintTraceback] /\
    ~ In (Workbench.instance unknown_insert_workflow) (Host.ACTIVE_WORKFLOWS w').
Proof.
  intros w1.
  assert (Hok : registry_ok w1).
  { split; [repeat constructor; simpl; tauto | repeat constructor]. }
  split; [exact Hok|].
  destruct (sketch_finished_never_raises host_with_circle unknown_insert_workflow w1 Hok)
    as (w' & Hrun & Htrace & Hout & _).
  exists w'. split; [exact Hrun|]. split; [exact Htrace | exact Hout].
Defined.

Lemma failed_construction_registers_nothing_witness :
  let run := Workbench.new_workflow host_without_faces 0%nat top_face None sketch_dialog
               false initial_world in
  run = (fst run, inl "Selected face not found in object"%string) /\
  Host.ACTIVE_WORKFLOWS (fst run) = Host.ACTIVE_WORKFLOWS initial_world /\
  Host.timers (fst run) = Host.timers initial_world /\
  Host.trace (fst run) =
    [Host.AddObject "Sketcher::SketchObject" "CaptiveNut_UserSketch" 1%nat] /\
  exists evs,
    Host.trace (fst run) =
      Host.trace initial_world
      ++ Host.AddObject "Sketcher::SketchObject" "CaptiveNut_UserSketch" 1%nat :: evs /\
    Forall not_a_removal evs.
Proof.
  intros run.
  assert (Hrun : run = (fst run, inl "Selected face not found in object"%string)).
  { rewrite (surjective_pairing run) at 1. f_equal; reflexivity. }
  split; [exact Hrun|].
  destruct (failed_construction_registers_nothing host_without_faces 0%nat top_face None
              sketch_dialog false initial_world (fst run) _ Hrun)
    as (Hreg & Htimers & Hkeep).
  split; [exact Hreg|]. split; [exact Htimers|]. split; [reflexivity | exact Hkeep].
Defined.

Lemma polling_starts_after_single_shot_witness :
  let run := Workbench.new_workflow host_still_editing 0%nat top_face None sketch_dialog
               false initial_world in
  run = (fst run, inr first_workflow) /\
  Host.timers (fst run) =
    Host.timers initial_world ++ [Host.mkQTimer true true 1500 Host.SlotStartPolling] /\
  exists w2 self2,
    Workbench.timer_timeout host_still_editing first_workflow (fst run) = (w2, inr self2) /\
    Host.in_edit host_still_editing (Host.trace w2) = true /\
    Workbench.timer_timeout host_still_editing self2 w2 = (w2, inr self2).
Proof.
  intros run.
  assert (Hrun : run = (fst run, inr first_workflow)).
  { rewrite (surjective_pairing run) at 1. f_equal; reflexivity. }
  split; [exact Hrun|].
  destruct (polling_starts_after_single_shot host_still_editing 0%nat top_face None
              sketch_dialog false initial_world (fst run) first_workflow Hrun)
    as (Htimers & _ & w2 & self2 & Hfire & _ & _ & _ & _ & _ & _ & Hpoll).
  split; [exact Htimers|].
  exists w2, self2. split; [exact Hfire|]. split; [reflexivity|].
  apply Hpoll. reflexivity.
Defined.

(** ** The dialog *)

(** X19: a preset keeps every value that [save_preset] writes: what
    [load_preset] reads back from the dictionary of [save_preset] and hands
    to the widgets is what the widgets held, no default being used.  A
    dictionary that has a key gives its own value for it, and one that
    lacks a key gives the default in the call.  The layer of the drawing is
    not part of a preset. *)
Theorem preset_round_trip (d : Dialog.Widgets) :
  Dialog.load_preset_values (Dialog.preset_of d) = stored d /\
  (forall key default,
     key = "dxf_layer"%string ->
     Dialog.preset_get (Dialog.preset_of d) key default = default) /\
  (forall preset key v default,
     In (key, v) preset -> NoDup (map fst preset) ->
     Dialog.preset_get preset key default = v) /\
  (forall preset key default,
     ~ In key (map fst preset) -> Dialog.preset_get preset key default = default) /\
  NoDup (map fst (Dialog.preset_of d)).
Proof.
  split; [reflexivity|]. split; [intros key default ->; reflexivity|].
  split; [|split].
  - intros preset key v default. induction preset as [|[k x] rest IH]; [intros []|].
    intros [Heq|Hin] Hnd; cbn [Dialog.preset_get].
    + injection Heq as -> ->. now rewrite String.eqb_refl.
    + inversion Hnd as [|k' l' Hk Hrest]; subst.
      destruct (String.eqb_spec k key) as [->|Hne].
      * exfalso. apply Hk. apply in_map_iff. now exists (key, v).
      * now apply IH.
  - intros preset key default. induction preset as [|[k x] rest IH]; [reflexivity|].
    intros Hnot. cbn [Dialog.preset_get].
    destruct (String.eqb_spec k key) as [->|Hne].
    + exfalso. apply Hnot. now left.
    + apply IH. intros Hin. apply Hnot. now right.
  - cbn [Dialog.preset_of map fst].
    repeat (constructor; [cbn [In]; intuition discriminate|]). constructor.
Qed.

Lemma preset_round_trip_witness :
  let d := Dialog.mkWidgets "Pattern Generator" "M4 Heat-Set" 6 "Countersunk" 20 90 true
             "Polar" "0,0,10" 4 20 30 90 EmptyString in
  In ("count"%string, Dialog.JInt 4) (Dialog.preset_of d) /\
  Dialog.preset_get (Dialog.preset_of d) "count" (Dialog.JInt 3) = Dialog.JInt 4 /\
  Dialog.preset_get (Dialog.preset_of d) "dxf_layer" (Dialog.JStr "All") = Dialog.JStr "All".
Proof.
  intros d.
  assert (Hin : In ("count"%string, Dialog.JInt 4) (Dialog.preset_of d)).
  { cbn. do 9 right. now left. }
  destruct (preset_round_trip d) as (_ & Hlayer & Hget & _ & Hnd).
  split; [exact Hin|]. split.
  - exact (Hget _ _ _ (Dialog.JInt 3) Hin Hnd).
  - exact (Hlayer _ _ eq_refl).
Defined.

Lemma set_add_In (x l : string) (acc : list string) :
  In l (Dialog.set_add x acc) <-> l = x \/ In l acc.
Proof.
  unfold Dialog.set_add.
  destruct (existsb (String.eqb x) acc) eqn:Hex.
  - split; [tauto|]. intros [->|H]; [|exact H].
    apply existsb_exists in Hex. destruct Hex as (y & Hy & Heq).
    apply String.eqb_eq in Heq. now subst.
  - simpl. split; intros [H|H]; auto.
Qed.

Lemma set_add_NoDup (x : string) (acc : list string) :
  NoDup acc -> NoDup (Dialog.set_add x acc).
Proof.
  intros Hnd. unfold Dialog.set_add.
  destruct (existsb (String.eqb x) acc) eqn:Hex; [exact Hnd|].
  constructor; [|exact Hnd]. intros Hin.
  assert (existsb (String.eqb x) acc = true); [|congruence].
  apply existsb_exists. exists x. split; [exact Hin | apply String.eqb_refl].
Qed.

Lemma collect_layers_unfold proxy shape outlist (acc : list string) :
  Dialog.collect_layers (Dxf.mkDocObject proxy shape outlist) acc =
  fold_left (fun layers child => Dialog.collect_layers child layers) outlist
    match proxy with
    | Some (Some layer) => Dialog.set_add layer acc
    | _ => acc
    end.
Proof. reflexivity. Qed.

Lemma collect_layers_spec (obj : Dxf.DocObject) :
  forall acc,
    (forall l, In l (Dialog.collect_layers obj acc) <-> In l acc \/ has_layer obj l) /\
    (NoDup acc -> NoDup (Dialog.collect_layers obj acc)).
Proof.
  induction obj as [proxy shape outlist IH] using DocObject_induction.
  intros acc. rewrite collect_layers_unfold.
  set (acc0 := match proxy with
               | Some (Some layer) => Dialog.set_add layer acc
               | _ => acc
               end).
  assert (Hacc0 : (forall l, In l acc0 <->
                     In l acc \/ proxy = Some (Some l)) /\ (NoDup acc -> NoDup acc0)).
  { unfold acc0. destruct proxy as [[layer|]|].
    - split; [|apply set_add_NoDup]. intros l. rewrite set_add_In. split.
      + intros [->|H]; auto.
      + intros [H|H]; [auto | injection H as ->; auto].
    - split; [|auto]. intros l. split; [auto | intros [H|H]; [auto | discriminate]].
    - split; [|auto]. intros l. split; [auto | intros [H|H]; [auto | discriminate]]. }
  assert (Hfold : forall children start,
            Forall (fun child => forall acc,
                      (forall l, In l (Dialog.collect_layers child acc) <->
                                 In l acc \/ has_layer child l) /\
                      (NoDup acc -> NoDup (Dialog.collect_layers child acc))) children ->
            (forall l, In l (fold_left (fun layers child => Dialog.collect_layers child layers)
                               children start) <->
                       In l start \/ exists child, In child children /\ has_layer child l) /\
            (NoDup start ->
             NoDup (fold_left (fun layers child => Dialog.collect_layers child layers)
                      children start))).
  { induction children as [|child rest IHrest]; intros start Hall.
    - split; [|auto]. intros l. simpl. split; [auto | intros [H|(c & [] & _)]; auto].
    - inversion Hall as [|c0 r0 Hchild Hrest]; subst.
      cbn [fold_left].
      destruct (IHrest (Dialog.collect_layers child start) Hrest) as [Hin Hnd].
      destruct (Hchild start) as [Hcin Hcnd].
      split.
      + intros l. rewrite Hin, Hcin. split.
        * intros [[H|H]|(c & Hc & Hl)]; auto.
          -- right. exists child. split; [now left | exact H].
          -- right. exists c. split; [now right | exact Hl].
        * intros [H|(c & [<-|Hc] & Hl)]; auto.
          right. now exists c.
      + intros Hs. apply Hnd, Hcnd, Hs. }
  destruct (Hfold outlist acc0 IH) as [Hin Hnd].
  destruct Hacc0 as [Hacc_in Hacc_nd].
  split; [|intros H; apply Hnd, Hacc_nd, H].
  intros l. rewrite Hin, Hacc_in. unfold has_layer.
  change (all_nodes (Dxf.mkDocObject proxy shape outlist))
    with (Dxf.mkDocObject proxy shape outlist :: flat_map all_nodes outlist).
  split.
  - intros [[H|H]|(child & Hc & node & Hnode & Hl)]; auto.
    + right. exists (Dxf.mkDocObject proxy shape outlist). split; [now left | exact H].
    + right. exists node. split; [|exact Hl]. right. apply in_flat_map. now exists child.
  - intros [H|(node & [<-|Hnode] & Hl)]; auto.
    apply in_flat_map in Hnode. destruct Hnode as (child & Hc & Hnode).
    right. exists child. split; [exact Hc|]. now exists node.
Qed.

Lemma insert_sorted_In (x y : string) (l : list string) :
  In y (Dialog.insert_sorted x l) <-> y = x \/ In y l.
Proof.
  induction l as [|z rest IH]; simpl; [intuition|].
  destruct (String.leb x z); simpl; [intuition|]. rewrite IH. intuition.
Qed.

Lemma insert_sorted_Sorted (x : string) (l : list string) :
  Sorted (fun a b => String.leb a b = true) l ->
  Sorted (fun a b => String.leb a b = true) (Dialog.insert_sorted x l).
Proof.
  induction 1 as [|z rest Hrest IH Hhd]; simpl; [repeat constructor|].
  destruct (String.leb x z) eqn:Hxz.
  - constructor; [now constructor | now constructor].
  - constructor; [exact IH|].
    assert (Hzx : String.leb z x = true).
    { destruct (String.leb_total x z); congruence. }
    destruct rest as [|y rest']; simpl; [now constructor|].
    destruct (String.leb x y); constructor; auto.
    now inversion Hhd.
Qed.

Lemma insert_sorted_NoDup (x : string) (l : list string) :
  ~ In x l -> NoDup l -> NoDup (Dialog.insert_sorted x l).
Proof.
  induction l as [|z rest IH]; intros Hx Hnd; simpl; [repeat constructor; auto|].
  destruct (String.leb x z); [now constructor|].
  inversion Hnd as [|z' r' Hz Hrest]; subst.
  constructor.
  - rewrite insert_sorted_In. intros [->|H]; [apply Hx; now left | contradiction].
  - apply IH; [intros H; apply Hx; now right | exact Hrest].
Qed.

Lemma sorted_spec (l : list string) :
  (forall x, In x (Dialog.sorted l) <-> In x l) /\
  Sorted (fun a b => String.leb a b = true) (Dialog.sorted l) /\
  (NoDup l -> NoDup (Dialog.sorted l)).
Proof.
  unfold Dialog.sorted. induction l as [|y rest (Hin & Hsorted & Hnd)]; simpl.
  - split; [tauto|]. split; [constructor | auto].
  - split; [|split].
    + intros x. rewrite insert_sorted_In, Hin. intuition.
    + now apply insert_sorted_Sorted.
    + intros H. inversion H as [|y' r' Hy Hrest]; subst.
      apply insert_sorted_NoDup; [rewrite Hin; exact Hy | auto].
Qed.

Section Layers.

Import Host Workbench.
Local Open Scope list_scope.

Variable host : Oracle.

(** X20: [update_dxf_layers] never raises.  For a path that is empty or
    names no file the combo box is left empty and the drawing is not
    opened.  Otherwise, when the import gives a drawing and its removal
    succeeds, the combo box offers the layers of the proxies of all nodes of
    the drawing, each once and in ascending order, or the single item "All"
    when no node has a layer; and when the import raises, returns nothing,
    or the removal raises, it offers the single item "All". *)
Theorem layer_combo_items (dxf_path : string) (w : World) :
  (dxf_path = EmptyString \/ is_file host dxf_path = false ->
   Dialog.update_dxf_layers host dxf_path w = (w, inr [])) /\
  (dxf_path <> EmptyString -> is_file host dxf_path = true ->
   exists w' items,
     Dialog.update_dxf_layers host dxf_path w = (w', inr items) /\
     match import_dxf host (trace w) dxf_path with
     | Dxf.ImportRoot name obj =>
         match raises host (trace w ++ [ImportDXF dxf_path]) (RemoveObject name) with
         | None =>
             ((forall l, ~ has_layer obj l) -> items = ["All"%string]) /\
             ((exists l, has_layer obj l) ->
              (forall l, In l items <-> has_layer obj l) /\
              NoDup items /\
              Sorted (fun a b => String.leb a b = true) items)
         | Some _ => items = ["All"%string]
         end
     | _ => items = ["All"%string]
     end).
Proof.
  split.
  - intros Hbad. unfold Dialog.update_dxf_layers.
    destruct Hbad as [->|Hfile]; [reflexivity|].
    rewrite Hfile. now rewrite orb_true_r.
  - intros Hpath Hfile. unfold Dialog.update_dxf_layers.
    apply String.eqb_neq in Hpath. rewrite Hpath, Hfile. cbn [orb negb].
    unfold try_except, importDXF_open. unfold bind at 1.
    destruct (import_dxf host (trace w) dxf_path) as [e| |name obj].
    + eexists _, _. split; reflexivity.
    + eexists _, _. split; reflexivity.
    + unfold bind at 1. unfold call. cbn [log trace].
      destruct (raises host (trace w ++ [ImportDXF dxf_path]) (RemoveObject name)).
      * eexists _, _. split; reflexivity.
      * eexists _, _. split; [reflexivity|].
        destruct (collect_layers_spec obj []) as [Hin Hnd].
        destruct (Dialog.collect_layers obj []) as [|l0 more] eqn:Hlayers.
        -- split; [reflexivity|]. intros (l & Hl).
           exfalso. apply (proj2 (Hin l)). now right.
        -- split.
           ++ intros Hnone. exfalso. apply (Hnone l0).
              destruct (proj1 (Hin l0)) as [[]|H]; [now left | exact H].
           ++ intros _. destruct (sorted_spec (l0 :: more)) as (Hsin & Hsorted & Hsnd).
              split; [|split; [apply Hsnd, Hnd; constructor | exact Hsorted]].
              intros l. rewrite Hsin, Hin. simpl. tauto.
Qed.

End Layers.

Lemma layer_combo_items_witness :
  "plate.dxf"%string <> EmptyString /\
  Host.is_file host_with_drawing "plate.dxf" = true /\
  Dialog.update_dxf_layers host_with_drawing "plate.dxf" initial_world =
    (Host.log (Host.RemoveObject "plate")
       (Host.log (Host.ImportDXF "plate.dxf") initial_world),
     inr ["A"%string; "B"%string]) /\
  exists w' items,
    Dialog.update_dxf_layers host_with_drawing "plate.dxf" initial_world = (w', inr items) /\
    ((exists l, has_layer grouped_drawing l) ->
     (forall l, In l items <-> has_layer grouped_drawing l) /\
     NoDup items /\
     Sorted (fun a b => String.leb a b = true) items).
Proof.
  assert (Hpath : "plate.dxf"%string <> EmptyString) by discriminate.
  assert (Hfile : Host.is_file host_with_drawing "plate.dxf" = true) by reflexivity.
  split; [exact Hpath|]. split; [exact Hfile|]. split; [reflexivity|].
  destruct (proj2 (layer_combo_items host_with_drawing "plate.dxf" initial_world)
              Hpath Hfile) as (w' & items & Hrun & Hitems).
  exists w', items. split; [exact Hrun|]. exact (proj2 Hitems).
Defined.

(** ** Edge cases of the synthesis and of the commit *)

(** X21: whatever the entry of the table, the style included, the pocket
    starts in the plane of the face (the plane [z = 0] of the solid's own
    frame) and is cut along local -Z by exactly the pocket depth; the bolt
    hole starts at the origin of that plane and is cut along local -Z by
    exactly its depth. *)
Theorem pocket_and_hole_cut_downwards (data : InsertSpec) (depth : R) :
  cut_down_from_face (Synthesis.make_pocket data depth) depth /\
  cut_down_from_face (Synthesis.make_bolt_hole data depth) depth.
Proof.
  split.
  - unfold Synthesis.make_pocket.
    destruct (String.eqb (pocket_style data) "hex").
    + cbn [cut_down_from_face]. split; [|reflexivity].
      rewrite range_6. repeat constructor.
    + destruct (String.eqb (pocket_style data) "rect").
      * destruct (nut data). cbn [cut_down_from_face]. split; [|reflexivity].
        repeat constructor.
      * cbn [cut_down_from_face]. repeat split.
  - unfold Synthesis.make_bolt_hole. cbn [cut_down_from_face]. repeat split.
Qed.

Section UnknownInsert.

Import Host Workbench.
Local Open Scope list_scope.

Variable host : Oracle.

Lemma commit_from_unknown_insert body face dialog_data sketch e centers :
  dict_get INSERT_TYPES (insert_type dialog_data) = inl e ->
  forall i w,
    commit_from host body face dialog_data sketch i centers w =
    (mkWorld (trace w ++ map (fun k => PrintError (failed_pocket k e))
                             (seq i (List.length centers)))
             (next_obj w) (ACTIVE_WORKFLOWS w) (next_instance w) (timers w),
     inr tt).
Proof.
  intros Hinsert. induction centers as [|c rest IH]; intros i w.
  - cbn. rewrite app_nil_r. now destruct w.
  - rewrite commit_from_cons.
    assert (Hpoint : commit_point host body face dialog_data sketch i c w =
                     (log (PrintError (failed_pocket i e)) w, inr tt)).
    { unfold commit_point, try_except, pocket_attempt. rewrite Hinsert. reflexivity. }
    rewrite Hpoint. cbn [fst]. rewrite IH.
    cbn [log trace next_obj ACTIVE_WORKFLOWS next_instance timers List.length seq map].
    now rewrite <- app_assoc.
Qed.

(** X22: with an insert type that is not in the table the commit calls
    nothing on the document: for every point, in the order of the points,
    it prints the error line "Failed pocket #", the number of the point
    counted from 1, ": ", the message of the lookup and a newline; then it
    returns. *)
Theorem unknown_insert_only_prints_errors
    (body : ObjId) (face : Synthesis.Face) (dialog_data : DialogData)
    (sketch : option ObjId) (e : Exn) (centers : list Vector) (w : World) :
  dict_get INSERT_TYPES (insert_type dialog_data) = inl e ->
  exists w',
    commit_points host body face dialog_data sketch centers w = (w', inr tt) /\
    trace w' = trace w ++ map (fun k => PrintError (failure_report k e))
                              (seq 0 (List.length centers)) /\
    next_obj w' = next_obj w.
Proof.
  intros Hinsert. unfold commit_points.
  rewrite (commit_from_unknown_insert body face dialog_data sketch e centers Hinsert).
  eexists. split; [reflexivity|]. split; [|reflexivity].
  cbn [trace]. f_equal. apply map_ext. intros k. now rewrite failed_pocket_report.
Qed.

End UnknownInsert.

Lemma unknown_insert_only_prints_errors_witness :
  dict_get INSERT_TYPES (insert_type unknown_insert_dialog)
    = inl "'M8 Captive Nut'"%string /\
  exists w',
    Workbench.commit_points quiet_host 0%nat top_face unknown_insert_dialog None
      three_points initial_world = (w', inr tt) /\
    Host.trace w' =
      Host.trace initial_world
      ++ [Host.PrintError
            ("Failed pocket #1: 'M8 Captive Nut'" ++ String "010" EmptyString)%string;
          Host.PrintError
            ("Failed pocket #2: 'M8 Captive Nut'" ++ String "010" EmptyString)%string;
          Host.PrintError
            ("Failed pocket #3: 'M8 Captive Nut'" ++ String "010" EmptyString)%string] /\
    Host.next_obj w' = Host.next_obj initial_world.
Proof.
  assert (H : dict_get INSERT_TYPES (insert_type unknown_insert_dialog)
              = inl "'M8 Captive Nut'"%string) by reflexivity.
  split; [exact H|].
  exact (unknown_insert_only_prints_errors quiet_host 0%nat top_face unknown_insert_dialog
           None _ three_points initial_world H).
Defined.
